(** * Business rules engines and flow orchestrators: a shallow embedding

    The repository ships two near-duplicate implementations of the same
    subsystem:

    - [agentic-flow-builder/scripts]: [business_rules_engine.py]
      ([ExpressionEvaluator], [BusinessRulesEngine.validate_rule_syntax]) and
      [flow_orchestrator.py] (the five workflow patterns);
    - [prd-quality-gate-flow]: [business_rules_engine.py]
      ([BusinessRulesEngine.evaluate_gate] with weighted scoring) and
      [flow_orchestrator.py] (the node walk with gate decisions).

    Python data is embedded as the inductive [pyval]; an exception is a value
    of [exn] carried by [res]; the SQLite tables become lists of rows in a
    record that is threaded through the functions that write to them.
    Python floats are embedded as exact rationals ([Q]).

    What is left out: the text written to standard output, the write-only
    [details] dictionary of the agentic evaluator, and the timestamps that
    serve as row keys, which are taken to be distinct.  The coroutines of
    the orchestrators never suspend on anything but each other, so a call
    is embedded as a function on the store, and [asyncio.gather] as running
    its tasks in the order of their creation. *)

From Stdlib Require Import List String Ascii ZArith QArith Bool Lia Arith DecimalString
  Sorted.
Import ListNotations.
Open Scope string_scope.
Set Warnings "-register-all".


(* ================================================================== *)
(** ** Python values and builtins *)
(* ================================================================== *)

Module Py.

(** Values as [json.loads] produces them. *)
Inductive pyval : Type :=
| PNone
| PBool (b : bool)
| PInt (z : Z)
| PFloat (q : Q)
| PStr (s : string)
| PList (l : list pyval)
| PDict (d : list (string * pyval)).

(** The [reason] text of a gate decision of the quality-gate engine, kept
    with the numbers that its f-string formats. *)
Inductive gate_reason : Type :=
| NoRulesConfigured                       (* "No rules configured, automatic pass" *)
| CriticalFailure (rule_name : string)    (* f"Critical failure: {rule_name}" *)
| HumanReviewRequired                     (* "Human review required" *)
| CriticalFailures (names : list string)  (* f"Critical failures: {', '.join(...)}" *)
| AllChecksPassed (score : Q)             (* f"All checks passed (score: {score:.1f})" *)
| MarginalScore (score : Q)               (* f"Marginal score ({score:.1f}), ..." *)
| ScoreBelowThreshold (score threshold : Q)
| InsufficientScore (score : Q).          (* f"Insufficient score ({score:.1f})" *)

(** Exceptions.  Formatted messages are kept as a fixed text plus the value
    that the f-string interpolates. *)
Inductive exn : Type :=
| KeyError (key : pyval)
| IndexError
| TypeError
| AttributeError
| ReError
| ValueError (msg : string) (about : pyval)
| RuleEvaluationError (msg : string) (about : pyval)
| ComparisonFailed (field : pyval) (cause : exn)
| PatternMatchFailed (cause : exn)
| ExpressionEvaluationFailed (cause : exn)
| GateRejected (gate_number : pyval) (reason : gate_reason)
| RecursionError.

Inductive res (A : Type) : Type :=
| Ok (a : A)
| Raise (e : exn).
Arguments Ok {A} a.
Arguments Raise {A} e.

Definition bind {A B} (m : res A) (k : A -> res B) : res B :=
  match m with
  | Ok a => k a
  | Raise e => Raise e
  end.

Notation "x <- m ;; k" := (bind m (fun x => k))
  (at level 61, m at next level, right associativity).

(** [try: m  except Exception as e: h e] *)
Definition try_except {A} (m : res A) (h : exn -> res A) : res A :=
  match m with
  | Ok a => Ok a
  | Raise e => h e
  end.

(** Code that reads and writes a store of type [St] and may raise: the
    store is handed on as the exception left it. *)
Definition M (St A : Type) : Type := St -> res A * St.

Definition ret {St A} (a : A) : M St A := fun st => (Ok a, st).

Definition raise {St A} (e : exn) : M St A := fun st => (Raise e, st).

Definition bindM {St A B} (m : M St A) (k : A -> M St B) : M St B :=
  fun st =>
    match m st with
    | (Ok a, st') => k a st'
    | (Raise e, st') => (Raise e, st')
    end.

Definition gets {St A} (f : St -> A) : M St A := fun st => (Ok (f st), st).

Definition modify {St} (f : St -> St) : M St unit := fun st => (Ok tt, f st).

Definition lift {St A} (r : res A) : M St A := fun st => (r, st).

Notation "x <~ m ;; k" := (bindM m (fun x => k))
  (at level 61, m at next level, right associativity).

(** [try: m  except Exception as e: h e] for code with a store *)
Definition try_with {St A} (m : M St A) (h : exn -> M St A) : M St A :=
  fun st =>
    match m st with
    | (Ok a, st') => (Ok a, st')
    | (Raise e, st') => h e st'
    end.

(** The parts of the Python runtime that are taken as given. *)
Record runtime : Type := {
  (* bool(re.match(pattern, s)); None when the pattern does not compile *)
  re_match : string -> string -> option bool;
  (* str(v) for a float, a list or a dict *)
  repr_other : pyval -> string;
  (* float(s) for a string; None is ValueError *)
  float_of_str : string -> option Q;
  (* getattr(v, name, None) for a value that is not a dict *)
  py_getattr : pyval -> string -> pyval
}.

(** *** Strings *)

Fixpoint contains_sub (needle hay : string) : bool :=
  String.prefix needle hay ||
  match hay with
  | EmptyString => false
  | String _ hay' => contains_sub needle hay'
  end.

Fixpoint contains_char (c : ascii) (s : string) : bool :=
  match s with
  | EmptyString => false
  | String c' s' => Ascii.eqb c' c || contains_char c s'
  end.

Definition endswith (s suffix : string) : bool :=
  let n := String.length s in
  let m := String.length suffix in
  (m <=? n)%nat && String.eqb (String.substring (n - m) m s) suffix.

(** [s.split(sep)] for a one-character separator *)
Fixpoint split_on (sep : ascii) (s : string) : list string :=
  match s with
  | EmptyString => [EmptyString]
  | String c s' =>
      if Ascii.eqb c sep then EmptyString :: split_on sep s'
      else match split_on sep s' with
           | [] => [String c EmptyString]
           | p :: ps => String c p :: ps
           end
  end.

(** [s.rstrip(c)] for a one-character set *)
Fixpoint rstrip_char (c : ascii) (s : string) : string :=
  match s with
  | EmptyString => EmptyString
  | String c' s' =>
      match rstrip_char c s' with
      | EmptyString => if Ascii.eqb c' c then EmptyString else String c' EmptyString
      | rest => String c' rest
      end
  end.

Fixpoint chars (s : string) : list string :=
  match s with
  | EmptyString => []
  | String c s' => String c EmptyString :: chars s'
  end.

Definition is_space (c : ascii) : bool :=
  let n := nat_of_ascii c in
  ((9 <=? n) && (n <=? 13) || (28 <=? n) && (n <=? 32))%nat.

Fixpoint lstrip_space (s : string) : string :=
  match s with
  | String c s' => if is_space c then lstrip_space s' else s
  | EmptyString => EmptyString
  end.

Fixpoint rstrip_space (s : string) : string :=
  match s with
  | EmptyString => EmptyString
  | String c s' =>
      match rstrip_space s' with
      | EmptyString => if is_space c then EmptyString else String c EmptyString
      | rest => String c rest
      end
  end.

Definition digit_of (c : ascii) : option Z :=
  let n := nat_of_ascii c in
  if ((48 <=? n) && (n <=? 57))%nat then Some (Z.of_nat (n - 48)) else None.

(** Digits with single underscores between them, as [int()] reads them.
    [prev_digit] tells whether the character before was a digit. *)
Fixpoint digits_value (acc : Z) (prev_digit : bool) (s : string) : option Z :=
  match s with
  | EmptyString => if prev_digit then Some acc else None
  | String c s' =>
      match digit_of c with
      | Some d => digits_value (10 * acc + d) true s'
      | None =>
          if Ascii.eqb c "_"%char && prev_digit
          then match s' with
               | EmptyString => None
               | String c2 _ =>
                   match digit_of c2 with
                   | Some _ => digits_value acc false s'
                   | None => None
                   end
               end
          else None
      end
  end.

(** [int(s)] for a string in base ten; [None] is [ValueError]. *)
Definition int_of_str (s : string) : option Z :=
  match rstrip_space (lstrip_space s) with
  | String "-"%char body => option_map Z.opp (digits_value 0 false body)
  | String "+"%char body => digits_value 0 false body
  | body => digits_value 0 false body
  end.

(** *** Dictionaries (association lists in insertion order) *)

Fixpoint dict_get (k : string) (d : list (string * pyval)) : option pyval :=
  match d with
  | [] => None
  | (k', v) :: d' => if String.eqb k' k then Some v else dict_get k d'
  end.

Definition dict_has (k : string) (d : list (string * pyval)) : bool :=
  match dict_get k d with Some _ => true | None => false end.

Definition dict_keys (d : list (string * pyval)) : list string := map fst d.

(** [d[k] = v] on a dict: replace in place or append. *)
Fixpoint dict_set (k : string) (v : pyval) (d : list (string * pyval))
  : list (string * pyval) :=
  match d with
  | [] => [(k, v)]
  | (k', v') :: d' =>
      if String.eqb k' k then (k, v) :: d' else (k', v') :: dict_set k v d'
  end.

(** *** Numbers, truth and equality *)

Definition Q_of_bool (b : bool) : Q := if b then 1 else 0.

(** The numeric value of an [int], [bool] or [float]. *)
Definition as_number (v : pyval) : option Q :=
  match v with
  | PBool b => Some (Q_of_bool b)
  | PInt z => Some (inject_Z z)
  | PFloat q => Some q
  | _ => None
  end.

Definition Qlt_bool (x y : Q) : bool := negb (Qle_bool y x).

Definition truthy (v : pyval) : bool :=
  match v with
  | PNone => false
  | PBool b => b
  | PInt z => negb (z =? 0)%Z
  | PFloat q => negb (Qeq_bool q 0)
  | PStr s => negb (String.eqb s EmptyString)
  | PList l => match l with [] => false | _ => true end
  | PDict d => match d with [] => false | _ => true end
  end.

Section ListEq.
Context (eq : pyval -> pyval -> bool).
Fixpoint list_eq (l1 l2 : list pyval) : bool :=
  match l1, l2 with
  | [], [] => true
  | x :: l1', y :: l2' => eq x y && list_eq l1' l2'
  | _, _ => false
  end.
(** every entry of the first dict has an equal entry in [d2] *)
Fixpoint dict_sub (d1 : list (string * pyval)) (d2 : list (string * pyval)) : bool :=
  match d1 with
  | [] => true
  | (k, v) :: d1' =>
      match dict_get k d2 with
      | Some v2 => eq v v2 && dict_sub d1' d2
      | None => false
      end
  end.
End ListEq.

(** [a == b] *)
Fixpoint py_eq (a b : pyval) {struct a} : bool :=
  match a, b with
  | PNone, PNone => true
  | PStr s, PStr t => String.eqb s t
  | PList la, PList lb => list_eq py_eq la lb
  | PDict da, PDict db =>
      (List.length da =? List.length db)%nat && dict_sub py_eq da db
  | _, _ =>
      match as_number a, as_number b with
      | Some x, Some y => Qeq_bool x y
      | _, _ => false
      end
  end.

Definition is_str (v : pyval) : bool :=
  match v with PStr _ => true | _ => false end.

(** [isinstance(v, int)]: [bool] is a subclass of [int] *)
Definition is_int (v : pyval) : bool :=
  match v with PInt _ | PBool _ => true | _ => false end.

Definition is_float (v : pyval) : bool :=
  match v with PFloat _ => true | _ => false end.

Definition is_none (v : pyval) : bool :=
  match v with PNone => true | _ => false end.

(** [type(a) == type(b)] *)
Definition same_type (a b : pyval) : bool :=
  match a, b with
  | PNone, PNone | PBool _, PBool _ | PInt _, PInt _ | PFloat _, PFloat _
  | PStr _, PStr _ | PList _, PList _ | PDict _, PDict _ => true
  | _, _ => false
  end.

(** a value usable as a dict key or looked up in a dict *)
Definition hashable (v : pyval) : bool :=
  match v with PList _ | PDict _ => false | _ => true end.

(** [x in container] *)
Definition py_in (x container : pyval) : res bool :=
  match container with
  | PList l => Ok (existsb (py_eq x) l)
  | PDict d =>
      if hashable x
      then Ok (match x with PStr k => dict_has k d | _ => false end)
      else Raise TypeError
  | PStr s =>
      match x with
      | PStr n => Ok (contains_sub n s)
      | _ => Raise TypeError
      end
  | _ => Raise TypeError
  end.

(** [container[key]] for a string key *)
Definition py_getitem (container : pyval) (k : string) : res pyval :=
  match container with
  | PDict d =>
      match dict_get k d with
      | Some v => Ok v
      | None => Raise (KeyError (PStr k))
      end
  | _ => Raise TypeError
  end.

(** [container[i]] for an integer index *)
Definition py_index (container : pyval) (i : Z) : res pyval :=
  match container with
  | PList l =>
      let n := Z.of_nat (List.length l) in
      let j := (if i <? 0 then i + n else i)%Z in
      if ((0 <=? j) && (j <? n))%Z
      then match nth_error l (Z.to_nat j) with
           | Some v => Ok v
           | None => Raise IndexError
           end
      else Raise IndexError
  | PStr s =>
      let n := Z.of_nat (String.length s) in
      let j := (if i <? 0 then i + n else i)%Z in
      if ((0 <=? j) && (j <? n))%Z
      then match String.get (Z.to_nat j) s with
           | Some c => Ok (PStr (String c EmptyString))
           | None => Raise IndexError
           end
      else Raise IndexError
  | PDict _ => Raise (KeyError (PInt i))
  | _ => Raise TypeError
  end.

(** [container.get(k)] *)
Definition py_get (container : pyval) (k : string) : res pyval :=
  match container with
  | PDict d => Ok (match dict_get k d with Some v => v | None => PNone end)
  | _ => Raise AttributeError
  end.

(** the values a [for] loop over [v] visits *)
Definition py_iter (v : pyval) : res (list pyval) :=
  match v with
  | PList l => Ok l
  | PDict d => Ok (map PStr (dict_keys d))
  | PStr s => Ok (map PStr (chars s))
  | _ => Raise TypeError
  end.

(** [len(v) if v is not None and hasattr(v, '__len__') else 0] *)
Definition len_or_zero (v : pyval) : pyval :=
  match v with
  | PStr s => PInt (Z.of_nat (String.length s))
  | PList l => PInt (Z.of_nat (List.length l))
  | PDict d => PInt (Z.of_nat (List.length d))
  | _ => PInt 0
  end.

Definition string_of_Z (z : Z) : string :=
  DecimalString.NilZero.string_of_int (Z.to_int z).

(** [str(v)] *)
Definition py_str (rt : runtime) (v : pyval) : string :=
  match v with
  | PNone => "None"
  | PBool true => "True"
  | PBool false => "False"
  | PInt z => string_of_Z z
  | PStr s => s
  | _ => repr_other rt v
  end.

(** [float(v)] *)
Definition py_float (rt : runtime) (v : pyval) : res Q :=
  match v with
  | PBool b => Ok (Q_of_bool b)
  | PInt z => Ok (inject_Z z)
  | PFloat q => Ok q
  | PStr s =>
      match float_of_str rt s with
      | Some q => Ok q
      | None => Raise (ValueError "could not convert string to float" v)
      end
  | _ => Raise TypeError
  end.

(** [int(v)] for a string *)
Definition py_int_of_str (s : string) : res pyval :=
  match int_of_str s with
  | Some z => Ok (PInt z)
  | None => Raise (ValueError "invalid literal for int() with base 10" (PStr s))
  end.

(** [bool(re.match(pattern, s))] *)
Definition py_re_match (rt : runtime) (pattern : pyval) (s : string) : res bool :=
  match pattern with
  | PStr p =>
      match re_match rt p s with
      | Some b => Ok b
      | None => Raise ReError
      end
  | _ => Raise TypeError
  end.

(** The six rich comparisons of the [operator] module. *)
Inductive cmpop : Type := OpEq | OpNe | OpLt | OpGt | OpLe | OpGe.

Definition cmp_Q (op : cmpop) (x y : Q) : bool :=
  match op with
  | OpEq => Qeq_bool x y
  | OpNe => negb (Qeq_bool x y)
  | OpLt => Qlt_bool x y
  | OpGt => Qlt_bool y x
  | OpLe => Qle_bool x y
  | OpGe => Qle_bool y x
  end.

Definition cmp_of_comparison (op : cmpop) (c : comparison) : bool :=
  match op, c with
  | OpEq, Eq | OpLe, Eq | OpGe, Eq => true
  | OpNe, Lt | OpNe, Gt => true
  | OpLt, Lt | OpLe, Lt => true
  | OpGt, Gt | OpGe, Gt => true
  | _, _ => false
  end.

Section ListOrder.
Context (ord : pyval -> pyval -> res bool).
(** list comparison: the first pair of unequal elements decides *)
Fixpoint list_order (len_result : comparison -> bool) (l1 l2 : list pyval)
  : res bool :=
  match l1, l2 with
  | [], [] => Ok (len_result Eq)
  | [], _ :: _ => Ok (len_result Lt)
  | _ :: _, [] => Ok (len_result Gt)
  | x :: l1', y :: l2' =>
      if py_eq x y then list_order len_result l1' l2' else ord x y
  end.
End ListOrder.

(** [a < b], [a > b], [a <= b], [a >= b]; [TypeError] when unordered *)
Fixpoint py_order (op : cmpop) (a b : pyval) {struct a} : res bool :=
  match a, b with
  | PStr s, PStr t => Ok (cmp_of_comparison op (String.compare s t))
  | PList la, PList lb => list_order (py_order op) (cmp_of_comparison op) la lb
  | _, _ =>
      match as_number a, as_number b with
      | Some x, Some y => Ok (cmp_Q op x y)
      | _, _ => Raise TypeError
      end
  end.

(** [compare_fn(a, b)] for [compare_fn] one of [operator.eq] ... [operator.ge] *)
Definition py_compare (op : cmpop) (a b : pyval) : res bool :=
  match op with
  | OpEq => Ok (py_eq a b)
  | OpNe => Ok (negb (py_eq a b))
  | _ => py_order op a b
  end.

End Py.

(* ================================================================== *)
(** ** agentic-flow-builder/scripts/business_rules_engine.py *)
(* ================================================================== *)

Module AgenticBRE.
Import Py.

(** Lookup in a dict that hands the stored value straight to [f], so that a
    recursive evaluator can be applied to the value found under a key. *)
Section DictFind.
Context {A : Type} (f : pyval -> A).
Fixpoint dict_find (k : string) (d : list (string * pyval)) : option A :=
  match d with
  | [] => None
  | (k', v) :: d' => if String.eqb k' k then Some (f v) else dict_find k d'
  end.
End DictFind.

(** [f(node[k])] *)
Definition getitem_with {A} (f : pyval -> res A) (node : pyval) (k : string) : res A :=
  match node with
  | PDict d =>
      match dict_find f k d with
      | Some r => r
      | None => Raise (KeyError (PStr k))
      end
  | _ => Raise TypeError
  end.

Section MapRes.
Context {A B : Type} (f : A -> res B).
(** a list comprehension whose body may raise *)
Fixpoint map_res (l : list A) : res (list B) :=
  match l with
  | [] => Ok []
  | x :: l' =>
      y <- f x ;;
      ys <- map_res l' ;;
      Ok (y :: ys)
  end.
End MapRes.

(** [[self(child) for child in children]]: the elements of a list are
    visited by [self]; iterating a dict or a string yields strings, which
    [flat] evaluates. *)
Definition for_children {B} (self flat : pyval -> res B) (children : pyval)
  : res (list B) :=
  match children with
  | PList l => map_res self l
  | _ =>
      items <- py_iter children ;;
      map_res flat items
  end.

(** [COMPARISON_OPS] *)
Definition COMPARISON_OPS (op : string) : option cmpop :=
  if String.eqb op "==" then Some OpEq
  else if String.eqb op "!=" then Some OpNe
  else if String.eqb op "<" then Some OpLt
  else if String.eqb op ">" then Some OpGt
  else if String.eqb op "<=" then Some OpLe
  else if String.eqb op ">=" then Some OpGe
  else None.

Section Evaluator.
Context (rt : runtime).

(** [ExpressionEvaluator._get_field_value], one round of the loop body
    per element of [parts] *)
Fixpoint walk_parts (parts : list string) (value : pyval) : res pyval :=
  match parts with
  | [] => Ok value
  | part :: rest =>
      if contains_char "["%char part then
        match split_on "["%char part with
        | [key; index] =>
            i <- py_int_of_str (rstrip_char "]"%char index) ;;
            inner <- py_getitem value key ;;
            v <- match i with
                 | PInt z => py_index inner z
                 | _ => Raise TypeError
                 end ;;
            if is_none v then Ok PNone else walk_parts rest v
        | _ => Raise (ValueError "too many values to unpack (expected 2)" (PStr part))
        end
      else
        match value with
        | PDict d =>
            match dict_get part d with
            | Some v => if is_none v then Ok PNone else walk_parts rest v
            | None => Ok PNone
            end
        | _ => Ok PNone
        end
  end.

Definition _get_field_value (field_path : pyval) (context : pyval) : res pyval :=
  match field_path with
  | PStr p => walk_parts (split_on "."%char p) context
  | _ => Raise AttributeError
  end.

(** [ExpressionEvaluator._coerce_types] *)
Definition _coerce_types (actual expected : pyval) : pyval * pyval :=
  if same_type actual expected then (actual, expected)
  else if is_int expected && is_str actual then
    match actual with
    | PStr s =>
        match int_of_str s with
        | Some z => (PInt z, expected)
        | None => (actual, expected)
        end
    | _ => (actual, expected)
    end
  else if is_float expected && (is_str actual || is_int actual) then
    match py_float rt actual with
    | Ok q => (PFloat q, expected)
    | Raise _ => (actual, expected)
    end
  else if is_str expected then (PStr (py_str rt actual), expected)
  else (actual, expected).

(** [ExpressionEvaluator._evaluate_comparison] *)
Definition _evaluate_comparison (node context : pyval) : res bool :=
  field <- py_getitem node "field" ;;
  op <- py_getitem node "operator" ;;
  expected_value <- py_getitem node "value" ;;
  actual_value <- _get_field_value field context ;;
  if py_eq op (PStr "IS NULL") then Ok (is_none actual_value)
  else if py_eq op (PStr "IS NOT NULL") then Ok (negb (is_none actual_value))
  else if negb (hashable op) then Raise TypeError
  else
    match (match op with PStr o => COMPARISON_OPS o | _ => None end) with
    | None => Raise (RuleEvaluationError "Unknown operator: " op)
    | Some compare_fn =>
        let '(actual_value, expected_value) := _coerce_types actual_value expected_value in
        try_except (py_compare compare_fn actual_value expected_value)
          (fun e => Raise (ComparisonFailed field e))
    end.

(** [ExpressionEvaluator._evaluate_membership] *)
Definition _evaluate_membership (node context : pyval) (in_set : bool) : res bool :=
  f_in <- py_get node "IN" ;;
  field <- (if truthy f_in then Ok f_in else py_get node "NOT IN") ;;
  values <- match node with
            | PDict d => Ok (match dict_get "values" d with
                             | Some v => v
                             | None => PList []
                             end)
            | _ => Raise AttributeError
            end ;;
  actual_value <- _get_field_value field context ;;
  result <- py_in actual_value values ;;
  Ok (if in_set then result else negb result).

(** [ExpressionEvaluator._evaluate_pattern_match] *)
Definition _evaluate_pattern_match (node context : pyval) : res bool :=
  m <- py_getitem node "MATCHES" ;;
  field <- py_getitem m "field" ;;
  pattern <- py_getitem m "pattern" ;;
  v <- _get_field_value field context ;;
  let actual_value := py_str rt v in
  try_except (py_re_match rt pattern actual_value)
    (fun e => Raise (PatternMatchFailed e)).

(** [ExpressionEvaluator._evaluate_contains] *)
Definition _evaluate_contains (node context : pyval) : res bool :=
  c <- py_getitem node "CONTAINS" ;;
  field <- py_getitem c "field" ;;
  substring <- py_getitem c "value" ;;
  v <- _get_field_value field context ;;
  py_in substring (PStr (py_str rt v)).

(** The body of [_evaluate_node]; [self] stands for the recursive call
    and [flat] for the call on a string met while iterating something
    that is not a list. *)
Definition evaluate_node_body (self flat : pyval -> res bool)
    (node context : pyval) : res bool :=
  has_and <- py_in (PStr "AND") node ;;
  if has_and then
    results <- getitem_with (for_children self flat) node "AND" ;;
    Ok (forallb (fun b => b) results)
  else
  has_or <- py_in (PStr "OR") node ;;
  if has_or then
    results <- getitem_with (for_children self flat) node "OR" ;;
    Ok (existsb (fun b => b) results)
  else
  has_not <- py_in (PStr "NOT") node ;;
  if has_not then
    r <- getitem_with self node "NOT" ;;
    Ok (negb r)
  else
  has_field <- py_in (PStr "field") node ;;
  has_operator <- (if has_field then py_in (PStr "operator") node else Ok false) ;;
  if has_field && has_operator then _evaluate_comparison node context
  else
  has_in <- py_in (PStr "IN") node ;;
  if has_in then _evaluate_membership node context true
  else
  has_not_in <- py_in (PStr "NOT IN") node ;;
  if has_not_in then _evaluate_membership node context false
  else
  has_matches <- py_in (PStr "MATCHES") node ;;
  if has_matches then _evaluate_pattern_match node context
  else
  has_contains <- py_in (PStr "CONTAINS") node ;;
  if has_contains then _evaluate_contains node context
  else Raise (RuleEvaluationError "Unknown expression node type: " node).

(** On a node that is not a dict no recursive call is ever reached. *)
Definition evaluate_flat (context node : pyval) : res bool :=
  evaluate_node_body (fun _ => Raise TypeError) (fun _ => Raise TypeError)
    node context.

(** [ExpressionEvaluator._evaluate_node] *)
Fixpoint _evaluate_node (context node : pyval) {struct node} : res bool :=
  evaluate_node_body (_evaluate_node context) (evaluate_flat context)
    node context.

(** [ExpressionEvaluator.evaluate]: the boolean of the returned pair.
    [context.keys()] is read before the [try]. *)
Definition evaluate (expression context : pyval) : res bool :=
  match context with
  | PDict _ =>
      try_except (_evaluate_node context expression)
        (fun e => Raise (ExpressionEvaluationFailed e))
  | _ => Raise AttributeError
  end.

End Evaluator.

Section ForEach.
Context (f : pyval -> res unit).
(** [for child in l: f(child)] *)
Fixpoint for_each (l : list pyval) : res unit :=
  match l with
  | [] => Ok tt
  | x :: l' => _ <- f x ;; for_each l'
  end.
End ForEach.

(** the children of an AND or OR node, which must be a list *)
Definition validate_children (self : pyval -> res unit) (opname : string)
    (children : pyval) : res unit :=
  match children with
  | PList l => for_each self l
  | _ => Raise (ValueError (opname ++ " operator requires a list of conditions") PNone)
  end.

(** [op not in COMPARISON_OPS and op not in ["IS NULL", "IS NOT NULL"]] *)
Definition unknown_operator (op : pyval) : res bool :=
  if negb (hashable op) then Raise TypeError
  else
    Ok (match (match op with PStr o => COMPARISON_OPS o | _ => None end) with
        | Some _ => false
        | None => negb (py_eq op (PStr "IS NULL") || py_eq op (PStr "IS NOT NULL"))
        end).

(** [BusinessRulesEngine._validate_node] *)
Fixpoint _validate_node (node : pyval) {struct node} : res unit :=
  match node with
  | PDict d =>
      if dict_has "AND" d then
        getitem_with (validate_children _validate_node "AND") node "AND"
      else if dict_has "OR" d then
        getitem_with (validate_children _validate_node "OR") node "OR"
      else if dict_has "NOT" d then
        getitem_with _validate_node node "NOT"
      else if dict_has "field" d then
        if negb (dict_has "operator" d) then
          Raise (ValueError "Comparison expression requires 'operator'" PNone)
        else
          op <- py_getitem node "operator" ;;
          unknown <- unknown_operator op ;;
          if unknown then Raise (ValueError "Unknown operator: " op)
          else if negb (py_eq op (PStr "IS NULL") || py_eq op (PStr "IS NOT NULL"))
                  && negb (dict_has "value" d)
          then Raise (ValueError "Comparison expression requires 'value'" PNone)
          else Ok tt
      else if existsb (fun key => dict_has key d) ["IN"; "NOT IN"; "MATCHES"; "CONTAINS"]
      then Ok tt
      else Raise (ValueError "Invalid expression node structure: " node)
  | _ => Raise (ValueError "Expression node must be a dictionary" PNone)
  end.

(** [BusinessRulesEngine.validate_rule_syntax]: [(is_valid, error)] *)
Definition validate_rule_syntax (condition : pyval) : bool * option exn :=
  match _validate_node condition with
  | Ok _ => (true, None)
  | Raise e => (false, Some e)
  end.

(** [RuleStatus] *)
Inductive RuleStatus : Type := PASS | FAIL | ERROR.

(** [RuleEvaluation], without the timestamp and the details dictionary *)
Record RuleEvaluation : Type := {
  rule_id : pyval;
  status : RuleStatus;
  result : bool;
  error : option exn
}.

(** [BusinessRulesEngine.evaluate_rule] with no database attached; the
    condition is the parsed expression. *)
Definition evaluate_rule (rt : runtime) (rule context : pyval) : res RuleEvaluation :=
  rid <- py_get rule "rule_id" ;;
  condition <- py_get rule "condition" ;;
  let rule_id := match rule with
                 | PDict d => match dict_get "rule_id" d with
                              | Some v => v
                              | None => PStr "unknown"
                              end
                 | _ => rid
                 end in
  Ok (match evaluate rt condition context with
      | Ok r =>
          {| rule_id := rule_id;
             status := if r then PASS else FAIL;
             result := r;
             error := None |}
      | Raise e =>
          {| rule_id := rule_id; status := ERROR; result := false;
             error := Some e |}
      end).

(** *** Writing to the context

    The context is a tree, as [json.loads] builds it: no dict is reachable
    along two paths.  A function that changes the context in place returns
    its outcome together with the context as the call leaves it, also when
    it raises. *)

(** [container[k] = v] for a string key *)
Definition py_setitem (container : pyval) (k : string) (v : pyval) : res pyval :=
  match container with
  | PDict d => Ok (PDict (dict_set k v d))
  | _ => Raise TypeError
  end.

Fixpoint dict_del (k : string) (d : list (string * pyval)) : list (string * pyval) :=
  match d with
  | [] => []
  | (k', v) :: d' =>
      if String.eqb k' k then dict_del k d' else (k', v) :: dict_del k d'
  end.

(** [del container[k]] for a string key *)
Definition py_delitem (container : pyval) (k : string) : res pyval :=
  match container with
  | PDict d =>
      if dict_has k d then Ok (PDict (dict_del k d))
      else Raise (KeyError (PStr k))
  | _ => Raise TypeError
  end.

(** [current] after the dict found under [part] was changed in place *)
Definition write_back (current : pyval) (part : string) (child : pyval) : pyval :=
  match current with
  | PDict d => PDict (dict_set part child d)
  | _ => current
  end.

(** The loop of [_set_field_value] over [parts[:-1]] and the assignment to
    [parts[-1]] after it. *)
Fixpoint set_parts (parts : list string) (value current : pyval)
  : res unit * pyval :=
  match parts with
  | [] => (Raise IndexError, current)
  | [last] =>
      match py_setitem current last value with
      | Ok current' => (Ok tt, current')
      | Raise e => (Raise e, current)
      end
  | part :: rest =>
      match py_in (PStr part) current with
      | Raise e => (Raise e, current)
      | Ok present =>
          match (if present then Ok current
                 else py_setitem current part (PDict [])) with
          | Raise e => (Raise e, current)
          | Ok current1 =>
              match py_getitem current1 part with
              | Raise e => (Raise e, current1)
              | Ok child =>
                  let '(r, child') := set_parts rest value child in
                  (r, write_back current1 part child')
              end
          end
      end
  end.

(** [BusinessRulesEngine._set_field_value] *)
Definition _set_field_value (field_path value context : pyval)
  : res unit * pyval :=
  match field_path with
  | PStr p => set_parts (split_on "."%char p) value context
  | _ => (Raise AttributeError, context)
  end.

(** The loop of [_remove_field] over [parts[:-1]] and the deletion of
    [parts[-1]] after it. *)
Fixpoint remove_parts (parts : list string) (current : pyval)
  : res unit * pyval :=
  match parts with
  | [] => (Raise IndexError, current)
  | [last] =>
      match py_in (PStr last) current with
      | Raise e => (Raise e, current)
      | Ok false => (Ok tt, current)
      | Ok true =>
          match py_delitem current last with
          | Ok current' => (Ok tt, current')
          | Raise e => (Raise e, current)
          end
      end
  | part :: rest =>
      match py_in (PStr part) current with
      | Raise e => (Raise e, current)
      | Ok false => (Ok tt, current)
      | Ok true =>
          match py_getitem current part with
          | Raise e => (Raise e, current)
          | Ok child =>
              let '(r, child') := remove_parts rest child in
              (r, write_back current part child')
          end
      end
  end.

(** [BusinessRulesEngine._remove_field] *)
Definition _remove_field (field_path context : pyval) : res unit * pyval :=
  match field_path with
  | PStr p => remove_parts (split_on "."%char p) context
  | _ => (Raise AttributeError, context)
  end.

(** *** The engine with a database

    A row of [business_rules] is the dict that [dict(row)] builds, with the
    JSON text of its columns [condition] and [action] parsed.  The database
    is taken to accept the rows that are written to it. *)

(** [if s:] for an optional text *)
Definition provided (s : option string) : bool :=
  match s with
  | Some t => negb (String.eqb t EmptyString)
  | None => false
  end.

(** [evaluation.status == RuleStatus.PASS] *)
Definition is_pass (evaluation : RuleEvaluation) : bool :=
  match status evaluation with
  | PASS => true
  | _ => false
  end.

Section WithDatabase.
Context {St : Type} (rt : runtime).
(* self.database is not None *)
Context (attached : bool).
(* FlowDatabase.get_rules_for_flow(flow_id, rule_type) *)
Context (get_rules_for_flow : string -> string -> St -> list (list (string * pyval))).
(* FlowDatabase.record_gate_evaluation for an execution, a node, a context
   and the evaluation of a rule *)
Context (record_gate_evaluation
         : string -> string -> pyval -> RuleEvaluation -> St -> St).

(** [BusinessRulesEngine.evaluate_rule] *)
Definition evaluate_rule_on (rule context : pyval)
    (execution_id node_id : option string) : M St RuleEvaluation :=
  evaluation <~ lift (evaluate_rule rt rule context) ;;
  if attached && provided execution_id && provided node_id then
    match execution_id, node_id with
    | Some e, Some n =>
        _ <~ modify (record_gate_evaluation e n context evaluation) ;;
        ret evaluation
    | _, _ => ret evaluation
    end
  else ret evaluation.

(** [for rule in rules: ...] of [evaluate_gate] *)
Fixpoint evaluate_rules (rules : list (list (string * pyval))) (context : pyval)
    (execution_id : option string) (node_id : string)
    (all_passed : bool) (evaluations : list RuleEvaluation)
  : M St (bool * list RuleEvaluation) :=
  match rules with
  | [] => ret (all_passed, evaluations)
  | rule :: rest =>
      evaluation <~ evaluate_rule_on (PDict rule) context execution_id
                      (Some node_id) ;;
      evaluate_rules rest context execution_id node_id
        (if is_pass evaluation then all_passed else false)
        (evaluations ++ [evaluation])%list
  end.

(** [BusinessRulesEngine.evaluate_gate] *)
Definition evaluate_gate (flow_id node_id : string) (context : pyval)
    (execution_id : option string) : M St (bool * list RuleEvaluation) :=
  if negb attached
  then raise (ValueError "Database required for gate evaluation" PNone)
  else
    rules <~ gets (get_rules_for_flow flow_id "gate") ;;
    evaluate_rules rules context execution_id node_id true [].

End WithDatabase.

End AgenticBRE.

(* ================================================================== *)
(** ** prd-quality-gate-flow/business_rules_engine.py *)
(* ================================================================== *)

Module QualityGateBRE.
Import Py.
Import AgenticBRE (dict_find, getitem_with).

(** *** Rows and results *)

(** The [metadata] column of a rule, parsed; a missing key is [None] or
    [false]. *)
Record rule_metadata : Type := {
  weight : option Q;
  critical : bool;
  auto_kill_if_fail : bool;
  requires_human_if_fail : bool
}.

Definition empty_metadata : rule_metadata :=
  {| weight := None; critical := false; auto_kill_if_fail := false;
     requires_human_if_fail := false |}.

(** A row of [business_rules]; [condition] is the parsed JSON text. *)
Record rule_row : Type := {
  rule_id : string;
  name : string;
  gate_node_id : option string;
  enabled : bool;
  priority : Z;
  condition : pyval;
  metadata : option rule_metadata
}.

(** The [config] column of a node, parsed; a missing key is [None]. *)
Record node_config : Type := {
  gate_type : option string;
  pass_threshold : option Q;
  decision_options : option (list string);
  gate_number : option pyval;
  recycle_target : option pyval;
  pattern : option string;
  agent_type : option string;
  working_memory_input : option (list string);
  working_memory_output : option (list string)
}.

Definition empty_config : node_config :=
  {| gate_type := None; pass_threshold := None; decision_options := None;
     gate_number := None; recycle_target := None; pattern := None;
     agent_type := None; working_memory_input := None;
     working_memory_output := None |}.

Module Node.
(** A row of [nodes]. *)
Record row : Type := {
    node_id : string;
    flow_id : string;
    node_type : string;
    name : string;
    description : string;
    parent_id : option string;
    config : option node_config
  }.
End Node.

(** [RuleEvaluationResult.reason] *)
Inductive rule_reason : Type :=
| ConditionSatisfied            (* "Condition satisfied" *)
| ConditionNotMet               (* "Condition not met" *)
| EvaluationError (e : exn).    (* f"Evaluation error: {str(e)}" *)

(** [RuleEvaluationResult.evaluation_details] *)
Inductive rule_details : Type :=
| Details (condition : pyval) (context_snapshot : list (string * pyval))
| ErrorDetails (error : exn) (condition : pyval).

Module RuleEvaluationResult.
Record t : Type := {
    rule_id : string;
    rule_name : string;
    passed : bool;
    score : Q;
    reason : rule_reason;
    evaluation_details : rule_details
  }.
End RuleEvaluationResult.

(** an entry of [GateEvaluationResult.recommendations] *)
Inductive recommendation : Type :=
| Fix (r : rule_reason)                   (* f"Fix: {result.reason}" *)
| HumanReviewFor (rule_name : string).    (* f"Human review required for: {rule_name}" *)

Module GateEvaluationResult.
Record t : Type := {
    gate_id : string;
    gate_name : string;
    decision : string;
    overall_score : Q;
    passed : bool;
    rule_results : list RuleEvaluationResult.t;
    reason : gate_reason;
    recommendations : list recommendation
  }.
End GateEvaluationResult.

(** A row of [gate_evaluations] (the [eval_id] is a timestamp). *)
Record gate_evaluation_row : Type := {
  ge_execution_id : string;
  ge_gate_node_id : string;
  ge_rule_id : string;
  ge_status : string;
  ge_evaluation_result : bool;
  ge_score : Q;
  ge_reason : rule_reason;
  ge_context_snapshot : rule_details
}.

(** The [event_data] of an audit entry. *)
Inductive event_data : Type :=
| GateEvaluationEvent (gate_id decision : string) (score : Q)
    (reason : gate_reason) (rules_evaluated rules_passed : nat)
| OtherEvent (data : pyval).

(** A row of [audit_log] (the [log_id] is a timestamp). *)
Record audit_row : Type := {
  al_execution_id : string;
  al_event_type : string;
  al_event_data : event_data;
  al_actor : string
}.

(** A row of [node_executions]; [node_exec_id] is its position. *)
Record node_execution_row : Type := {
  ne_execution_id : string;
  ne_node_id : string;
  ne_status : string;
  ne_output_data : option pyval
}.

(** A row of [executions]. *)
Record execution_row : Type := {
  ex_execution_id : string;
  ex_flow_id : string;
  ex_status : string;
  ex_input_context : pyval;
  ex_output_result : option pyval;
  ex_error_message : option exn
}.

(** The tables behind the [sqlite3] connection. *)
Record database : Type := {
  nodes : list Node.row;
  business_rules : list rule_row;
  gate_evaluations : list gate_evaluation_row;
  audit_log : list audit_row;
  node_executions : list node_execution_row;
  working_memory : list (string * string * pyval);
  executions : list execution_row
}.

Definition with_gate_evaluations (db : database) (l : list gate_evaluation_row) :=
  {| nodes := nodes db; business_rules := business_rules db;
     gate_evaluations := l; audit_log := audit_log db;
     node_executions := node_executions db;
     working_memory := working_memory db; executions := executions db |}.

Definition with_audit_log (db : database) (l : list audit_row) :=
  {| nodes := nodes db; business_rules := business_rules db;
     gate_evaluations := gate_evaluations db; audit_log := l;
     node_executions := node_executions db;
     working_memory := working_memory db; executions := executions db |}.

Definition with_node_executions (db : database) (l : list node_execution_row) :=
  {| nodes := nodes db; business_rules := business_rules db;
     gate_evaluations := gate_evaluations db; audit_log := audit_log db;
     node_executions := l;
     working_memory := working_memory db; executions := executions db |}.

Definition with_working_memory (db : database) (l : list (string * string * pyval)) :=
  {| nodes := nodes db; business_rules := business_rules db;
     gate_evaluations := gate_evaluations db; audit_log := audit_log db;
     node_executions := node_executions db;
     working_memory := l; executions := executions db |}.

(** *** Queries *)

(** [SELECT * FROM nodes WHERE node_id = ?] then [fetchone()] *)
Definition select_node (db : database) (node_id : string) : option Node.row :=
  find (fun n => String.eqb (Node.node_id n) node_id) (nodes db).

(** [ORDER BY priority DESC], rows of equal priority in table order *)
Fixpoint insert_by_priority (r : rule_row) (l : list rule_row) : list rule_row :=
  match l with
  | [] => [r]
  | r' :: l' =>
      if (priority r' <=? priority r)%Z then r :: l
      else r' :: insert_by_priority r l'
  end.

Definition order_by_priority_desc (l : list rule_row) : list rule_row :=
  fold_right insert_by_priority [] l.

(** [SELECT * FROM business_rules WHERE gate_node_id = ? AND enabled = TRUE
    ORDER BY priority DESC] *)
Definition select_rules (db : database) (gate_id : string) : list rule_row :=
  order_by_priority_desc
    (filter (fun r => match gate_node_id r with
                      | Some g => String.eqb g gate_id && enabled r
                      | None => false
                      end)
            (business_rules db)).

(** *** The utility functions that build conditions *)

(** [field_equals] *)
Definition field_equals (field : string) (value : pyval) : pyval :=
  PDict [("field", PStr field); ("operator", PStr "=="); ("value", value)].

(** [field_not_equals] *)
Definition field_not_equals (field : string) (value : pyval) : pyval :=
  PDict [("field", PStr field); ("operator", PStr "!="); ("value", value)].

(** [field_greater_than] *)
Definition field_greater_than (field : string) (value : pyval) : pyval :=
  PDict [("field", PStr field); ("operator", PStr ">"); ("value", value)].

(** [field_less_than] *)
Definition field_less_than (field : string) (value : pyval) : pyval :=
  PDict [("field", PStr field); ("operator", PStr "<"); ("value", value)].

(** [all_of] *)
Definition all_of (conditions : list pyval) : pyval :=
  PDict [("AND", PList conditions)].

(** [any_of] *)
Definition any_of (conditions : list pyval) : pyval :=
  PDict [("OR", PList conditions)].

(** [none_of] *)
Definition none_of (condition : pyval) : pyval :=
  PDict [("NOT", condition)].

(** [field_matches_pattern] *)
Definition field_matches_pattern (field pattern : string) : pyval :=
  PDict [("MATCHES", PDict [("field", PStr field); ("pattern", PStr pattern)])].

(** *** The engine *)

Section Lazy.
Context (f : pyval -> res bool).
(** [all(f(c) for c in l)]: stops at the first false *)
Fixpoint all_lazy (l : list pyval) : res bool :=
  match l with
  | [] => Ok true
  | c :: l' => b <- f c ;; if b then all_lazy l' else Ok false
  end.
(** [any(f(c) for c in l)]: stops at the first true *)
Fixpoint any_lazy (l : list pyval) : res bool :=
  match l with
  | [] => Ok false
  | c :: l' => b <- f c ;; if b then Ok true else any_lazy l'
  end.
End Lazy.

(** a generator over [children] folded by [fold]: list elements are visited
    by [self], the strings met in a dict or a string by [flat] *)
Definition over_children {B}
    (fold : (pyval -> res B) -> list pyval -> res B)
    (self flat : pyval -> res B) (children : pyval) : res B :=
  match children with
  | PList l => fold self l
  | _ => items <- py_iter children ;; fold flat items
  end.

Section Extend.
Context (f : pyval -> res (list pyval)).
(** [for c in l: fields.extend(f(c))] *)
Fixpoint extend_each (l : list pyval) : res (list pyval) :=
  match l with
  | [] => Ok []
  | c :: l' => xs <- f c ;; ys <- extend_each l' ;; Ok (xs ++ ys)%list
  end.
End Extend.

Section Engine.
Context (rt : runtime).

(** the loop of [_get_field_value] over the parts of the path *)
Fixpoint navigate (parts : list string) (value : pyval) : pyval :=
  match parts with
  | [] => value
  | part :: rest =>
      match value with
      | PNone => PNone
      | PDict d =>
          navigate rest (match dict_get part d with
                         | Some v => v
                         | None => PNone
                         end)
      | _ => navigate rest (py_getattr rt value part)
      end
  end.

(** [BusinessRulesEngine._get_field_value] on a string path; each
    recursive call drops the seven characters of [".length"], so a fuel
    of the length of the path is never used up. *)
Fixpoint get_field_value_fuel (fuel : nat) (field_path : string)
    (context : pyval) : pyval :=
  if endswith field_path ".length" then
    match fuel with
    | O => PInt 0
    | S fuel' =>
        let base_path :=
          String.substring 0 (String.length field_path - 7) field_path in
        len_or_zero (get_field_value_fuel fuel' base_path context)
    end
  else navigate (split_on "."%char field_path) context.

Definition _get_field_value (field_path context : pyval) : res pyval :=
  match field_path with
  | PStr p => Ok (get_field_value_fuel (String.length p) p context)
  | _ => Raise AttributeError
  end.

(** [BusinessRulesEngine._compare_values] *)
Definition _compare_values (actual operator expected : pyval) : res bool :=
  if py_eq operator (PStr "IS NULL") then Ok (is_none actual)
  else if py_eq operator (PStr "IS NOT NULL") then Ok (negb (is_none actual))
  else if is_none actual then Ok false
  else if py_eq operator (PStr "==") then Ok (py_eq actual expected)
  else if py_eq operator (PStr "!=") then Ok (negb (py_eq actual expected))
  else if py_eq operator (PStr ">") then
    a <- py_float rt actual ;; e <- py_float rt expected ;; Ok (Qlt_bool e a)
  else if py_eq operator (PStr "<") then
    a <- py_float rt actual ;; e <- py_float rt expected ;; Ok (Qlt_bool a e)
  else if py_eq operator (PStr ">=") then
    a <- py_float rt actual ;; e <- py_float rt expected ;; Ok (Qle_bool e a)
  else if py_eq operator (PStr "<=") then
    a <- py_float rt actual ;; e <- py_float rt expected ;; Ok (Qle_bool a e)
  else if py_eq operator (PStr "IN") then py_in actual expected
  else if py_eq operator (PStr "NOT IN") then
    b <- py_in actual expected ;; Ok (negb b)
  else Raise (ValueError "Unknown operator: " operator).

(** the MATCHES branch of [_evaluate_condition] *)
Definition evaluate_matches (condition context : pyval) : res bool :=
  m <- py_getitem condition "MATCHES" ;;
  field <- py_getitem m "field" ;;
  m' <- py_getitem condition "MATCHES" ;;
  pattern <- py_getitem m' "pattern" ;;
  value <- _get_field_value field context ;;
  if is_none value then Ok false
  else py_re_match rt pattern (py_str rt value).

(** the comparison branch of [_evaluate_condition] *)
Definition evaluate_simple (condition context : pyval) : res bool :=
  field <- py_getitem condition "field" ;;
  operator <- py_getitem condition "operator" ;;
  expected_value <- py_get condition "value" ;;
  actual_value <- _get_field_value field context ;;
  _compare_values actual_value operator expected_value.

(** The body of [_evaluate_condition]; [self] stands for the recursive
    call, [flat] for the call on a string met while iterating something
    that is not a list. *)
Definition evaluate_condition_body (self flat : pyval -> res bool)
    (condition context : pyval) : res bool :=
  has_and <- py_in (PStr "AND") condition ;;
  if has_and then getitem_with (over_children all_lazy self flat) condition "AND"
  else
  has_or <- py_in (PStr "OR") condition ;;
  if has_or then getitem_with (over_children any_lazy self flat) condition "OR"
  else
  has_not <- py_in (PStr "NOT") condition ;;
  if has_not then
    r <- getitem_with self condition "NOT" ;; Ok (negb r)
  else
  has_matches <- py_in (PStr "MATCHES") condition ;;
  if has_matches then evaluate_matches condition context
  else
  has_field <- py_in (PStr "field") condition ;;
  has_operator <- (if has_field then py_in (PStr "operator") condition
                   else Ok false) ;;
  if has_field && has_operator then evaluate_simple condition context
  else Raise (ValueError "Invalid condition format: " condition).

Definition evaluate_condition_flat (context condition : pyval) : res bool :=
  evaluate_condition_body (fun _ => Raise TypeError) (fun _ => Raise TypeError)
    condition context.

(** [BusinessRulesEngine._evaluate_condition] *)
Fixpoint _evaluate_condition (context condition : pyval) {struct condition}
  : res bool :=
  evaluate_condition_body (_evaluate_condition context)
    (evaluate_condition_flat context) condition context.

(** The body of [_extract_field_paths], with [self] and [flat] as above. *)
Definition extract_field_paths_body (self flat : pyval -> res (list pyval))
    (condition : pyval) : res (list pyval) :=
  has_field <- py_in (PStr "field") condition ;;
  fields1 <- (if has_field
              then f <- py_getitem condition "field" ;; Ok [f]
              else Ok []) ;;
  has_and <- py_in (PStr "AND") condition ;;
  fields2 <- (if has_and
              then getitem_with (over_children extend_each self flat) condition "AND"
              else Ok []) ;;
  has_or <- py_in (PStr "OR") condition ;;
  fields3 <- (if has_or
              then getitem_with (over_children extend_each self flat) condition "OR"
              else Ok []) ;;
  has_not <- py_in (PStr "NOT") condition ;;
  fields4 <- (if has_not then getitem_with self condition "NOT" else Ok []) ;;
  has_matches <- py_in (PStr "MATCHES") condition ;;
  fields5 <- (if has_matches
              then m <- py_getitem condition "MATCHES" ;;
                   in_m <- py_in (PStr "field") m ;;
                   if in_m then f <- py_getitem m "field" ;; Ok [f] else Ok []
              else Ok []) ;;
  Ok (fields1 ++ fields2 ++ fields3 ++ fields4 ++ fields5)%list.

Definition extract_field_paths_flat (condition : pyval) : res (list pyval) :=
  extract_field_paths_body (fun _ => Raise TypeError) (fun _ => Raise TypeError)
    condition.

(** [BusinessRulesEngine._extract_field_paths] *)
Fixpoint _extract_field_paths (condition : pyval) {struct condition}
  : res (list pyval) :=
  extract_field_paths_body _extract_field_paths extract_field_paths_flat
    condition.

(** [{field: self._get_field_value(field, context) for field in fields}] *)
Fixpoint snapshot (fields : list pyval) (context : pyval)
    (acc : list (string * pyval)) : res (list (string * pyval)) :=
  match fields with
  | [] => Ok acc
  | field :: rest =>
      v <- _get_field_value field context ;;
      match field with
      | PStr k => snapshot rest context (dict_set k v acc)
      | _ => Raise TypeError
      end
  end.

(** [BusinessRulesEngine._extract_relevant_context] *)
Definition _extract_relevant_context (condition context : pyval)
  : res (list (string * pyval)) :=
  fields <- _extract_field_paths condition ;;
  snapshot fields context [].

(** [BusinessRulesEngine.evaluate_rule]; the details, and with them the
    context snapshot, are built inside the [try]. *)
Definition evaluate_rule (rule : rule_row) (context : pyval)
  : RuleEvaluationResult.t :=
  let attempt :=
    passed <- _evaluate_condition context (condition rule) ;;
    let score := if passed then 100 else 0 in
    snap <- _extract_relevant_context (condition rule) context ;;
    Ok {| RuleEvaluationResult.rule_id := rule_id rule;
          RuleEvaluationResult.rule_name := name rule;
          RuleEvaluationResult.passed := passed;
          RuleEvaluationResult.score := score;
          RuleEvaluationResult.reason :=
            if passed then ConditionSatisfied else ConditionNotMet;
          RuleEvaluationResult.evaluation_details :=
            Details (condition rule) snap |} in
  match attempt with
  | Ok r => r
  | Raise e =>
      {| RuleEvaluationResult.rule_id := rule_id rule;
         RuleEvaluationResult.rule_name := name rule;
         RuleEvaluationResult.passed := false;
         RuleEvaluationResult.score := 0;
         RuleEvaluationResult.reason := EvaluationError e;
         RuleEvaluationResult.evaluation_details :=
           ErrorDetails e (condition rule) |}
  end.

(** The local variables of the loop of [evaluate_gate]. *)
Record loop_state : Type := {
    rule_results : list RuleEvaluationResult.t;
    total_weight : Q;
    weighted_score : Q;
    critical_failures : list string;
    recommendations : list recommendation
  }.

Definition initial_state : loop_state :=
  {| rule_results := []; total_weight := 0; weighted_score := 0;
     critical_failures := []; recommendations := [] |}.

(** [json.loads(rule['metadata']) if rule['metadata'] else {}] *)
Definition metadata_of (rule : rule_row) : rule_metadata :=
  match metadata rule with
  | Some m => m
  | None => empty_metadata
  end.

(** [metadata.get('weight', 10)] *)
Definition weight_of (m : rule_metadata) : Q :=
  match weight m with
  | Some w => w
  | None => 10
  end.

(** [for rule in rules: ...] of [evaluate_gate]: [inl] is the [return]
    inside the loop, [inr] the state when the loop runs to its end. *)
Fixpoint gate_loop (gate_id gate_name : string) (context : pyval)
    (rules : list rule_row) (st : loop_state)
  : GateEvaluationResult.t + loop_state :=
  match rules with
  | [] => inr st
  | rule :: rest =>
      let result := evaluate_rule rule context in
      let rule_results := (rule_results st ++ [result])%list in
      let metadata := metadata_of rule in
      let weight := weight_of metadata in
      let is_critical := critical metadata in
      let total_weight := total_weight st + weight in
      if RuleEvaluationResult.passed result then
        gate_loop gate_id gate_name context rest
          {| rule_results := rule_results;
             total_weight := total_weight;
             weighted_score :=
               weighted_score st + weight * RuleEvaluationResult.score result;
             critical_failures := critical_failures st;
             recommendations := recommendations st |}
      else
        let critical_failures :=
          if is_critical
          then (critical_failures st ++ [RuleEvaluationResult.rule_name result])%list
          else critical_failures st in
        if auto_kill_if_fail metadata then
          inl {| GateEvaluationResult.gate_id := gate_id;
                 GateEvaluationResult.gate_name := gate_name;
                 GateEvaluationResult.decision := "KILL";
                 GateEvaluationResult.overall_score := 0;
                 GateEvaluationResult.passed := false;
                 GateEvaluationResult.rule_results := rule_results;
                 GateEvaluationResult.reason :=
                   CriticalFailure (RuleEvaluationResult.rule_name result);
                 GateEvaluationResult.recommendations :=
                   [Fix (RuleEvaluationResult.reason result)] |}
        else
          let recommendations :=
            if requires_human_if_fail metadata
            then (recommendations st
                    ++ [HumanReviewFor (RuleEvaluationResult.rule_name result)])%list
            else recommendations st in
          gate_loop gate_id gate_name context rest
            {| rule_results := rule_results;
               total_weight := total_weight;
               weighted_score := weighted_score st;
               critical_failures := critical_failures;
               recommendations := recommendations |}
  end.

Definition string_in (s : string) (l : list string) : bool :=
  existsb (String.eqb s) l.

(** [(weighted_score / total_weight) if total_weight > 0 else 0] *)
Definition overall_score_of (st : loop_state) : Q :=
  if Qlt_bool 0 (total_weight st)
  then weighted_score st / total_weight st
  else 0.

(** The [if]/[elif] chain of [evaluate_gate] after the loop:
    [(decision, passed, reason)]. *)
Definition decide (gate_config : node_config) (st : loop_state)
  : string * bool * gate_reason :=
  let overall_score := overall_score_of st in
  let gate_type :=
    match gate_type gate_config with Some t => t | None => "automated" end in
  let pass_threshold :=
    match pass_threshold gate_config with Some t => t | None => 80 end in
  let decision_options :=
    match decision_options gate_config with
    | Some o => o
    | None => ["GO"; "RECYCLE"]
    end in
  if String.eqb gate_type "human" then
    ("PENDING_HUMAN_REVIEW", false, HumanReviewRequired)
  else if match critical_failures st with [] => false | _ => true end then
    (if string_in "RECYCLE" decision_options then "RECYCLE" else "HOLD",
     false, CriticalFailures (critical_failures st))
  else if Qle_bool pass_threshold overall_score then
    (if string_in "GO" decision_options then "GO" else "PASS",
     true, AllChecksPassed overall_score)
  else if Qle_bool (pass_threshold * (7 # 10)) overall_score then
    match recommendations st with
    | _ :: _ => ("PENDING_HUMAN_REVIEW", false, MarginalScore overall_score)
    | [] =>
        (if string_in "RECYCLE" decision_options then "RECYCLE" else "HOLD",
         false, ScoreBelowThreshold overall_score pass_threshold)
    end
  else
    (if string_in "KILL" decision_options then "KILL" else "REJECT",
     false, InsufficientScore overall_score).

(** [BusinessRulesEngine._log_gate_evaluation] on an open connection *)
Definition _log_gate_evaluation (db : database) (execution_id gate_id : string)
    (rule_results : list RuleEvaluationResult.t) (decision : string)
    (score : Q) (reason : gate_reason) : database :=
  let rows :=
    map (fun result =>
           {| ge_execution_id := execution_id;
              ge_gate_node_id := gate_id;
              ge_rule_id := RuleEvaluationResult.rule_id result;
              ge_status := decision;
              ge_evaluation_result := RuleEvaluationResult.passed result;
              ge_score := RuleEvaluationResult.score result;
              ge_reason := RuleEvaluationResult.reason result;
              ge_context_snapshot :=
                RuleEvaluationResult.evaluation_details result |})
        rule_results in
  let db1 := with_gate_evaluations db (gate_evaluations db ++ rows)%list in
  with_audit_log db1
    (audit_log db1
       ++ [{| al_execution_id := execution_id;
              al_event_type := "gate_evaluation";
              al_event_data :=
                GateEvaluationEvent gate_id decision score reason
                  (List.length rule_results)
                  (List.length
                     (filter RuleEvaluationResult.passed rule_results));
              al_actor := "BRE" |}])%list.

(** [if execution_id:] *)
Definition given (execution_id : option string) : option string :=
  match execution_id with
  | Some e => if String.eqb e EmptyString then None else Some e
  | None => None
  end.

(** [BusinessRulesEngine.evaluate_gate] on an open connection: the value
    returned or the exception raised, and the tables afterwards. *)
Definition evaluate_gate_on (db : database) (gate_id : string)
    (context : pyval) (execution_id : option string)
  : res GateEvaluationResult.t * database :=
  match select_node db gate_id with
  | None => (Raise (ValueError "Gate not found: " (PStr gate_id)), db)
  | Some gate =>
      match Node.config gate with
      | None => (Raise TypeError, db)
      | Some gate_config =>
          match select_rules db gate_id with
          | [] =>
              (Ok {| GateEvaluationResult.gate_id := gate_id;
                     GateEvaluationResult.gate_name := Node.name gate;
                     GateEvaluationResult.decision := "GO";
                     GateEvaluationResult.overall_score := 100;
                     GateEvaluationResult.passed := true;
                     GateEvaluationResult.rule_results := [];
                     GateEvaluationResult.reason := NoRulesConfigured;
                     GateEvaluationResult.recommendations := [] |}, db)
          | rules =>
              match gate_loop gate_id (Node.name gate) context rules
                      initial_state with
              | inl killed => (Ok killed, db)
              | inr st =>
                  let overall_score := overall_score_of st in
                  let '(decision, passed, reason) := decide gate_config st in
                  let db' :=
                    match given execution_id with
                    | Some e =>
                        _log_gate_evaluation db e gate_id (rule_results st)
                          decision overall_score reason
                    | None => db
                    end in
                  (Ok {| GateEvaluationResult.gate_id := gate_id;
                         GateEvaluationResult.gate_name := Node.name gate;
                         GateEvaluationResult.decision := decision;
                         GateEvaluationResult.overall_score := overall_score;
                         GateEvaluationResult.passed := passed;
                         GateEvaluationResult.rule_results := rule_results st;
                         GateEvaluationResult.reason := reason;
                         GateEvaluationResult.recommendations :=
                           recommendations st |}, db')
              end
          end
      end
  end.

(** [BusinessRulesEngine.evaluate_gate]; [conn] is [self.conn]. *)
Definition evaluate_gate (conn : option database) (gate_id : string)
    (context : pyval) (execution_id : option string)
  : res GateEvaluationResult.t * option database :=
  match conn with
  | None =>
      (Raise (ValueError "Database connection required for gate evaluation" PNone),
       None)
  | Some db =>
      let '(r, db') := evaluate_gate_on db gate_id context execution_id in
      (r, Some db')
  end.

End Engine.

End QualityGateBRE.

(* ================================================================== *)
(** ** agentic-flow-builder/scripts/flow_orchestrator.py *)
(* ================================================================== *)

Module AgenticOrchestrator.
Import Py.

(** [database.NodeStatus] *)
Inductive NodeStatus : Type :=
| PENDING | IN_PROGRESS | COMPLETED | FAILED | BLOCKED | SKIPPED.

Definition status_eqb (a b : NodeStatus) : bool :=
  match a, b with
  | PENDING, PENDING | IN_PROGRESS, IN_PROGRESS | COMPLETED, COMPLETED
  | FAILED, FAILED | BLOCKED, BLOCKED | SKIPPED, SKIPPED => true
  | _, _ => false
  end.

(** [NodeExecutionResult] *)
Inductive NodeExecutionResult : Type := Build_NodeExecutionResult {
  node_id : string;
  status : NodeStatus;
  output_data : pyval;
  error : option string;
  child_results : option (list NodeExecutionResult)
}.

Module Node.
(** the columns of a [nodes] row that the patterns read *)
Record row : Type := { node_id : string; name : string }.
End Node.

(** [d.get(k, default)] *)
Definition py_get_default (d : pyval) (k : string) (default : pyval) : res pyval :=
  match d with
  | PDict e => Ok (match dict_get k e with Some v => v | None => default end)
  | _ => Raise AttributeError
  end.

(** the number of rounds of [for i in range(v)] *)
Definition py_range (v : pyval) : res nat :=
  match v with
  | PInt z => Ok (Z.to_nat z)
  | PBool b => Ok (if b then 1 else 0)%nat
  | _ => Raise TypeError
  end.

(** The workflow patterns call back into [execute_node] and read the child
    rows from the database; both are taken as given here, over any store. *)
Section Patterns.
Context {St : Type}.
Context (get_child_nodes : string -> St -> list Node.row).
Context (execute_node : string -> string -> pyval -> M St NodeExecutionResult).

(** the loop of [_execute_prompt_chaining]:
    [(current_data, results)] when it ends *)
Fixpoint chain (execution_id : string) (children : list Node.row)
    (current_data : pyval) (results : list NodeExecutionResult)
  : M St (pyval * list NodeExecutionResult) :=
  match children with
  | [] => ret (current_data, results)
  | child :: rest =>
      result <~ execute_node execution_id (Node.node_id child) current_data ;;
      let results := (results ++ [result])%list in
      if negb (status_eqb (status result) COMPLETED)
      then ret (current_data, results)
      else chain execution_id rest (output_data result) results
  end.

(** [FlowOrchestrator._execute_prompt_chaining] *)
Definition _execute_prompt_chaining (execution_id node_id : string)
    (input_data : pyval) : M St NodeExecutionResult :=
  children <~ gets (get_child_nodes node_id) ;;
  cr <~ chain execution_id children input_data [] ;;
  ret {| node_id := node_id;
         status := COMPLETED;
         output_data := fst cr;
         error := None;
         child_results := Some (snd cr) |}.

(** [asyncio.gather] over the tasks with [return_exceptions=True]: every task runs,
    in the order of creation, and an exception becomes its result. *)
Fixpoint gather {A} (tasks : list (M St A)) (st : St) : list (res A) * St :=
  match tasks with
  | [] => ([], st)
  | task :: rest =>
      let '(r, st1) := task st in
      let '(rs, st2) := gather rest st1 in
      (r :: rs, st2)
  end.

(** [[r for r in results if isinstance(r, NodeExecutionResult)
    and r.status == NodeStatus.COMPLETED]] *)
Fixpoint successful (results : list (res NodeExecutionResult))
  : list NodeExecutionResult :=
  match results with
  | [] => []
  | Ok r :: rest =>
      if status_eqb (status r) COMPLETED then r :: successful rest
      else successful rest
  | Raise _ :: rest => successful rest
  end.

(** [FlowOrchestrator._execute_parallelization] *)
Definition _execute_parallelization (execution_id node_id : string)
    (input_data : pyval) : M St NodeExecutionResult :=
  children <~ gets (get_child_nodes node_id) ;;
  let tasks :=
    map (fun child => execute_node execution_id (Node.node_id child) input_data)
        children in
  results <~ (fun st => let '(rs, st') := gather tasks st in (Ok rs, st')) ;;
  let successful_results := successful results in
  ret {| node_id := node_id;
         status := match successful_results with
                   | [] => FAILED
                   | _ => COMPLETED
                   end;
         output_data :=
           PDict [("parallel_results", PList (map output_data successful_results));
                  ("success_count",
                   PInt (Z.of_nat (List.length successful_results)));
                  ("total_count", PInt (Z.of_nat (List.length results)))];
         error := None;
         child_results := Some successful_results |}.

(** [if score > best_score: best_score = score; best_result = ...] *)
Definition track_best (score generation : pyval) (best : pyval * pyval)
  : res (pyval * pyval) :=
  better <- py_order OpGt score (snd best) ;;
  Ok (if better then (generation, score) else best).

(** the loop of [_execute_evaluator_optimizer], [n] rounds left, [i] done:
    [(best_result, best_score, iterations)] when it ends *)
Fixpoint optimize (n : nat) (i : Z) (execution_id : string)
    (generator evaluator : Node.row) (input_data threshold : pyval)
    (best : pyval * pyval) (iterations : list pyval)
  : M St (pyval * pyval * list pyval) :=
  match n with
  | O => ret (best, iterations)
  | S n' =>
      gen_result <~ execute_node execution_id (Node.node_id generator) input_data ;;
      eval_result <~ execute_node execution_id (Node.node_id evaluator)
                       (output_data gen_result) ;;
      score <~ lift (py_get_default (output_data eval_result) "score" (PInt 0)) ;;
      let iterations :=
        (iterations
           ++ [PDict [("iteration", PInt (i + 1));
                      ("generation", output_data gen_result);
                      ("evaluation", output_data eval_result);
                      ("score", score)]])%list in
      best <~ lift (track_best score (output_data gen_result) best) ;;
      met <~ lift (py_order OpGe score threshold) ;;
      if met then ret (best, iterations)
      else optimize n' (i + 1)%Z execution_id generator evaluator input_data
             threshold best iterations
  end.

(** [FlowOrchestrator._execute_evaluator_optimizer] *)
Definition _execute_evaluator_optimizer (execution_id node_id : string)
    (input_data config : pyval) : M St NodeExecutionResult :=
  children <~ gets (get_child_nodes node_id) ;;
  match children with
  | generator :: evaluator :: _ =>
      max_iterations <~ lift (py_get_default config "max_iterations" (PInt 3)) ;;
      threshold <~ lift (py_get_default config "quality_threshold"
                           (PFloat (8 # 10))) ;;
      rounds <~ lift (py_range max_iterations) ;;
      r <~ optimize rounds 0 execution_id generator evaluator input_data
             threshold (PNone, PInt 0) [] ;;
      let '(best_result, best_score, iterations) := r in
      ret {| node_id := node_id;
             status := COMPLETED;
             output_data :=
               PDict [("best_result", best_result);
                      ("best_score", best_score);
                      ("iterations", PList iterations);
                      ("total_iterations",
                       PInt (Z.of_nat (List.length iterations)))];
             error := None;
             child_results := None |}
  | _ =>
      ret {| node_id := node_id;
             status := FAILED;
             output_data := PDict [];
             error := Some "Evaluator-optimizer requires generator and evaluator nodes";
             child_results := None |}
  end.

End Patterns.

(** [input_data.copy()] *)
Definition py_copy (v : pyval) : res pyval :=
  match v with
  | PDict _ | PList _ => Ok v
  | _ => Raise AttributeError
  end.

(** [for mem in working_memory: context[mem['key']] = json.loads(mem['value'])] *)
Fixpoint merge_memory (working_memory : list (string * pyval)) (context : pyval)
  : res pyval :=
  match working_memory with
  | [] => Ok context
  | (key, value) :: rest =>
      context <- AgenticBRE.py_setitem context key value ;;
      merge_memory rest context
  end.

(** The handlers of the root, gate, routing and orchestrator-workers nodes:
    they call back into [execute_node] and read the database through the
    functions of [FlowDatabase], all taken as given over any store. *)
Section Walk.
Context {St : Type} (rt : runtime).
Context (get_child_nodes : string -> St -> list Node.row).
Context (execute_node : string -> string -> pyval -> M St NodeExecutionResult).
(* self.bre.database is not None *)
Context (attached : bool).
Context (get_rules_for_flow : string -> string -> St -> list (list (string * pyval))).
Context (record_gate_evaluation
         : string -> string -> pyval -> AgenticBRE.RuleEvaluation -> St -> St).
(* self.db.get_node(node_id)['flow_id'] *)
Context (get_flow_id : string -> St -> res string).
(* self.db.retrieve_working_memory(execution_id): the keys with the parsed
   values *)
Context (retrieve_working_memory : string -> St -> list (string * pyval)).
(* the list of rule_id, status and reason under the key evaluations *)
Context (describe : list AgenticBRE.RuleEvaluation -> pyval).

(** [for child in children: results.append(await self.execute_node(...))] *)
Fixpoint run_children (execution_id : string) (children : list Node.row)
    (input_data : pyval) (results : list NodeExecutionResult)
  : M St (list NodeExecutionResult) :=
  match children with
  | [] => ret results
  | child :: rest =>
      result <~ execute_node execution_id (Node.node_id child) input_data ;;
      run_children execution_id rest input_data (results ++ [result])%list
  end.

(** [FlowOrchestrator._execute_children] *)
Definition _execute_children (execution_id parent_id : string)
    (input_data : pyval) : M St NodeExecutionResult :=
  children <~ gets (get_child_nodes parent_id) ;;
  results <~ run_children execution_id children input_data [] ;;
  ret {| node_id := parent_id;
         status := COMPLETED;
         output_data :=
           PDict [("child_count", PInt (Z.of_nat (List.length results)))];
         error := None;
         child_results := Some results |}.

(** [for assignment in task_assignments: ...] of
    [_execute_orchestrator_workers] *)
Fixpoint run_assignments (execution_id : string) (workers : list Node.row)
    (task_assignments : list pyval) (worker_results : list NodeExecutionResult)
  : M St (list NodeExecutionResult) :=
  match task_assignments with
  | [] => ret worker_results
  | assignment :: rest =>
      worker_name <~ lift (py_getitem assignment "worker") ;;
      worker_input <~ lift (py_getitem assignment "input") ;;
      match find (fun worker => py_eq (PStr (Node.name worker)) worker_name)
              workers with
      | Some worker =>
          result <~ execute_node execution_id (Node.node_id worker)
                      worker_input ;;
          run_assignments execution_id workers rest
            (worker_results ++ [result])%list
      | None => run_assignments execution_id workers rest worker_results
      end
  end.

(** [FlowOrchestrator._execute_orchestrator_workers] *)
Definition _execute_orchestrator_workers (execution_id node_id : string)
    (input_data : pyval) : M St NodeExecutionResult :=
  children <~ gets (get_child_nodes node_id) ;;
  match children with
  | [] =>
      ret {| node_id := node_id;
             status := FAILED;
             output_data := PDict [];
             error := Some "No orchestrator node found";
             child_results := None |}
  | orchestrator :: workers =>
      orchestrator_result <~ execute_node execution_id
                               (Node.node_id orchestrator) input_data ;;
      assigned <~ lift (py_get_default (output_data orchestrator_result)
                          "task_assignments" (PList [])) ;;
      task_assignments <~ lift (py_iter assigned) ;;
      worker_results <~ run_assignments execution_id workers
                          task_assignments [] ;;
      ret {| node_id := node_id;
             status := COMPLETED;
             output_data :=
               PDict [("orchestration", output_data orchestrator_result);
                      ("worker_results",
                       PList (map output_data worker_results))];
             error := None;
             child_results := Some (orchestrator_result :: worker_results) |}
  end.

(** [for rule in routing_rules: ...] of [_execute_routing]: the child
    selected *)
Fixpoint select_route (execution_id node_id : string)
    (routing_rules : list (list (string * pyval))) (input_data : pyval)
  : M St (option Node.row) :=
  match routing_rules with
  | [] => ret None
  | rule :: rest =>
      evaluation <~ AgenticBRE.evaluate_rule_on rt attached
                      record_gate_evaluation (PDict rule) input_data
                      (Some execution_id) (Some node_id) ;;
      if AgenticBRE.is_pass evaluation then
        action <~ lift (py_getitem (PDict rule) "action") ;;
        child_name <~ lift (py_get action "route_to") ;;
        children <~ gets (get_child_nodes node_id) ;;
        ret (find (fun child => py_eq (PStr (Node.name child)) child_name)
               children)
      else select_route execution_id node_id rest input_data
  end.

(** [FlowOrchestrator._execute_routing] *)
Definition _execute_routing (execution_id node_id : string)
    (input_data config : pyval) : M St NodeExecutionResult :=
  flow_id <~ (fun st => (get_flow_id node_id st, st)) ;;
  routing_rules <~ gets (get_rules_for_flow flow_id "routing") ;;
  selected_child <~ select_route execution_id node_id routing_rules input_data ;;
  match selected_child with
  | Some child =>
      result <~ execute_node execution_id (Node.node_id child) input_data ;;
      ret {| node_id := node_id;
             status := COMPLETED;
             output_data :=
               PDict [("routed_to", PStr (Node.name child));
                      ("result", output_data result)];
             error := None;
             child_results := Some [result] |}
  | None =>
      ret {| node_id := node_id;
             status := FAILED;
             output_data := PDict [];
             error := Some "No routing rule matched";
             child_results := None |}
  end.

(** [FlowOrchestrator._execute_gate_node]; [flow_id] is [node['flow_id']] *)
Definition _execute_gate_node (execution_id node_id flow_id : string)
    (input_data config : pyval) : M St NodeExecutionResult :=
  working_memory <~ gets (retrieve_working_memory execution_id) ;;
  context <~ lift (context <- py_copy input_data ;;
                   merge_memory working_memory context) ;;
  verdict <~ AgenticBRE.evaluate_gate rt attached get_rules_for_flow
               record_gate_evaluation flow_id node_id context
               (Some execution_id) ;;
  let '(passed, evaluations) := verdict in
  if passed then
    children <~ _execute_children execution_id node_id input_data ;;
    match child_results children with
    | Some results =>
        ret {| node_id := node_id;
               status := COMPLETED;
               output_data :=
                 PDict [("gate_passed", PBool true);
                        ("evaluations", describe evaluations);
                        ("child_results", PList (map output_data results))];
               error := None;
               child_results := Some results |}
    | None => raise TypeError
    end
  else
    ret {| node_id := node_id;
           status := SKIPPED;
           output_data :=
             PDict [("gate_passed", PBool false);
                    ("evaluations", describe evaluations)];
           error := None;
           child_results := None |}.

End Walk.

End AgenticOrchestrator.

(* ================================================================== *)
(** ** prd-quality-gate-flow/flow_orchestrator.py *)
(* ================================================================== *)

Module QualityGateOrchestrator.
Import Py.
Import QualityGateBRE.

(** [FlowOrchestrator._get_child_nodes]; [created_at] grows with the
    position in the table. *)
Definition _get_child_nodes (parent_id : string) (db : database) : list Node.row :=
  filter (fun n => match Node.parent_id n with
                   | Some p => String.eqb p parent_id
                   | None => false
                   end)
         (nodes db).

(** [FlowOrchestrator._get_working_memory]; no row carries an expiry
    date, since [_set_working_memory] is never called with one. *)
Definition _get_working_memory (execution_id : string) (db : database)
  : list (string * pyval) :=
  fold_left (fun acc row =>
               let '(memory_key, eid, value) := row in
               if String.eqb eid execution_id
               then dict_set memory_key value acc
               else acc)
            (working_memory db) [].

(** [FlowOrchestrator._set_working_memory]: [INSERT OR REPLACE] on the
    primary key [(memory_key, execution_id)] *)
Definition _set_working_memory (execution_id key : string) (value : pyval)
    (db : database) : database :=
  with_working_memory db
    (filter (fun row =>
               let '(memory_key, eid, _) := row in
               negb (String.eqb memory_key key && String.eqb eid execution_id))
            (working_memory db)
       ++ [(key, execution_id, value)])%list.

Definition str_list (l : list string) : pyval := PList (map PStr l).

(** [FlowOrchestrator._simulate_agent_output] *)
Definition _simulate_agent_output (agent_type : option string)
    (input_data : list (string * pyval)) : list (string * pyval) :=
  let is_type t := match agent_type with Some a => String.eqb a t | None => false end in
  if is_type "prd-creator" then
    [("prd_document",
      PDict [("problem_statement",
              PStr "A comprehensive problem statement describing the user need and market opportunity in detail.");
             ("target_users", str_list ["Product Managers"; "Engineers"; "Executives"]);
             ("success_metrics",
              PList [PDict [("name", PStr "User Adoption");
                            ("target", PStr "500 users in 3 months")];
                     PDict [("name", PStr "Feature Usage");
                            ("target", PStr "60% weekly active")];
                     PDict [("name", PStr "NPS Score"); ("target", PStr ">40")]]);
             ("technical_requirements",
              PDict [("platform", PStr "Web");
                     ("stack", str_list ["Python"; "React"; "PostgreSQL"]);
                     ("apis", str_list ["REST"; "WebSocket"])]);
             ("dependencies",
              PDict [("internal", str_list ["auth_service"; "notification_service"]);
                     ("external", str_list ["stripe"; "sendgrid"])]);
             ("timeline",
              PDict [("estimated_weeks", PInt 10);
                     ("milestones", str_list ["Design: 2w"; "Dev: 6w"; "Testing: 2w"])]);
             ("strategic_alignment_score", PInt 8);
             ("roi_projection", PInt 150000);
             ("target_market_size", PInt 5000)]);
     ("success_metrics", str_list ["User Adoption"; "Feature Usage"; "NPS Score"]);
     ("dependencies",
      str_list ["auth_service"; "notification_service"; "stripe"; "sendgrid"])]
  else if is_type "technical-reviewer" then
    [("technical_review",
      PDict [("feasibility", PStr "MEDIUM");
             ("complexity_score", PInt 6);
             ("effort_weeks", PInt 10);
             ("risk_matrix",
              PList [PDict [("risk", PStr "Integration complexity");
                            ("severity", PStr "Medium");
                            ("mitigation", PStr "POC first")];
                     PDict [("risk", PStr "Scalability");
                            ("severity", PStr "Low");
                            ("mitigation", PStr "Load testing")]])]);
     ("feasibility_score", PInt 75);
     ("risk_matrix", PList [])]
  else if is_type "implementation-planner" then
    [("implementation_plan",
      PDict [("epics", str_list ["User Authentication"; "Core Features"; "Analytics"]);
             ("timeline_feasible", PBool true);
             ("blocking_dependencies", PList [])]);
     ("resource_requirements",
      PDict [("team_capacity_available", PBool true);
             ("budget_required", PBool false);
             ("budget_approved", PBool true)])]
  else if is_type "prd-evaluator" then
    [("evaluation_results",
      PDict [("success_score", PInt 85);
             ("performance_score", PInt 80);
             ("metrics_achieved", PInt 3);
             ("user_feedback_positive", PBool true)]);
     ("success_score", PInt 85);
     ("implementation_results", PDict [("critical_defects_count", PInt 0)])]
  else
    [("status", PStr "completed");
     ("agent_type", match agent_type with Some a => PStr a | None => PNone end)].

(** the [INSERT INTO node_executions] of [_execute_node]; the key of the
    new row is its position *)
Definition insert_node_execution (execution_id node_id : string)
  : M database nat :=
  fun db =>
    (Ok (List.length (node_executions db)),
     with_node_executions db
       (node_executions db
          ++ [{| ne_execution_id := execution_id; ne_node_id := node_id;
                 ne_status := "running"; ne_output_data := None |}])%list).

Fixpoint update_nth {A} (n : nat) (f : A -> A) (l : list A) : list A :=
  match l, n with
  | [], _ => []
  | x :: l', O => f x :: l'
  | x :: l', S n' => x :: update_nth n' f l'
  end.

(** [UPDATE node_executions SET status = ?, output_data = ? WHERE
    node_exec_id = ?] *)
Definition complete_node_execution (node_exec_id : nat) (output : pyval)
  : M database unit :=
  modify (fun db =>
    with_node_executions db
      (update_nth node_exec_id
         (fun r => {| ne_execution_id := ne_execution_id r;
                      ne_node_id := ne_node_id r;
                      ne_status := "completed";
                      ne_output_data := Some output |})
         (node_executions db))).

(** [UPDATE node_executions SET status = ? WHERE node_exec_id = ?] *)
Definition fail_node_execution (node_exec_id : nat) : M database unit :=
  modify (fun db =>
    with_node_executions db
      (update_nth node_exec_id
         (fun r => {| ne_execution_id := ne_execution_id r;
                      ne_node_id := ne_node_id r;
                      ne_status := "failed";
                      ne_output_data := ne_output_data r |})
         (node_executions db))).

(** The two loops of [_execute_control_flow_node] over the children; they
    only call [_execute_node], here [self_execute], whatever the store. *)
Section Loops.
Context {St : Type}.
Context (self_execute : string -> string -> M St pyval).

(** [for child in children: result = await self._execute_node(...)] *)
Fixpoint run_in_order (execution_id : string) (children : list Node.row)
    (result : pyval) : M St pyval :=
  match children with
  | [] => ret result
  | child :: rest =>
      result <~ self_execute (Node.node_id child) execution_id ;;
      run_in_order execution_id rest result
  end.

(** [for child in children: results.append(await ...)] *)
Fixpoint collect_in_order (execution_id : string) (children : list Node.row)
    (results : list pyval) : M St (list pyval) :=
  match children with
  | [] => ret results
  | child :: rest =>
      result <~ self_execute (Node.node_id child) execution_id ;;
      collect_in_order execution_id rest (results ++ [result])%list
  end.
End Loops.

Section Orchestrator.
Context (rt : runtime).

(** The handlers call back into [_execute_node], which is [self_execute]
    here. *)
Section Handlers.
Context (self_execute : string -> string -> M database pyval).

(** [FlowOrchestrator._execute_root_node] *)
Definition _execute_root_node (node : Node.row) (execution_id : string)
    (config : node_config) : M database pyval :=
  children <~ gets (_get_child_nodes (Node.node_id node)) ;;
  match children with
  | [] => ret (PDict [("status", PStr "no_children")])
  | first :: _ => self_execute (Node.node_id first) execution_id
  end.

(** [for key in output_keys: if key in output: ...] *)
Fixpoint store_outputs (execution_id : string) (output_keys : list string)
    (output : list (string * pyval)) (db : database) : database :=
  match output_keys with
  | [] => db
  | key :: rest =>
      store_outputs execution_id rest output
        (match dict_get key output with
         | Some v => _set_working_memory execution_id key v db
         | None => db
         end)
  end.

(** [{key: working_memory.get(key) for key in input_keys
    if key in working_memory}] *)
Fixpoint select_inputs (input_keys : list string)
    (working_memory acc : list (string * pyval)) : list (string * pyval) :=
  match input_keys with
  | [] => acc
  | key :: rest =>
      select_inputs rest working_memory
        (match dict_get key working_memory with
         | Some v => dict_set key v acc
         | None => acc
         end)
  end.

(** [FlowOrchestrator._execute_agent_node] *)
Definition _execute_agent_node (node : Node.row) (execution_id : string)
    (config : node_config) : M database pyval :=
  working_memory <~ gets (_get_working_memory execution_id) ;;
  let input_keys :=
    match working_memory_input config with Some l => l | None => [] end in
  let input_data := select_inputs input_keys working_memory [] in
  let output := _simulate_agent_output (agent_type config) input_data in
  let output_keys :=
    match working_memory_output config with Some l => l | None => [] end in
  _ <~ modify (store_outputs execution_id output_keys output) ;;
  children <~ gets (_get_child_nodes (Node.node_id node)) ;;
  match children with
  | first :: _ => self_execute (Node.node_id first) execution_id
  | [] => ret (PDict output)
  end.

(** [FlowOrchestrator._execute_gate_node]; the engine shares the
    connection of the orchestrator. *)
Definition _execute_gate_node (node : Node.row) (execution_id : string)
    (config : node_config) : M database pyval :=
  let gate_number :=
    match gate_number config with Some n => n | None => PStr "?" end in
  context <~ gets (_get_working_memory execution_id) ;;
  result <~ (fun db => evaluate_gate_on rt db (Node.node_id node)
                         (PDict context) (Some execution_id)) ;;
  let decision := GateEvaluationResult.decision result in
  if string_in decision ["GO"; "PASS"; "APPROVE"; "RELEASE"] then
    children <~ gets (_get_child_nodes (Node.node_id node)) ;;
    match children with
    | first :: _ => self_execute (Node.node_id first) execution_id
    | [] => ret (PDict [("gate_passed", PBool true);
                        ("decision", PStr decision)])
    end
  else if String.eqb decision "RECYCLE" then
    match recycle_target config with
    | Some target =>
        if truthy target
        then ret (PDict [("gate_passed", PBool false);
                         ("decision", PStr decision);
                         ("recycle_to", target)])
        else ret PNone
    | None => ret PNone
    end
  else if string_in decision ["HOLD"; "QUEUE"] then
    ret (PDict [("gate_passed", PBool false); ("decision", PStr decision)])
  else if string_in decision ["KILL"; "REJECT"] then
    raise (GateRejected gate_number (GateEvaluationResult.reason result))
  else if String.eqb decision "PENDING_HUMAN_REVIEW" then
    ret (PDict [("gate_passed", PBool false);
                ("decision", PStr decision);
                ("pending_review", PBool true)])
  else raise (ValueError "Unknown gate decision: " (PStr decision)).

(** [FlowOrchestrator._execute_control_flow_node] *)
Definition _execute_control_flow_node (node : Node.row)
    (execution_id : string) (config : node_config) : M database pyval :=
  let pattern :=
    match pattern config with Some p => p | None => "prompt_chaining" end in
  children <~ gets (_get_child_nodes (Node.node_id node)) ;;
  if String.eqb pattern "prompt_chaining" then
    run_in_order self_execute execution_id children (PDict [])
  else if String.eqb pattern "parallelization" then
    results <~ collect_in_order self_execute execution_id children [] ;;
    ret (PDict [("parallel_results", PList results)])
  else if String.eqb pattern "orchestrator_workers" then
    match children with
    | [] => ret (PDict [])
    | first :: workers =>
        orchestrator_result <~ self_execute (Node.node_id first) execution_id ;;
        worker_results <~ collect_in_order self_execute execution_id workers [] ;;
        ret (PDict [("orchestrator", orchestrator_result);
                    ("workers", PList worker_results)])
    end
  else raise (ValueError "Unknown control flow pattern: " (PStr pattern)).

(** The body of [FlowOrchestrator._execute_node]. *)
Definition execute_node_body (node_id execution_id : string)
  : M database pyval :=
  found <~ gets (fun db => select_node db node_id) ;;
  match found with
  | None => raise (ValueError "Node not found: " (PStr node_id))
  | Some node =>
      let node_config :=
        match Node.config node with Some c => c | None => empty_config end in
      let node_type := Node.node_type node in
      node_exec_id <~ insert_node_execution execution_id node_id ;;
      try_with
        (output <~
           (if String.eqb node_type "root" then
              _execute_root_node node execution_id node_config
            else if String.eqb node_type "agent" then
              _execute_agent_node node execution_id node_config
            else if String.eqb node_type "gate" then
              _execute_gate_node node execution_id node_config
            else if String.eqb node_type "control_flow" then
              _execute_control_flow_node node execution_id node_config
            else raise (ValueError "Unknown node type: " (PStr node_type))) ;;
         _ <~ complete_node_execution node_exec_id output ;;
         ret output)
        (fun e =>
           _ <~ fail_node_execution node_exec_id ;;
           raise e)
  end.

End Handlers.

(** [FlowOrchestrator._execute_node]; [depth] is the number of nested
    calls the interpreter still allows before [RecursionError]. *)
Fixpoint _execute_node (depth : nat) (node_id execution_id : string)
  : M database pyval :=
  match depth with
  | O => raise RecursionError
  | S depth' => execute_node_body (_execute_node depth') node_id execution_id
  end.

End Orchestrator.

Definition with_executions (db : database) (l : list execution_row) :=
  {| nodes := nodes db; business_rules := business_rules db;
     gate_evaluations := gate_evaluations db; audit_log := audit_log db;
     node_executions := node_executions db;
     working_memory := working_memory db; executions := l |}.

(** [UPDATE executions SET ... WHERE execution_id = ?] *)
Definition update_execution (execution_id : string)
    (f : execution_row -> execution_row) : M database unit :=
  modify (fun db =>
    with_executions db
      (map (fun row =>
              if String.eqb (ex_execution_id row) execution_id then f row
              else row)
           (executions db))).

(** [FlowOrchestrator._log_audit_event] with the default actor *)
Definition _log_audit_event (execution_id event_type : string)
    (event_data : pyval) : M database unit :=
  modify (fun db =>
    with_audit_log db
      (audit_log db
         ++ [{| al_execution_id := execution_id;
                al_event_type := event_type;
                al_event_data := OtherEvent event_data;
                al_actor := "system" |}])%list).

(** [FlowOrchestrator._init_working_memory] *)
Definition _init_working_memory (execution_id : string) (initial_data : pyval)
  : M database unit :=
  match initial_data with
  | PDict d =>
      modify (fun db =>
        fold_left (fun db kv =>
                     _set_working_memory execution_id (fst kv) (snd kv) db)
                  d db)
  | _ => raise AttributeError
  end.

Section Flow.
Context (rt : runtime).
(* str(e) *)
Context (exn_text : exn -> string).
(* the number of nested calls that the interpreter allows *)
Context (depth : nat).
(* datetime.now().strftime('%Y%m%d_%H%M%S') *)
Context (now : string).

(** [SELECT * FROM nodes WHERE flow_id = ? AND node_type = 'root' LIMIT 1] *)
Definition select_root (flow_id : string) (db : database) : option Node.row :=
  find (fun n => String.eqb (Node.flow_id n) flow_id
                 && String.eqb (Node.node_type n) "root")
       (nodes db).

(** the execution id that [execute_flow] works with *)
Definition execution_id_of (execution_id : option string) : string :=
  match given execution_id with
  | Some e => e
  | None => "exec_" ++ now
  end.

(** [FlowOrchestrator.execute_flow].  The first [INSERT] is refused with
    [sqlite3.IntegrityError] when the execution id is taken: this is
    [None], and nothing has been written then. *)
Definition execute_flow (flow_id : string) (initial_context : pyval)
    (execution_id : option string) (db : database)
  : option (res string * database) :=
  let execution_id := execution_id_of execution_id in
  if existsb (fun row => String.eqb (ex_execution_id row) execution_id)
       (executions db)
  then None
  else
    Some
      ((_ <~ modify (fun db =>
               with_executions db
                 (executions db
                    ++ [{| ex_execution_id := execution_id;
                           ex_flow_id := flow_id;
                           ex_status := "running";
                           ex_input_context := initial_context;
                           ex_output_result := None;
                           ex_error_message := None |}])%list) ;;
        _ <~ _init_working_memory execution_id initial_context ;;
        keys <~ lift (match initial_context with
                      | PDict d => Ok (map PStr (dict_keys d))
                      | _ => Raise AttributeError
                      end) ;;
        _ <~ _log_audit_event execution_id "execution_started"
               (PDict [("flow_id", PStr flow_id);
                       ("initial_context_keys", PList keys)]) ;;
        try_with
          (root_node <~ gets (select_root flow_id) ;;
           match root_node with
           | None =>
               raise (ValueError "No root node found for flow " (PStr flow_id))
           | Some root_node =>
               _ <~ _execute_node rt depth (Node.node_id root_node)
                      execution_id ;;
               final_result <~ gets (_get_working_memory execution_id) ;;
               _ <~ update_execution execution_id
                      (fun row =>
                         {| ex_execution_id := ex_execution_id row;
                            ex_flow_id := ex_flow_id row;
                            ex_status := "completed";
                            ex_input_context := ex_input_context row;
                            ex_output_result := Some (PDict final_result);
                            ex_error_message := ex_error_message row |}) ;;
               _ <~ _log_audit_event execution_id "execution_completed"
                      (PDict [("status", PStr "success")]) ;;
               ret execution_id
           end)
          (fun e =>
             _ <~ update_execution execution_id
                    (fun row =>
                       {| ex_execution_id := ex_execution_id row;
                          ex_flow_id := ex_flow_id row;
                          ex_status := "failed";
                          ex_input_context := ex_input_context row;
                          ex_output_result := ex_output_result row;
                          ex_error_message := Some e |}) ;;
             _ <~ _log_audit_event execution_id "execution_failed"
                    (PDict [("error", PStr (exn_text e))]) ;;
             raise e)) db).

End Flow.

End QualityGateOrchestrator.

(* ================================================================== *)
(** ** Notions used to state the properties *)
(* ================================================================== *)

Module Notions.
Import Py.
Import QualityGateBRE.

Fixpoint sumQ (l : list Q) : Q :=
  match l with
  | [] => 0
  | x :: l' => x + sumQ l'
  end.

Section Scoring.
Context (rt : runtime) (context : pyval).

Definition result_of (rule : rule_row) : RuleEvaluationResult.t :=
  evaluate_rule rt rule context.

(** the rule fails: its result is not a pass *)
Definition fails (rule : rule_row) : bool :=
  negb (RuleEvaluationResult.passed (result_of rule)).

(** the rule fails and is flagged [auto_kill_if_fail] *)
Definition kills (rule : rule_row) : bool :=
  fails rule && auto_kill_if_fail (metadata_of rule).

(** the rule fails and is flagged [critical] *)
Definition fails_critically (rule : rule_row) : bool :=
  fails rule && critical (metadata_of rule).

(** the rule fails and is flagged [requires_human_if_fail] *)
Definition asks_human (rule : rule_row) : bool :=
  fails rule && requires_human_if_fail (metadata_of rule).

(** the sum of the weights of the rules *)
Definition sum_weights (rules : list rule_row) : Q :=
  sumQ (map (fun rule => weight_of (metadata_of rule)) rules).

(** the sum of weight times score over the rules *)
Definition sum_weighted_scores (rules : list rule_row) : Q :=
  sumQ (map (fun rule =>
               weight_of (metadata_of rule)
               * RuleEvaluationResult.score (result_of rule))
            rules).

(** the weighted average of the spec *)
Definition weighted_average (rules : list rule_row) : Q :=
  sum_weighted_scores rules / sum_weights rules.
End Scoring.

(** [b] does not come before [a] in descending priority *)
Definition by_priority_desc (a b : rule_row) : Prop :=
  (priority b <= priority a)%Z.

(** an enabled rule of the gate *)
Definition enabled_for (db : database) (gate_id : string) (r : rule_row) : Prop :=
  In r (business_rules db) /\ gate_node_id r = Some gate_id /\ enabled r = true.

Definition threshold_of (cfg : node_config) : Q :=
  match pass_threshold cfg with Some t => t | None => 80 end.

Definition options_of (cfg : node_config) : list string :=
  match decision_options cfg with Some o => o | None => ["GO"; "RECYCLE"] end.

Definition is_human (cfg : node_config) : bool :=
  match gate_type cfg with Some t => String.eqb t "human" | None => false end.

(** the three classes of decisions of the spec *)
Definition pass_class (cfg : node_config) : string :=
  if string_in "GO" (options_of cfg) then "GO" else "PASS".

Definition recycle_or_hold (cfg : node_config) : string :=
  if string_in "RECYCLE" (options_of cfg) then "RECYCLE" else "HOLD".

Definition kill_or_reject (cfg : node_config) : string :=
  if string_in "KILL" (options_of cfg) then "KILL" else "REJECT".

(** The store extended with the list of the calls of [execute_node] made
    so far: the node, the input it was given, and what came back. *)
Definition traced {St R : Type}
    (execute_node : string -> string -> pyval -> M St R)
  : string -> string -> pyval -> M (St * list (string * pyval * res R)) R :=
  fun execution_id node_id input_data s =>
    let '(r, st') := execute_node execution_id node_id input_data (fst s) in
    (r, (st', (snd s ++ [(node_id, input_data, r)])%list)).

(** The same for [_execute_node] of the quality-gate orchestrator, which is
    given a node and an execution only. *)
Definition traced2 {St R : Type}
    (execute_node : string -> string -> M St R)
  : string -> string -> M (St * list (string * string * res R)) R :=
  fun node_id execution_id s =>
    let '(r, st') := execute_node node_id execution_id (fst s) in
    (r, (st', (snd s ++ [(node_id, execution_id, r)])%list)).

(** reading the children from the store of a traced run *)
Definition on_store {St L A : Type} (f : string -> St -> A)
  : string -> St * L -> A :=
  fun node_id s => f node_id (fst s).

Definition completed (r : AgenticOrchestrator.NodeExecutionResult) : bool :=
  AgenticOrchestrator.status_eqb (AgenticOrchestrator.status r)
    AgenticOrchestrator.COMPLETED.

(** what came back from a child is a result with status COMPLETED *)
Definition completed_outcome (r : res AgenticOrchestrator.NodeExecutionResult)
  : bool :=
  match r with
  | Ok x => completed x
  | Raise _ => false
  end.

(** The calls of a chain over [children] started with [input]: the children
    are called in order, each with the output of the one before, and a call
    that does not come back completed is the last. *)
Inductive chain_calls
  : pyval -> list AgenticOrchestrator.Node.row
    -> list (string * pyval * res AgenticOrchestrator.NodeExecutionResult)
    -> Prop :=
| chain_done (input : pyval) : chain_calls input [] []
| chain_stop (input : pyval) (child : AgenticOrchestrator.Node.row)
    (rest : list AgenticOrchestrator.Node.row)
    (o : res AgenticOrchestrator.NodeExecutionResult) :
    completed_outcome o = false ->
    chain_calls input (child :: rest)
      [(AgenticOrchestrator.Node.node_id child, input, o)]
| chain_step (input : pyval) (child : AgenticOrchestrator.Node.row)
    (rest : list AgenticOrchestrator.Node.row)
    (r : AgenticOrchestrator.NodeExecutionResult)
    (calls : list (string * pyval * res AgenticOrchestrator.NodeExecutionResult)) :
    completed r = true ->
    chain_calls (AgenticOrchestrator.output_data r) rest calls ->
    chain_calls input (child :: rest)
      ((AgenticOrchestrator.Node.node_id child, input, Ok r) :: calls).

(** The calls of the quality-gate orchestrator over [children]: in order,
    and a call that raises is the last. *)
Inductive run_calls (execution_id : string)
  : list QualityGateBRE.Node.row -> list (string * string * res pyval) -> Prop :=
| run_done : run_calls execution_id [] []
| run_raise (child : QualityGateBRE.Node.row)
    (rest : list QualityGateBRE.Node.row) (e : exn) :
    run_calls execution_id (child :: rest)
      [(QualityGateBRE.Node.node_id child, execution_id, Raise e)]
| run_step (child : QualityGateBRE.Node.row)
    (rest : list QualityGateBRE.Node.row) (v : pyval)
    (calls : list (string * string * res pyval)) :
    run_calls execution_id rest calls ->
    run_calls execution_id (child :: rest)
      ((QualityGateBRE.Node.node_id child, execution_id, Ok v) :: calls).

(** the results of the calls that came back *)
Fixpoint returned {R : Type} (calls : list (string * pyval * res R)) : list R :=
  match calls with
  | [] => []
  | (_, _, Ok r) :: rest => r :: returned rest
  | (_, _, Raise _) :: rest => returned rest
  end.

(** the output of the last call that came back completed, or the input of
    the chain when there is none *)
Fixpoint last_output (input : pyval)
    (calls : list (string * pyval * res AgenticOrchestrator.NodeExecutionResult))
  : pyval :=
  match calls with
  | [] => input
  | (_, _, o) :: rest =>
      match o with
      | Ok r =>
          if completed r
          then last_output (AgenticOrchestrator.output_data r) rest
          else input
      | Raise _ => input
      end
  end.

(** the tasks that a parallelization node hands to [gather] *)
Definition tasks_of {St : Type}
    (execute_node : string -> string -> pyval
                    -> M St AgenticOrchestrator.NodeExecutionResult)
    (execution_id : string) (input_data : pyval)
    (children : list AgenticOrchestrator.Node.row) :=
  map (fun child =>
         execute_node execution_id (AgenticOrchestrator.Node.node_id child)
           input_data)
      children.

(** the evaluator reports the score 0, or none *)
Definition zero_score (output : pyval) : Prop :=
  exists v z,
    AgenticOrchestrator.py_get_default output "score" (PInt 0) = Ok v
    /\ as_number v = Some z /\ z == 0.

(** *** The grammar of rule conditions *)

Definition is_null_check (op : string) : Prop :=
  op = "IS NULL" \/ op = "IS NOT NULL".

(** The expressions of the agentic rule grammar, the keys being tried in
    the order AND, OR, NOT, field, and then the four leaves that carry
    their operator as a key. *)
Inductive well_formed : pyval -> Prop :=
| wf_and (d : list (string * pyval)) (l : list pyval) :
    dict_get "AND" d = Some (PList l) ->
    Forall well_formed l ->
    well_formed (PDict d)
| wf_or (d : list (string * pyval)) (l : list pyval) :
    dict_get "AND" d = None ->
    dict_get "OR" d = Some (PList l) ->
    Forall well_formed l ->
    well_formed (PDict d)
| wf_not (d : list (string * pyval)) (c : pyval) :
    dict_get "AND" d = None -> dict_get "OR" d = None ->
    dict_get "NOT" d = Some c ->
    well_formed c ->
    well_formed (PDict d)
| wf_null_check (d : list (string * pyval)) (op : string) :
    dict_get "AND" d = None -> dict_get "OR" d = None ->
    dict_get "NOT" d = None ->
    dict_has "field" d = true ->
    dict_get "operator" d = Some (PStr op) ->
    is_null_check op ->
    well_formed (PDict d)
| wf_comparison (d : list (string * pyval)) (op : string) (c : cmpop) :
    dict_get "AND" d = None -> dict_get "OR" d = None ->
    dict_get "NOT" d = None ->
    dict_has "field" d = true ->
    dict_get "operator" d = Some (PStr op) ->
    AgenticBRE.COMPARISON_OPS op = Some c ->
    dict_has "value" d = true ->
    well_formed (PDict d)
| wf_keyed_leaf (d : list (string * pyval)) (key : string) :
    dict_get "AND" d = None -> dict_get "OR" d = None ->
    dict_get "NOT" d = None -> dict_get "field" d = None ->
    In key ["IN"; "NOT IN"; "MATCHES"; "CONTAINS"] ->
    dict_has key d = true ->
    well_formed (PDict d).

(** *** The records of a walk *)

(** a node execution that is no longer running *)
Definition settled (row : node_execution_row) : Prop :=
  ne_status row = "completed" \/ ne_status row = "failed".

(** [db'] has the nodes, the rules and the executions of [db], its audit
    log is that of [db] with entries added, and its node executions are
    those of [db] followed by settled ones *)
Definition kept (db db' : database) : Prop :=
  nodes db' = nodes db
  /\ business_rules db' = business_rules db
  /\ executions db' = executions db
  /\ (exists entries, audit_log db' = (audit_log db ++ entries)%list)
  /\ exists new,
       node_executions db' = (node_executions db ++ new)%list
       /\ Forall settled new.

Definition settles {A : Type} (m : M database A) : Prop :=
  forall db, kept db (snd (m db)).

(** the node execution that records the outcome of a call *)
Definition record_of (execution_id node_id : string) (outcome : res pyval)
  : node_execution_row :=
  {| ne_execution_id := execution_id;
     ne_node_id := node_id;
     ne_status := match outcome with Ok _ => "completed" | Raise _ => "failed" end;
     ne_output_data := match outcome with Ok v => Some v | Raise _ => None end |}.

(** the row of [executions] that records how a flow ended *)
Definition execution_record (execution_id flow_id : string)
    (initial_context : pyval) (outcome : res string)
    (final_result : list (string * pyval)) : execution_row :=
  {| ex_execution_id := execution_id;
     ex_flow_id := flow_id;
     ex_status := match outcome with Ok _ => "completed" | Raise _ => "failed" end;
     ex_input_context := initial_context;
     ex_output_result :=
       match outcome with Ok _ => Some (PDict final_result) | Raise _ => None end;
     ex_error_message :=
       match outcome with Ok _ => None | Raise e => Some e end |}.

(** an entry that the orchestrator adds to the audit log *)
Definition audit_entry (execution_id event_type : string) (event_data : pyval)
  : audit_row :=
  {| al_execution_id := execution_id;
     al_event_type := event_type;
     al_event_data := OtherEvent event_data;
     al_actor := "system" |}.

(** the id of no execution in the table *)
Definition fresh (execution_id : string) (db : database) : Prop :=
  existsb (fun row => String.eqb (ex_execution_id row) execution_id)
    (executions db) = false.

(** the children run one after the other, each on the tables that the one
    before left, and all return *)
Inductive runs (self_execute : string -> string -> M database pyval)
    (execution_id : string)
  : list Node.row -> database -> list pyval -> database -> Prop :=
| runs_none (db : database) : runs self_execute execution_id [] db [] db
| runs_child (child : Node.row) (rest : list Node.row) (db db1 db2 : database)
    (v : pyval) (vs : list pyval) :
    self_execute (Node.node_id child) execution_id db = (Ok v, db1) ->
    runs self_execute execution_id rest db1 vs db2 ->
    runs self_execute execution_id (child :: rest) db (v :: vs) db2.

(** *** The calls of the agentic handlers *)

(** The calls of a loop that hands the same input to every child: the
    children in order, and a call that raises is the last. *)
Inductive sequence_calls (input : pyval)
  : list AgenticOrchestrator.Node.row
    -> list (string * pyval * res AgenticOrchestrator.NodeExecutionResult)
    -> Prop :=
| sequence_done : sequence_calls input [] []
| sequence_raise (child : AgenticOrchestrator.Node.row)
    (rest : list AgenticOrchestrator.Node.row) (e : exn) :
    sequence_calls input (child :: rest)
      [(AgenticOrchestrator.Node.node_id child, input, Raise e)]
| sequence_step (child : AgenticOrchestrator.Node.row)
    (rest : list AgenticOrchestrator.Node.row)
    (r : AgenticOrchestrator.NodeExecutionResult)
    (calls : list (string * pyval * res AgenticOrchestrator.NodeExecutionResult)) :
    sequence_calls input rest calls ->
    sequence_calls input (child :: rest)
      ((AgenticOrchestrator.Node.node_id child, input, Ok r) :: calls).

(** the first of the nodes that has the name *)
Definition node_named (nodes : list AgenticOrchestrator.Node.row)
    (name : pyval) : option AgenticOrchestrator.Node.row :=
  find (fun node => py_eq (PStr (AgenticOrchestrator.Node.name node)) name)
       nodes.

(** The calls that the task assignments of an orchestrator lead to: an
    assignment that names no worker is passed over, one that lacks
    [worker] or [input] ends the loop, as does a call that raises. *)
Inductive assignment_calls (workers : list AgenticOrchestrator.Node.row)
  : list pyval
    -> list (string * pyval * res AgenticOrchestrator.NodeExecutionResult)
    -> Prop :=
| assignments_done : assignment_calls workers [] []
| assignment_malformed (assignment : pyval) (rest : list pyval) :
    (forall worker_name worker_input,
       py_getitem assignment "worker" = Ok worker_name ->
       py_getitem assignment "input" = Ok worker_input -> False) ->
    assignment_calls workers (assignment :: rest) []
| assignment_unknown (assignment : pyval) (rest : list pyval)
    (worker_name worker_input : pyval)
    (calls : list (string * pyval * res AgenticOrchestrator.NodeExecutionResult)) :
    py_getitem assignment "worker" = Ok worker_name ->
    py_getitem assignment "input" = Ok worker_input ->
    node_named workers worker_name = None ->
    assignment_calls workers rest calls ->
    assignment_calls workers (assignment :: rest) calls
| assignment_raise (assignment : pyval) (rest : list pyval)
    (worker_name worker_input : pyval) (worker : AgenticOrchestrator.Node.row)
    (e : exn) :
    py_getitem assignment "worker" = Ok worker_name ->
    py_getitem assignment "input" = Ok worker_input ->
    node_named workers worker_name = Some worker ->
    assignment_calls workers (assignment :: rest)
      [(AgenticOrchestrator.Node.node_id worker, worker_input, Raise e)]
| assignment_step (assignment : pyval) (rest : list pyval)
    (worker_name worker_input : pyval) (worker : AgenticOrchestrator.Node.row)
    (r : AgenticOrchestrator.NodeExecutionResult)
    (calls : list (string * pyval * res AgenticOrchestrator.NodeExecutionResult)) :
    py_getitem assignment "worker" = Ok worker_name ->
    py_getitem assignment "input" = Ok worker_input ->
    node_named workers worker_name = Some worker ->
    assignment_calls workers rest calls ->
    assignment_calls workers (assignment :: rest)
      ((AgenticOrchestrator.Node.node_id worker, worker_input, Ok r) :: calls).

(** the evaluation of a rule row in a context *)
Definition evaluation_of (rt : runtime) (context : pyval)
    (rule : list (string * pyval)) : AgenticBRE.RuleEvaluation :=
  match AgenticBRE.evaluate_rule rt (PDict rule) context with
  | Ok evaluation => evaluation
  | Raise e =>
      {| AgenticBRE.rule_id := PNone; AgenticBRE.status := AgenticBRE.ERROR;
         AgenticBRE.result := false; AgenticBRE.error := Some e |}
  end.

(** the rule passes in the context *)
Definition passes (rt : runtime) (context : pyval) (rule : list (string * pyval))
  : bool :=
  AgenticBRE.is_pass (evaluation_of rt context rule).

(** the store after the evaluations of the rules in the context were
    recorded for a node of an execution *)
Definition recorded {St : Type} (rt : runtime) (attached : bool)
    (record_gate_evaluation
     : string -> string -> pyval -> AgenticBRE.RuleEvaluation -> St -> St)
    (execution_id node_id : option string) (context : pyval)
    (rules : list (list (string * pyval))) (st : St) : St :=
  match execution_id, node_id with
  | Some e, Some n =>
      if attached && AgenticBRE.provided execution_id
         && AgenticBRE.provided node_id
      then fold_left
             (fun st rule =>
                record_gate_evaluation e n context
                  (evaluation_of rt context rule) st)
             rules st
      else st
  | _, _ => st
  end.

(** the input of a gate node overlaid with the working memory *)
Definition overlaid (working_memory : list (string * pyval))
    (input : list (string * pyval)) : list (string * pyval) :=
  fold_left (fun context kv => dict_set (fst kv) (snd kv) context)
            working_memory input.

(** *** Conditions of the quality-gate engine *)

(** The conditions that the utility functions of the quality-gate engine
    build: the leaves of [field_equals] and its like, with or without a
    value, the leaf of [field_matches_pattern], and [all_of], [any_of] and
    [none_of] over such conditions. *)
Inductive built : pyval -> Prop :=
| built_comparison (field operator : string) (value : pyval) :
    built (PDict [("field", PStr field); ("operator", PStr operator);
                  ("value", value)])
| built_null_check (field operator : string) :
    built (PDict [("field", PStr field); ("operator", PStr operator)])
| built_matches (field pattern : string) :
    built (QualityGateBRE.field_matches_pattern field pattern)
| built_all_of (conditions : list pyval) :
    Forall built conditions -> built (QualityGateBRE.all_of conditions)
| built_any_of (conditions : list pyval) :
    Forall built conditions -> built (QualityGateBRE.any_of conditions)
| built_none_of (condition : pyval) :
    built condition -> built (QualityGateBRE.none_of condition).

End Notions.

(* ================================================================== *)
(** ** Inputs of the examples *)
(* ================================================================== *)

Module Examples.
Import Py.
Import QualityGateBRE.

(** A runtime for the examples, none of which reaches it: no pattern
    compiles, only integer literals are floats, and data has no attributes. *)
Definition rt0 : runtime :=
  {| re_match := fun _ _ => None;
     repr_other := fun _ => "?";
     float_of_str := fun s => option_map inject_Z (int_of_str s);
     py_getattr := fun _ _ => PNone |}.

(** [field_is_null] and [field_is_not_null] of the quality-gate engine *)
Definition field_is_null (field : string) : pyval :=
  PDict [("field", PStr field); ("operator", PStr "IS NULL")].

Definition field_is_not_null (field : string) : pyval :=
  PDict [("field", PStr field); ("operator", PStr "IS NOT NULL")].

Definition gate_node (id : string) (cfg : node_config) : Node.row :=
  {| Node.node_id := id; Node.flow_id := "flow"; Node.node_type := "gate";
     Node.name := id; Node.description := EmptyString; Node.parent_id := Some "root";
     Node.config := Some cfg |}.

Definition rule (id gate : string) (prio : Z) (cond : pyval)
    (md : option rule_metadata) : rule_row :=
  {| rule_id := id; name := id; gate_node_id := Some gate; enabled := true;
     priority := prio; condition := cond; metadata := md |}.

Definition tables (ns : list Node.row) (rs : list rule_row) : database :=
  {| nodes := ns; business_rules := rs; gate_evaluations := [];
     audit_log := []; node_executions := []; working_memory := [];
     executions := [] |}.

Definition weighted (w : Q) : option rule_metadata :=
  Some {| weight := Some w; critical := false; auto_kill_if_fail := false;
          requires_human_if_fail := false |}.

Definition auto_kill : option rule_metadata :=
  Some {| weight := None; critical := true; auto_kill_if_fail := true;
          requires_human_if_fail := false |}.

(** the context: a PRD with a title and no owner *)
Definition prd : pyval := PDict [("title", PStr "PRD")].

Definition has_title : rule_row :=
  rule "has_title" "gate1" 2 (field_is_not_null "title") (weighted 30).

Definition has_owner : rule_row :=
  rule "has_owner" "gate1" 1 (field_is_not_null "owner") None.

(** an automated gate with the default threshold and two rules, one of
    which fails: the score is 75 *)
Definition db_marginal : database :=
  tables [gate_node "gate1" empty_config] [has_owner; has_title].

Definition human_config : node_config :=
  {| gate_type := Some "human"; pass_threshold := None;
     decision_options := Some ["APPROVE"; "DEFER"; "REJECT"];
     gate_number := None; recycle_target := None; pattern := None;
     agent_type := None; working_memory_input := None;
     working_memory_output := None |}.

(** a human gate whose only rule passes *)
Definition db_human : database :=
  tables [gate_node "gate1" human_config] [has_title].

Definition has_title_negative : rule_row :=
  rule "has_title" "gate1" 2 (field_is_not_null "title") (weighted (-10)).

(** an automated gate whose only rule passes and has weight -10 *)
Definition db_negative : database :=
  tables [gate_node "gate1" empty_config] [has_title_negative].

Definition owner_or_kill : rule_row :=
  rule "owner_or_kill" "gate1" 5 (field_is_not_null "owner") auto_kill.

(** a gate with a failing rule flagged [auto_kill_if_fail] between two
    other rules *)
Definition db_kill : database :=
  tables [gate_node "gate1" empty_config] [has_owner; has_title; owner_or_kill].

(** a condition with no known key: [_evaluate_condition] raises *)
Definition malformed : pyval := PDict [("op", PStr "==")].

Definition broken : rule_row := rule "broken" "gate1" 9 malformed None.

Definition broken_or_kill : rule_row :=
  rule "broken" "gate1" 9 malformed auto_kill.

(** a gate whose first rule cannot be evaluated *)
Definition db_broken : database :=
  tables [gate_node "gate1" empty_config] [has_title; broken].

(** the same with the broken rule flagged [auto_kill_if_fail] *)
Definition db_broken_kill : database :=
  tables [gate_node "gate1" empty_config] [has_title; broken_or_kill].

(** a condition that is true by its first branch and has a second branch
    that is not a condition *)
Definition title_or_junk : rule_row :=
  rule "title_or_junk" "gate1" 1
    (PDict [("OR", PList [field_is_not_null "title"; PInt 5])]) None.

(** comparisons of a field that the context does not have *)
Definition absent_ne_5 : pyval :=
  PDict [("field", PStr "x"); ("operator", PStr "!="); ("value", PInt 5)].

Definition absent_lt_5 : pyval :=
  PDict [("field", PStr "x"); ("operator", PStr "<"); ("value", PInt 5)].

(** a list of two items *)
Definition two_items : pyval := PDict [("items", PList [PInt 1; PInt 2])].

(** *** Orchestrators *)

Definition child (id : string) : AgenticOrchestrator.Node.row :=
  {| AgenticOrchestrator.Node.node_id := id; AgenticOrchestrator.Node.name := id |}.

Definition children_of (l : list string)
  : string -> unit -> list AgenticOrchestrator.Node.row :=
  fun _ _ => map child l.

Definition done (id : string) (output : pyval)
  : AgenticOrchestrator.NodeExecutionResult :=
  {| AgenticOrchestrator.node_id := id;
     AgenticOrchestrator.status := AgenticOrchestrator.COMPLETED;
     AgenticOrchestrator.output_data := output;
     AgenticOrchestrator.error := None;
     AgenticOrchestrator.child_results := None |}.

(** an [execute_node] in which the node [bad] raises and every other node
    completes with its name added to what it was given *)
Definition fails_at (bad : string)
  : string -> string -> pyval -> M unit AgenticOrchestrator.NodeExecutionResult :=
  fun _ node_id input_data st =>
    if String.eqb node_id bad
    then (Raise (ValueError "No agents available for task execution" PNone), st)
    else (Ok (done node_id (PList [PStr node_id; input_data])), st).

(** an [execute_node] whose every node completes with the score 0 *)
Definition scores_zero
  : string -> string -> pyval -> M unit AgenticOrchestrator.NodeExecutionResult :=
  fun _ node_id _ st => (Ok (done node_id (PDict [("score", PInt 0)])), st).

(** an [execute_node] over a counter of evaluations: the generator [G]
    returns the number of the draft, the evaluator scores the drafts
    0.5, 0.9 and 0.95 in turn *)
Definition improves
  : string -> string -> pyval -> M nat AgenticOrchestrator.NodeExecutionResult :=
  fun _ node_id _ count =>
    if String.eqb node_id "G"
    then (Ok (done node_id (PDict [("draft", PInt (Z.of_nat count))])), count)
    else (Ok (done node_id
                (PDict [("score",
                         PFloat (nth count [5 # 10; 9 # 10; 95 # 100] 0))])),
          S count).

Definition children_at {St : Type} (l : list string)
  : string -> St -> list AgenticOrchestrator.Node.row :=
  fun _ _ => map child l.

Definition threshold_zero : pyval :=
  PDict [("max_iterations", PInt 3); ("quality_threshold", PInt 0)].

Definition no_iterations : pyval := PDict [("max_iterations", PInt 0)].

Definition three_iterations : pyval := PDict [("max_iterations", PInt 3)].

Definition node (id type : string) (parent : option string)
    (cfg : option node_config) : Node.row :=
  {| Node.node_id := id; Node.flow_id := "flow"; Node.node_type := type;
     Node.name := id; Node.description := EmptyString; Node.parent_id := parent;
     Node.config := cfg |}.

Definition agent_config (type : option string) (inputs outputs : list string)
  : node_config :=
  {| gate_type := None; pass_threshold := None; decision_options := None;
     gate_number := None; recycle_target := None; pattern := None;
     agent_type := type; working_memory_input := Some inputs;
     working_memory_output := Some outputs |}.

(** a prompt-chaining node [P] over two agents: [A] reviews and stores
    nothing, [B] asks for the review *)
Definition db_chain : database :=
  tables [node "P" "control_flow" None None;
          node "A" "agent" (Some "P")
            (Some (agent_config (Some "technical-reviewer") [] []));
          node "B" "agent" (Some "P")
            (Some (agent_config None ["technical_review"] []))]
         [].

(** a quality-gate [_execute_node] in which the node [bad] raises *)
Definition raises_at (bad : string) : string -> string -> M unit pyval :=
  fun node_id _ st =>
    if String.eqb node_id bad
    then (Raise (ValueError "Node not found: " (PStr node_id)), st)
    else (Ok (PStr node_id), st).

Definition critical_rule : option rule_metadata :=
  Some {| weight := None; critical := true; auto_kill_if_fail := false;
          requires_human_if_fail := false |}.

(** a gate with a failing critical rule and no [recycle_target] *)
Definition db_recycle : database :=
  tables [gate_node "gate1" empty_config]
         [rule "has_owner" "gate1" 1 (field_is_not_null "owner") critical_rule].

(** a critical rule that carries no weight *)
Definition critical_weightless : option rule_metadata :=
  Some {| weight := Some 0; critical := true; auto_kill_if_fail := false;
          requires_human_if_fail := false |}.

(** a gate whose only weighted rule passes, so that the score is 100, and
    whose critical rule fails *)
Definition db_critical : database :=
  tables [gate_node "gate1" empty_config]
         [has_title;
          rule "has_owner" "gate1" 1 (field_is_not_null "owner") critical_weightless].

(** a flow whose root leads to a gate that kills: the owner is missing *)
Definition db_flow_kill : database :=
  tables [node "root" "root" None None; gate_node "gate1" empty_config]
         [has_title; owner_or_kill].

(** the text of an exception, for the examples *)
Definition some_text : exn -> string := fun _ => "error".

(** a parallelization node [P] over the children [A], [B] and [C] *)
Definition parallel_config : node_config :=
  {| gate_type := None; pass_threshold := None; decision_options := None;
     gate_number := None; recycle_target := None;
     pattern := Some "parallelization";
     agent_type := None; working_memory_input := None;
     working_memory_output := None |}.

Definition db_parallel : database :=
  tables [node "P" "control_flow" None (Some parallel_config);
          node "A" "agent" (Some "P") None;
          node "B" "agent" (Some "P") None;
          node "C" "agent" (Some "P") None]
         [].

(** a quality-gate [_execute_node] on the tables in which the node [bad]
    raises *)
Definition raises_on (bad : string) : string -> string -> M database pyval :=
  fun node_id _ db =>
    if String.eqb node_id bad
    then (Raise (ValueError "Node not found: " (PStr node_id)), db)
    else (Ok (PStr node_id), db).

(** *** Rules of the agentic engine *)

(** a row of [business_rules] that routes to the child [target] *)
Definition routing_rule (id : string) (condition : pyval) (target : string)
  : list (string * pyval) :=
  [("rule_id", PStr id); ("name", PStr id); ("condition", condition);
   ("action", PDict [("route_to", PStr target)])].

Definition title_is (title : string) : pyval :=
  PDict [("field", PStr "title"); ("operator", PStr "=="); ("value", PStr title)].

(** three routing rules: the first does not pass on [prd], the second
    passes and names a child that does not exist, the third passes and
    names the child [B] *)
Definition routes : list (list (string * pyval)) :=
  [routing_rule "r1" (title_is "RFC") "A";
   routing_rule "r2" (title_is "PRD") "C";
   routing_rule "r3" (title_is "PRD") "B"].

(** a database that holds nothing but these rules *)
Definition rules_of (rules : list (list (string * pyval)))
  : string -> string -> unit -> list (list (string * pyval)) :=
  fun _ _ _ => rules.

Definition no_record
  : string -> string -> pyval -> AgenticBRE.RuleEvaluation -> unit -> unit :=
  fun _ _ _ _ st => st.

(** an [execute_node] in which every node completes *)
Definition completes
  : string -> string -> pyval -> M unit AgenticOrchestrator.NodeExecutionResult :=
  fun _ node_id input_data st =>
    (Ok (done node_id (PList [PStr node_id; input_data])), st).

(** a gate rule of a flow that asks for an owner *)
Definition owner_is (owner : string) : list (string * pyval) :=
  [("rule_id", PStr "owner"); ("name", PStr "owner");
   ("condition",
    PDict [("field", PStr "owner"); ("operator", PStr "=="); ("value", PStr owner)])].

(** the working memory of every execution holds the owner [ann] *)
Definition remembers_ann : string -> unit -> list (string * pyval) :=
  fun _ _ => [("owner", PStr "ann")].

Definition no_description : list AgenticBRE.RuleEvaluation -> pyval :=
  fun _ => PList [].

End Examples.

(* ================================================================== *)
(** ** Comparisons of rationals *)
(* ================================================================== *)

Module QFacts.
Import Py.

Lemma Qlt_bool_iff (x y : Q) : Qlt_bool x y = true <-> x < y.
Proof.
  unfold Qlt_bool. rewrite negb_true_iff.
  split.
  - intros H. apply Qnot_le_lt. intros Hle.
    apply Qle_bool_iff in Hle. congruence.
  - intros H. destruct (Qle_bool y x) eqn:E; trivial.
    apply Qle_bool_iff in E. exfalso. exact (Qlt_not_le _ _ H E).
Qed.

Lemma Qle_bool_false (x y : Q) : Qle_bool x y = false <-> y < x.
Proof.
  rewrite <- Qlt_bool_iff. unfold Qlt_bool.
  destruct (Qle_bool x y); simpl; split; congruence.
Qed.

Lemma py_order_numbers (op : cmpop) (a b : pyval) (x y : Q) :
  as_number a = Some x -> as_number b = Some y ->
  py_order op a b = Ok (cmp_Q op x y).
Proof.
  destruct a, b; cbn; intros Ha Hb; try discriminate;
    injection Ha as <-; injection Hb as <-; reflexivity.
Qed.

End QFacts.

(* ================================================================== *)
(** ** The quality-gate engine: scoring and decision *)
(* ================================================================== *)

Module GateFacts.
Import Py.
Import QualityGateBRE.
Import Notions.

Section Facts.
Context (rt : runtime) (context : pyval).

Lemma evaluate_rule_score (rule : rule_row) :
  RuleEvaluationResult.score (evaluate_rule rt rule context)
  = if RuleEvaluationResult.passed (evaluate_rule rt rule context)
    then 100 else 0.
Proof.
  unfold evaluate_rule.
  destruct (_evaluate_condition rt context (condition rule)) as [[|]|e]; simpl;
    destruct (_extract_relevant_context rt (condition rule) context); reflexivity.
Qed.

Lemma evaluate_rule_name (rule : rule_row) :
  RuleEvaluationResult.rule_name (evaluate_rule rt rule context) = name rule.
Proof.
  unfold evaluate_rule.
  destruct (_evaluate_condition rt context (condition rule)) as [b|e]; simpl;
    [destruct (_extract_relevant_context rt (condition rule) context)|];
    reflexivity.
Qed.

Lemma evaluate_rule_passed (rule : rule_row) :
  RuleEvaluationResult.passed (evaluate_rule rt rule context) = true ->
  _evaluate_condition rt context (condition rule) = Ok true.
Proof.
  unfold evaluate_rule.
  destruct (_evaluate_condition rt context (condition rule)) as [b|e]; simpl;
    [destruct (_extract_relevant_context rt (condition rule) context)|];
    simpl; intros H; congruence.
Qed.

Lemma evaluate_rule_raises (rule : rule_row) (e : exn) :
  _evaluate_condition rt context (condition rule) = Raise e ->
  evaluate_rule rt rule context
  = {| RuleEvaluationResult.rule_id := rule_id rule;
       RuleEvaluationResult.rule_name := name rule;
       RuleEvaluationResult.passed := false;
       RuleEvaluationResult.score := 0;
       RuleEvaluationResult.reason := EvaluationError e;
       RuleEvaluationResult.evaluation_details :=
         ErrorDetails e (condition rule) |}.
Proof. unfold evaluate_rule. intros ->. reflexivity. Qed.

Lemma evaluate_rule_false (rule : rule_row) :
  _evaluate_condition rt context (condition rule) = Ok false ->
  RuleEvaluationResult.passed (evaluate_rule rt rule context) = false
  /\ RuleEvaluationResult.score (evaluate_rule rt rule context) = 0.
Proof.
  unfold evaluate_rule. intros ->. simpl.
  destruct (_extract_relevant_context rt (condition rule) context);
    split; reflexivity.
Qed.

Lemma insert_by_priority_In (r x : rule_row) (l : list rule_row) :
  In x (insert_by_priority r l) <-> x = r \/ In x l.
Proof.
  induction l as [|y l IH]; cbn [insert_by_priority].
  - cbn. intuition.
  - destruct (priority y <=? priority r)%Z; cbn [In]; [|rewrite IH];
      intuition.
Qed.

Lemma insert_by_priority_sorted (r : rule_row) (l : list rule_row) :
  Sorted by_priority_desc l -> Sorted by_priority_desc (insert_by_priority r l).
Proof.
  induction l as [|y l IH]; cbn [insert_by_priority]; intros Hs.
  - repeat constructor.
  - destruct (priority y <=? priority r)%Z eqn:E.
    + apply Z.leb_le in E. constructor; [exact Hs|].
      constructor. exact E.
    + apply Z.leb_gt in E. inversion Hs as [|? ? Hl Hhd]; subst.
      constructor; [apply IH; exact Hl|].
      destruct l as [|z l]; cbn [insert_by_priority].
      * constructor. unfold by_priority_desc. lia.
      * destruct (priority z <=? priority r)%Z; constructor.
        -- unfold by_priority_desc. lia.
        -- inversion Hhd; subst. assumption.
Qed.

(** The query returns the enabled rules of the gate, by descending
    priority. *)
Lemma select_rules_spec (db : database) (gate : string) :
  Sorted by_priority_desc (select_rules db gate)
  /\ forall r, In r (select_rules db gate) <-> enabled_for db gate r.
Proof.
  unfold select_rules, order_by_priority_desc, enabled_for. split.
  - induction (filter _ (business_rules db)) as [|x l IH]; cbn [fold_right].
    + constructor.
    + apply insert_by_priority_sorted. exact IH.
  - intros r.
    transitivity (In r (filter
                          (fun r0 => match gate_node_id r0 with
                                     | Some g => String.eqb g gate && enabled r0
                                     | None => false
                                     end)
                          (business_rules db))).
    + induction (filter _ (business_rules db)) as [|x l IH]; cbn [fold_right].
      * reflexivity.
      * rewrite insert_by_priority_In, IH. cbn [In]. intuition.
    + rewrite filter_In. destruct (gate_node_id r) as [g|].
      * rewrite andb_true_iff, String.eqb_eq. split.
        -- intros (Hin & -> & He). auto.
        -- intros (Hin & Hg & He). injection Hg as ->. auto.
      * split; [intros [_ H]; discriminate | intros (_ & H & _); discriminate].
Qed.

(** The fuel of [get_field_value_fuel] is never used up: any fuel of at
    least the length of the path gives the same value. *)
Lemma substring_length_le (k : nat) :
  forall s, (String.length (String.substring 0 k s) <= k)%nat.
Proof.
  induction k as [|k IH]; intros [|c s]; cbn; try lia.
  specialize (IH s). lia.
Qed.

Lemma endswith_length (s suffix : string) :
  endswith s suffix = true -> (String.length suffix <= String.length s)%nat.
Proof.
  unfold endswith. intros H. apply andb_true_iff in H. destruct H as [H _].
  apply Nat.leb_le in H. exact H.
Qed.

Lemma get_field_value_fuel_enough (fuel1 : nat) :
  forall fuel2 path,
    (String.length path <= fuel1)%nat -> (String.length path <= fuel2)%nat ->
    get_field_value_fuel rt fuel1 path context
    = get_field_value_fuel rt fuel2 path context.
Proof.
  induction fuel1 as [|fuel1 IH]; intros fuel2 path H1 H2.
  - destruct fuel2; cbn [get_field_value_fuel];
      destruct (endswith path ".length") eqn:E; try reflexivity;
      apply endswith_length in E; cbn in E; lia.
  - destruct fuel2; cbn [get_field_value_fuel];
      destruct (endswith path ".length") eqn:E; try reflexivity.
    + apply endswith_length in E. cbn in E. lia.
    + f_equal. apply endswith_length in E. cbn in E.
      pose proof (substring_length_le (String.length path - 7) path).
      apply IH; lia.
Qed.

Variables gate_id gate_name : string.

(** When no rule kills, the loop visits every rule and accumulates the
    sums of the spec. *)
Lemma gate_loop_runs (rules : list rule_row) :
  forall st,
    (forall rule, In rule rules -> kills rt context rule = false) ->
    exists st',
      gate_loop rt gate_id gate_name context rules st = inr st'
      /\ rule_results st'
         = (rule_results st ++ map (result_of rt context) rules)%list
      /\ total_weight st' == total_weight st + sum_weights rules
      /\ weighted_score st'
         == weighted_score st + sum_weighted_scores rt context rules
      /\ critical_failures st'
         = (critical_failures st
              ++ map name (filter (fails_critically rt context) rules))%list
      /\ recommendations st'
         = (recommendations st
              ++ map (fun r => HumanReviewFor (name r))
                   (filter (asks_human rt context) rules))%list.
Proof.
  induction rules as [|rule rest IH]; intros st Hk.
  - exists st. simpl. rewrite !app_nil_r.
    unfold sum_weights, sum_weighted_scores. simpl.
    repeat split; try reflexivity; ring.
  - assert (Hrest : forall r, In r rest -> kills rt context r = false)
      by (intros r Hr; apply Hk; right; exact Hr).
    assert (Hrule : kills rt context rule = false) by (apply Hk; left; reflexivity).
    unfold kills, fails, result_of in Hrule.
    simpl gate_loop.
    unfold fails_critically, asks_human, fails, result_of.
    cbn [filter map].
    destruct (RuleEvaluationResult.passed (evaluate_rule rt rule context)) eqn:Hp.
    + match goal with
      | |- context [gate_loop _ _ _ _ rest ?s] =>
          destruct (IH s Hrest) as (st' & Hrun & Hres & Htw & Hws & Hcf & Hrec)
      end.
      exists st'. rewrite Hrun. cbn [rule_results total_weight weighted_score
        critical_failures recommendations] in *.
      cbn [negb andb].
      repeat split; trivial.
      * rewrite Hres, <- app_assoc. reflexivity.
      * rewrite Htw. unfold sum_weights. cbn [map sumQ]. ring.
      * rewrite Hws. unfold sum_weighted_scores, result_of. cbn [map sumQ]. ring.
    + simpl in Hrule. rewrite Hrule.
      match goal with
      | |- context [gate_loop _ _ _ _ rest ?s] =>
          destruct (IH s Hrest) as (st' & Hrun & Hres & Htw & Hws & Hcf & Hrec)
      end.
      exists st'. rewrite Hrun.
      cbn [rule_results total_weight weighted_score critical_failures
           recommendations] in *.
      cbn [negb andb].
      repeat split; trivial.
      * rewrite Hres, <- app_assoc. reflexivity.
      * rewrite Htw. unfold sum_weights. cbn [map sumQ]. ring.
      * rewrite Hws. unfold sum_weighted_scores, result_of. cbn [map sumQ].
        rewrite evaluate_rule_score, Hp. ring.
      * rewrite Hcf, evaluate_rule_name.
        destruct (critical (metadata_of rule)); cbn [map];
          [rewrite <- app_assoc|]; reflexivity.
      * rewrite Hrec, evaluate_rule_name.
        destruct (requires_human_if_fail (metadata_of rule)); cbn [map];
          [rewrite <- app_assoc|]; reflexivity.
Qed.

(** The first failing rule flagged [auto_kill_if_fail] ends the loop. *)
Lemma gate_loop_kills (pre : list rule_row) (r : rule_row) (post : list rule_row) :
  forall st,
    (forall x, In x pre -> kills rt context x = false) ->
    kills rt context r = true ->
    gate_loop rt gate_id gate_name context (pre ++ r :: post) st
    = inl {| GateEvaluationResult.gate_id := gate_id;
             GateEvaluationResult.gate_name := gate_name;
             GateEvaluationResult.decision := "KILL";
             GateEvaluationResult.overall_score := 0;
             GateEvaluationResult.passed := false;
             GateEvaluationResult.rule_results :=
               (rule_results st ++ map (result_of rt context) (pre ++ [r]))%list;
             GateEvaluationResult.reason := CriticalFailure (name r);
             GateEvaluationResult.recommendations :=
               [Fix (RuleEvaluationResult.reason (result_of rt context r))] |}.
Proof.
  induction pre as [|x pre IH]; intros st Hpre Hr.
  - unfold kills, fails, result_of in Hr.
    apply andb_true_iff in Hr. destruct Hr as [Hf Hk].
    apply negb_true_iff in Hf.
    cbn [app gate_loop]. rewrite Hf, Hk.
    rewrite evaluate_rule_name. reflexivity.
  - assert (Hx : kills rt context x = false) by (apply Hpre; left; reflexivity).
    assert (Hpre' : forall y, In y pre -> kills rt context y = false)
      by (intros y Hy; apply Hpre; right; exact Hy).
    unfold kills, fails, result_of in Hx.
    cbn [app gate_loop].
    destruct (RuleEvaluationResult.passed (evaluate_rule rt x context)) eqn:Hp.
    + rewrite (IH _ Hpre' Hr). cbn [rule_results].
      rewrite <- app_assoc. reflexivity.
    + simpl in Hx. rewrite Hx.
      rewrite (IH _ Hpre' Hr). cbn [rule_results].
      rewrite <- app_assoc. reflexivity.
Qed.

(** Among rules of which one kills there is a first one that does. *)
Lemma first_kill (rules : list rule_row) :
  (exists rule, In rule rules /\ kills rt context rule = true) ->
  exists pre r post,
    rules = (pre ++ r :: post)%list
    /\ (forall x, In x pre -> kills rt context x = false)
    /\ kills rt context r = true.
Proof.
  induction rules as [|x rest IH]; intros (rule & Hin & Hk).
  - destruct Hin.
  - destruct (kills rt context x) eqn:Hx.
    + exists [], x, rest. repeat split; trivial. intros y [].
    + destruct IH as (pre & r & post & Heq & Hpre & Hr).
      { destruct Hin as [->|Hin]; [congruence|]. exists rule. auto. }
      exists (x :: pre), r, post. subst rest. repeat split; trivial.
      intros y [<-|Hy]; auto.
Qed.

End Facts.

End GateFacts.

Module GateClaims.
Import Py.
Import QualityGateBRE.
Import Notions.
Import QFacts.
Import GateFacts.

Lemma overall_score_of_spec (st : loop_state) (W S : Q) :
  total_weight st == W -> weighted_score st == S ->
  (0 < W -> overall_score_of st == S / W)
  /\ (~ 0 < W -> overall_score_of st == 0).
Proof.
  intros HW HS. unfold overall_score_of.
  destruct (Qlt_bool 0 (total_weight st)) eqn:E.
  - apply Qlt_bool_iff in E. rewrite HW in E. split.
    + intros _. rewrite HW, HS. reflexivity.
    + intros H. contradiction.
  - split.
    + intros H. rewrite <- HW in H. apply Qlt_bool_iff in H. congruence.
    + reflexivity.
Qed.

(** The chain of tests of [decide] for a gate that is not human and has no
    critical failure. *)
Lemma decide_by_threshold (cfg : node_config) (st : loop_state) :
  is_human cfg = false ->
  critical_failures st = [] ->
  let s := overall_score_of st in
  let T := threshold_of cfg in
  (T <= s ->
   fst (decide cfg st) = (pass_class cfg, true))
  /\ (T * (7 # 10) <= s -> s < T -> recommendations st <> [] ->
      fst (decide cfg st) = ("PENDING_HUMAN_REVIEW", false))
  /\ (T * (7 # 10) <= s -> s < T -> recommendations st = [] ->
      fst (decide cfg st) = (recycle_or_hold cfg, false))
  /\ (s < T * (7 # 10) -> s < T ->
      fst (decide cfg st) = (kill_or_reject cfg, false)).
Proof.
  intros Hh Hc s T. unfold decide, is_human in *.
  fold (threshold_of cfg). fold (options_of cfg). fold s. fold T.
  assert (Hgt : String.eqb
                  match gate_type cfg with Some t => t | None => "automated" end
                  "human" = false).
  { destruct (gate_type cfg); [exact Hh | reflexivity]. }
  rewrite Hgt, Hc.
  repeat split.
  - intros H. apply Qle_bool_iff in H. rewrite H. reflexivity.
  - intros H1 H2 H3. apply Qle_bool_false in H2. apply Qle_bool_iff in H1.
    rewrite H2, H1. destruct (recommendations st); [congruence | reflexivity].
  - intros H1 H2 H3. apply Qle_bool_false in H2. apply Qle_bool_iff in H1.
    rewrite H2, H1, H3. reflexivity.
  - intros H1 H2. apply Qle_bool_false in H2. apply Qle_bool_false in H1.
    rewrite H2, H1. reflexivity.
Qed.

Lemma decide_human (cfg : node_config) (st : loop_state) :
  is_human cfg = true ->
  decide cfg st = ("PENDING_HUMAN_REVIEW", false, HumanReviewRequired).
Proof.
  unfold is_human, decide. destruct (gate_type cfg) as [t|]; [|discriminate].
  intros ->. reflexivity.
Qed.

Lemma evaluate_gate_on_runs (rt : runtime) (db : database) (gate_id : string)
    (context : pyval) (execution_id : option string) (gate : Node.row)
    (cfg : node_config) :
  select_node db gate_id = Some gate ->
  Node.config gate = Some cfg ->
  select_rules db gate_id <> [] ->
  (forall rule, In rule (select_rules db gate_id) ->
                kills rt context rule = false) ->
  exists st db',
    gate_loop rt gate_id (Node.name gate) context (select_rules db gate_id)
      initial_state = inr st
    /\ evaluate_gate_on rt db gate_id context execution_id
       = (Ok {| GateEvaluationResult.gate_id := gate_id;
                GateEvaluationResult.gate_name := Node.name gate;
                GateEvaluationResult.decision := fst (fst (decide cfg st));
                GateEvaluationResult.overall_score := overall_score_of st;
                GateEvaluationResult.passed := snd (fst (decide cfg st));
                GateEvaluationResult.rule_results := rule_results st;
                GateEvaluationResult.reason := snd (decide cfg st);
                GateEvaluationResult.recommendations := recommendations st |},
          db').
Proof.
  intros Hg Hc Hne Hk.
  destruct (gate_loop_runs rt context gate_id (Node.name gate)
              (select_rules db gate_id) initial_state Hk)
    as (st & Hrun & _).
  unfold evaluate_gate_on. rewrite Hg, Hc.
  destruct (select_rules db gate_id) as [|r0 rules] eqn:Hrules; [congruence|].
  rewrite Hrun.
  exists st.
  exists (match given execution_id with
          | Some e =>
              _log_gate_evaluation db e gate_id (rule_results st)
                (fst (fst (decide cfg st))) (overall_score_of st)
                (snd (decide cfg st))
          | None => db
          end).
  split; [reflexivity|].
  destruct (decide cfg st) as [[d p] reason]. reflexivity.
Qed.


Import Examples.

(** The details of a rule result are built inside the [try] of
    [evaluate_rule]: a condition that is true by a first branch, and whose
    other branch is not a condition, is recorded as failed with score 0. *)
Lemma snapshot_error_fails_true_condition :
  _evaluate_condition rt0 prd (condition title_or_junk) = Ok true
  /\ RuleEvaluationResult.passed (evaluate_rule rt0 title_or_junk prd) = false
  /\ RuleEvaluationResult.score (evaluate_rule rt0 title_or_junk prd) = 0
  /\ RuleEvaluationResult.reason (evaluate_rule rt0 title_or_junk prd)
     = EvaluationError TypeError.
Proof. repeat split. Qed.



(** When no rule kills, the result lists the evaluation of every rule. *)
Lemma evaluates_every_rule (rt : runtime) (db : database)
    (gate_id : string) (context : pyval) (execution_id : option string)
    (gate : Node.row) (cfg : node_config) :
  select_node db gate_id = Some gate ->
  Node.config gate = Some cfg ->
  (forall rule, In rule (select_rules db gate_id) ->
                kills rt context rule = false) ->
  exists res,
    fst (evaluate_gate_on rt db gate_id context execution_id) = Ok res
    /\ GateEvaluationResult.rule_results res
       = map (result_of rt context) (select_rules db gate_id).
Proof.
  intros Hg Hc Hk.
  destruct (select_rules db gate_id) as [|r0 rest] eqn:Hrules.
  - unfold evaluate_gate_on. rewrite Hg, Hc, Hrules.
    eexists. split; reflexivity.
  - destruct (evaluate_gate_on_runs rt db gate_id context execution_id gate cfg
                Hg Hc) as (st & db' & Hloop & Heval).
    { rewrite Hrules. discriminate. }
    { rewrite Hrules. exact Hk. }
    destruct (gate_loop_runs rt context gate_id (Node.name gate)
                (select_rules db gate_id) initial_state)
      as (st2 & Hrun & Hres & _).
    { rewrite Hrules. exact Hk. }
    rewrite Hloop in Hrun. injection Hrun as <-.
    rewrite Heval. eexists. split; [reflexivity|].
    cbn [GateEvaluationResult.rule_results]. rewrite Hres, Hrules. reflexivity.
Qed.



(** C3 (the code falls short of the claim).  On the auto-kill path
    [evaluate_gate] returns before [_log_gate_evaluation] is reached: with
    an execution id given, one rule is evaluated and the result is KILL, yet
    no row is added to [gate_evaluations] and none to [audit_log]. *)
Theorem auto_kill_is_not_logged (rt : runtime) :
  exists res,
    evaluate_gate rt (Some db_kill) "gate1" prd (Some "exec_1")
    = (Ok res, Some db_kill)
    /\ GateEvaluationResult.decision res = "KILL"
    /\ List.length (GateEvaluationResult.rule_results res) = 1%nat
    /\ gate_evaluations db_kill = []
    /\ audit_log db_kill = [].
Proof.
  eexists. split; [reflexivity|]. repeat split.
Qed.




End GateClaims.

(* ================================================================== *)
(** ** The agentic evaluator: field paths and validation *)
(* ================================================================== *)

Module EvaluatorClaims.
Import Py.
Import Examples.


(** C6 (the code falls short of the claim).  The validator accepts a
    comparison leaf with the operator IS NULL or IS NOT NULL and no value,
    as [field_is_null] builds it; the evaluator reads [node["value"]] before
    it looks at the operator and raises [KeyError] on that leaf, whatever
    the context. *)
Theorem validator_accepts_leaf_evaluator_rejects (rt : runtime) (field : pyval) :
  let is_null := PDict [("field", field); ("operator", PStr "IS NULL")] in
  let is_not_null := PDict [("field", field); ("operator", PStr "IS NOT NULL")] in
  AgenticBRE.validate_rule_syntax is_null = (true, None)
  /\ AgenticBRE.validate_rule_syntax is_not_null = (true, None)
  /\ (forall context,
        AgenticBRE.evaluate rt is_null (PDict context)
        = Raise (ExpressionEvaluationFailed (KeyError (PStr "value"))))
  /\ (forall context,
        AgenticBRE.evaluate rt is_not_null (PDict context)
        = Raise (ExpressionEvaluationFailed (KeyError (PStr "value"))))
  /\ (forall context, exists e, AgenticBRE.evaluate rt is_null context = Raise e).
Proof.
  repeat split.
  intros context. destruct context; eexists; reflexivity.
Qed.

End EvaluatorClaims.

(* ================================================================== *)
(** ** The workflow patterns of the agentic orchestrator *)
(* ================================================================== *)

Module PatternClaims.
Import Py.
Import AgenticOrchestrator.
Import Notions.
Import Examples.

Section Parallel.
Context {St : Type}.
Context (get_child_nodes : string -> St -> list Node.row).
Context (execute_node : string -> string -> pyval -> M St NodeExecutionResult).
Context (execution_id : string) (input_data : pyval).

(** Every task of [gather] is run: the calls are the children in order,
    all with the same input. *)
Lemma gather_calls (children : list Node.row) :
  forall st log,
    exists outcomes st',
      gather (tasks_of (traced execute_node) execution_id input_data children)
        (st, log)
      = (outcomes,
         (st', (log ++ map (fun co => (Node.node_id (fst co), input_data, snd co))
                         (combine children outcomes))%list))
      /\ List.length outcomes = List.length children.
Proof.
  induction children as [|c rest IH]; intros st log.
  - exists [], st. cbn. rewrite app_nil_r. split; reflexivity.
  - cbn [tasks_of map gather]. unfold traced at 1. cbn [fst snd].
    destruct (execute_node execution_id (Node.node_id c) input_data st)
      as [o st1] eqn:Ho.
    destruct (IH st1 (log ++ [(Node.node_id c, input_data, o)])%list)
      as (outcomes & st' & Hg & Hlen).
    fold (tasks_of (traced execute_node) execution_id input_data rest).
    rewrite Hg.
    exists (o :: outcomes), st'. split.
    + cbn [combine map fst snd]. rewrite <- app_assoc. reflexivity.
    + cbn [List.length]. rewrite Hlen. reflexivity.
Qed.

Lemma successful_length (outcomes : list (res NodeExecutionResult)) :
  List.length (successful outcomes)
  = List.length (filter completed_outcome outcomes).
Proof.
  induction outcomes as [|[r|e] rest IH]; cbn [successful filter completed_outcome].
  - reflexivity.
  - unfold completed. destruct (status_eqb (status r) COMPLETED);
      cbn [List.length]; rewrite IH; reflexivity.
  - exact IH.
Qed.

End Parallel.

(** C8.  A parallelization node calls [execute_node] on every child, in
    order and with the same input, whether or not a sibling failed; its
    output has [total_count] equal to the number of children and
    [success_count] equal to the number of children that came back
    completed, with their outputs under [parallel_results].  With children
    [A; B], [A] completed and [B] failed, this is [success_count] 1,
    [total_count] 2 and the output of [A]. *)
Theorem parallel_children_all_run {St : Type}
    (get_child_nodes : string -> St -> list Node.row)
    (execute_node : string -> string -> pyval -> M St NodeExecutionResult)
    (execution_id node_id : string) (input_data : pyval) (st : St) :
  let children := get_child_nodes node_id st in
  (exists outcomes r st',
      _execute_parallelization (on_store get_child_nodes) (traced execute_node)
        execution_id node_id input_data (st, [])
      = (Ok r,
         (st', map (fun co => (Node.node_id (fst co), input_data, snd co))
                 (combine children outcomes)))
      /\ List.length outcomes = List.length children
      /\ output_data r
         = PDict [("parallel_results",
                   PList (map output_data (successful outcomes)));
                  ("success_count",
                   PInt (Z.of_nat
                           (List.length (filter completed_outcome outcomes))));
                  ("total_count", PInt (Z.of_nat (List.length children)))]
      /\ child_results r = Some (successful outcomes))
  /\ (forall A B rA st1 oB st2,
        children = [A; B] ->
        execute_node execution_id (Node.node_id A) input_data st = (Ok rA, st1) ->
        completed rA = true ->
        execute_node execution_id (Node.node_id B) input_data st1 = (oB, st2) ->
        completed_outcome oB = false ->
        exists r,
          _execute_parallelization get_child_nodes execute_node
            execution_id node_id input_data st = (Ok r, st2)
          /\ output_data r
             = PDict [("parallel_results", PList [output_data rA]);
                      ("success_count", PInt 1);
                      ("total_count", PInt 2)]).
Proof.
  intros children. split.
  - destruct (gather_calls execute_node execution_id input_data children st [])
      as (outcomes & st' & Hg & Hlen).
    exists outcomes. eexists. exists st'.
    unfold _execute_parallelization, bindM, gets, on_store, ret. cbn [fst].
    fold children.
    fold (tasks_of (traced execute_node) execution_id input_data children).
    rewrite Hg. cbn [app].
    split; [reflexivity|]. split; [exact Hlen|].
    cbn [output_data child_results].
    rewrite successful_length, Hlen. split; reflexivity.
  - intros A B rA st1 oB st2 Hc HA HcA HB HcB.
    unfold _execute_parallelization, bindM, gets, ret.
    fold children. rewrite Hc. cbn [map gather]. rewrite HA, HB.
    eexists. split; [reflexivity|].
    cbn [output_data successful]. unfold completed in HcA. rewrite HcA.
    destruct oB as [rB|e]; cbn [completed_outcome] in HcB.
    + unfold completed in HcB. cbn [successful]. rewrite HcB. reflexivity.
    + reflexivity.
Qed.

(** C8, an input of [parallel_children_all_run]: of the children [A; B]
    the second raises. *)
Lemma parallel_children_all_run_witness :
  exists r,
    _execute_parallelization (children_of ["A"; "B"]) (fails_at "B")
      "exec_1" "par" (PStr "in") tt = (Ok r, tt)
    /\ output_data r
       = PDict [("parallel_results",
                 PList [PList [PStr "A"; PStr "in"]]);
                ("success_count", PInt 1);
                ("total_count", PInt 2)].
Proof.
  destruct (parallel_children_all_run (children_of ["A"; "B"]) (fails_at "B")
              "exec_1" "par" (PStr "in") tt) as [_ H].
  apply (H (child "A") (child "B")
           (done "A" (PList [PStr "A"; PStr "in"])) tt
           (Raise (ValueError "No agents available for task execution" PNone)) tt);
    reflexivity.
Defined.

Section Chain.
Context {St : Type}.
Context (execute_node : string -> string -> pyval -> M St NodeExecutionResult).
Context (execution_id : string).

(** The loop of the chain calls the children as [chain_calls] says and
    hands back the results of the calls and the last completed output. *)
Lemma chain_makes_chain_calls (children : list Node.row) :
  forall current results st log,
    exists calls out st',
      chain (traced execute_node) execution_id children current results (st, log)
      = (out, (st', (log ++ calls)%list))
      /\ chain_calls current children calls
      /\ match out with
         | Ok cr =>
             fst cr = last_output current calls
             /\ snd cr = (results ++ returned calls)%list
         | Raise e => exists c i, In (c, i, Raise e) calls
         end.
Proof.
  induction children as [|child rest IH]; intros current results st log.
  - exists [], (Ok (current, results)), st. cbn. rewrite !app_nil_r.
    repeat split. constructor.
  - cbn [chain]. unfold bindM at 1. unfold traced at 1. cbn [fst snd].
    destruct (execute_node execution_id (Node.node_id child) current st)
      as [[r|e] st1] eqn:Hcall.
    + destruct (status_eqb (status r) COMPLETED) eqn:Hs; cbn [negb].
      * destruct (IH (output_data r) (results ++ [r])%list st1
                    (log ++ [(Node.node_id child, current, Ok r)])%list)
          as (calls & out & st' & Hrun & Hcalls & Hout).
        rewrite Hrun.
        exists ((Node.node_id child, current, Ok r) :: calls), out, st'.
        split; [rewrite <- app_assoc; reflexivity|].
        split; [apply chain_step; assumption|].
        destruct out as [cr|e].
        -- cbn [last_output returned]. unfold completed. rewrite Hs.
           destruct Hout as [H1 H2]. split; [exact H1|].
           rewrite H2, <- app_assoc. reflexivity.
        -- destruct Hout as (c & i & Hin). exists c, i. right. exact Hin.
      * exists [(Node.node_id child, current, Ok r)],
          (Ok (current, (results ++ [r])%list)), st1.
        split; [reflexivity|].
        split; [apply chain_stop; cbn; unfold completed; rewrite Hs; reflexivity|].
        cbn [last_output returned fst snd]. unfold completed. rewrite Hs.
        split; reflexivity.
    + exists [(Node.node_id child, current, Raise e)], (Raise e), st1.
      split; [reflexivity|].
      split; [apply chain_stop; reflexivity|].
      exists (Node.node_id child), current. left. reflexivity.
Qed.

End Chain.

Section Run.
Context {St : Type}.
Context (self_execute : string -> string -> M St pyval).
Context (execution_id : string).

(** The loop of the quality-gate orchestrator calls the children in order
    up to the first call that raises. *)
Lemma run_in_order_makes_run_calls (children : list QualityGateBRE.Node.row) :
  forall result st log,
    exists calls out st',
      QualityGateOrchestrator.run_in_order (traced2 self_execute) execution_id
        children result (st, log)
      = (out, (st', (log ++ calls)%list))
      /\ run_calls execution_id children calls
      /\ match out with
         | Ok _ => List.length calls = List.length children
         | Raise e => exists c, In (c, execution_id, Raise e) calls
         end.
Proof.
  induction children as [|child rest IH]; intros result st log.
  - exists [], (Ok result), st. cbn. rewrite app_nil_r.
    repeat split. constructor.
  - cbn [QualityGateOrchestrator.run_in_order].
    unfold bindM at 1. unfold traced2 at 1. cbn [fst snd].
    destruct (self_execute (QualityGateBRE.Node.node_id child) execution_id st)
      as [[v|e] st1] eqn:Hcall.
    + destruct (IH v st1
                  (log ++ [(QualityGateBRE.Node.node_id child, execution_id, Ok v)])%list)
        as (calls & out & st' & Hrun & Hcalls & Hout).
      rewrite Hrun.
      exists ((QualityGateBRE.Node.node_id child, execution_id, Ok v) :: calls),
        out, st'.
      split; [rewrite <- app_assoc; reflexivity|].
      split; [apply run_step; assumption|].
      destruct out as [v'|e].
      * cbn [List.length]. rewrite Hout. reflexivity.
      * destruct Hout as (c & Hin). exists c. right. exact Hin.
    + exists [(QualityGateBRE.Node.node_id child, execution_id, Raise e)],
        (Raise e), st1.
      split; [reflexivity|].
      split; [apply run_raise|].
      exists (QualityGateBRE.Node.node_id child). left. reflexivity.
Qed.

End Run.

(** C7 (as amended).  In the agentic orchestrator a prompt-chaining node
    calls its children in sibling order, the first with the input of the
    node and each next one with the output of the one before, and stops at
    the first call that does not come back completed; with children
    [A :: rest] and [A] failing, [A] is the only child called.  In the
    quality-gate orchestrator the prompt-chaining branch of
    [_execute_control_flow_node] is the loop [run_in_order], which calls the
    children in sibling order up to the first call that raises and gives a
    call the node and the execution only. *)
Theorem chain_calls_children_in_order {St St2 : Type}
    (get_child_nodes : string -> St -> list Node.row)
    (execute_node : string -> string -> pyval -> M St NodeExecutionResult)
    (self_execute : string -> string -> M St2 pyval)
    (execution_id node_id : string) (input_data : pyval) (st : St) :
  let children := get_child_nodes node_id st in
  (exists calls out st',
      _execute_prompt_chaining (on_store get_child_nodes) (traced execute_node)
        execution_id node_id input_data (st, [])
      = (out, (st', calls))
      /\ chain_calls input_data children calls
      /\ match out with
         | Ok r =>
             status r = COMPLETED
             /\ output_data r = last_output input_data calls
             /\ child_results r = Some (returned calls)
         | Raise e => exists c i, In (c, i, Raise e) calls
         end)
  /\ (forall A rest oA st1,
        children = A :: rest ->
        execute_node execution_id (Node.node_id A) input_data st = (oA, st1) ->
        completed_outcome oA = false ->
        snd (_execute_prompt_chaining (on_store get_child_nodes)
               (traced execute_node) execution_id node_id input_data (st, []))
        = (st1, [(Node.node_id A, input_data, oA)]))
  /\ (forall children2 result st2,
        exists calls out st',
          QualityGateOrchestrator.run_in_order (traced2 self_execute)
            execution_id children2 result (st2, [])
          = (out, (st', calls))
          /\ run_calls execution_id children2 calls
          /\ match out with
             | Ok _ => List.length calls = List.length children2
             | Raise e => exists c, In (c, execution_id, Raise e) calls
             end)
  /\ (forall execute (node : QualityGateBRE.Node.row) cfg db,
        QualityGateBRE.pattern cfg = None
        \/ QualityGateBRE.pattern cfg = Some "prompt_chaining" ->
        QualityGateOrchestrator._execute_control_flow_node execute node
          execution_id cfg db
        = QualityGateOrchestrator.run_in_order execute execution_id
            (QualityGateOrchestrator._get_child_nodes
               (QualityGateBRE.Node.node_id node) db)
            (PDict []) db).
Proof.
  intros children. split; [|split; [|split]].
  - destruct (chain_makes_chain_calls execute_node execution_id children
                input_data [] st [])
      as (calls & out & st' & Hrun & Hcalls & Hout).
    unfold _execute_prompt_chaining, bindM, gets, on_store. cbn [fst].
    fold children. rewrite Hrun. cbn [app].
    destruct out as [cr|e].
    + eexists calls, (Ok _), st'. split; [reflexivity|].
      split; [exact Hcalls|].
      destruct Hout as [H1 H2]. cbn [status output_data child_results].
      rewrite H1, H2. repeat split.
    + exists calls, (Raise e), st'. repeat split; assumption.
  - intros A rest oA st1 Hc HA HoA.
    unfold _execute_prompt_chaining, bindM, gets, on_store. cbn [fst].
    fold children. rewrite Hc. cbn [chain].
    unfold bindM at 1. unfold traced at 1. cbn [fst snd]. rewrite HA.
    destruct oA as [r|e].
    + cbn in HoA. unfold completed in HoA. rewrite HoA. reflexivity.
    + reflexivity.
  - intros children2 result st2.
    destruct (run_in_order_makes_run_calls self_execute execution_id children2
                result st2 [])
      as (calls & out & st' & Hrun & Hcalls & Hout).
    exists calls, out, st'. repeat split; assumption.
  - intros execute node cfg db Hp.
    unfold QualityGateOrchestrator._execute_control_flow_node, bindM, gets.
    destruct Hp as [-> | ->]; reflexivity.
Qed.

(** C7, an input of [chain_calls_children_in_order]: with children
    [A; B; C] and [A] raising, the only call made is the one of [A]. *)
Lemma chain_calls_children_in_order_witness :
  snd (_execute_prompt_chaining (on_store (children_of ["A"; "B"; "C"]))
         (traced (fails_at "A")) "exec_1" "chain" (PStr "in") (tt, []))
  = (tt, [("A", PStr "in",
           Raise (ValueError "No agents available for task execution" PNone))]).
Proof.
  destruct (chain_calls_children_in_order (St2 := unit)
              (children_of ["A"; "B"; "C"]) (fails_at "A") (raises_at "A")
              "exec_1" "chain" (PStr "in") tt) as (_ & H & _).
  apply (H (child "A") [child "B"; child "C"]); reflexivity.
Defined.

(** C7, counterexample.  In the quality-gate orchestrator the agent [B]
    that follows [A] in a prompt chain is not given the output of [A]: [A]
    returns its review, nothing reaches the working memory, and the input
    that [B] builds from the working memory is empty. *)
Lemma chain_counterexample :
  exists review generic db',
    QualityGateOrchestrator._execute_node rt0 3 "P" "exec_1" db_chain
    = (Ok generic, db')
    /\ QualityGateBRE.node_executions db'
       = [ {| QualityGateBRE.ne_execution_id := "exec_1";
              QualityGateBRE.ne_node_id := "P";
              QualityGateBRE.ne_status := "completed";
              QualityGateBRE.ne_output_data := Some generic |};
           {| QualityGateBRE.ne_execution_id := "exec_1";
              QualityGateBRE.ne_node_id := "A";
              QualityGateBRE.ne_status := "completed";
              QualityGateBRE.ne_output_data := Some (PDict review) |};
           {| QualityGateBRE.ne_execution_id := "exec_1";
              QualityGateBRE.ne_node_id := "B";
              QualityGateBRE.ne_status := "completed";
              QualityGateBRE.ne_output_data := Some generic |} ]
    /\ dict_has "technical_review" review = true
    /\ QualityGateBRE.working_memory db' = []
    /\ QualityGateOrchestrator.select_inputs ["technical_review"]
         (QualityGateOrchestrator._get_working_memory "exec_1" db') []
       = [].
Proof.
  eexists _, _, _. split; [vm_compute; reflexivity|].
  repeat split.
Qed.

Section AllZero.
Context {St : Type}.
Context (execute_node : string -> string -> pyval -> M St NodeExecutionResult).
Context (execution_id : string) (generator evaluator : Node.row).
Context (input_data threshold : pyval) (t : Q).
Hypothesis threshold_is_positive : as_number threshold = Some t /\ 0 < t.
Hypothesis generator_returns :
  forall inp s, exists r s',
    execute_node execution_id (Node.node_id generator) inp s = (Ok r, s').
Hypothesis evaluator_scores_zero :
  forall inp s, exists r s',
    execute_node execution_id (Node.node_id evaluator) inp s = (Ok r, s')
    /\ zero_score (output_data r).

(** With every score 0 against a positive threshold the loop runs all its
    rounds and the best result stays as it was set before the loop. *)
Lemma optimize_all_zero (n : nat) :
  forall i iterations st,
    exists more st',
      optimize execute_node n i execution_id generator evaluator input_data
        threshold (PNone, PInt 0) iterations st
      = (Ok ((PNone, PInt 0), (iterations ++ more)%list), st')
      /\ List.length more = n.
Proof.
  destruct threshold_is_positive as [Ht Hpos].
  induction n as [|n IH]; intros i iterations st.
  - exists [], st. cbn. rewrite app_nil_r. split; reflexivity.
  - cbn [optimize]. unfold bindM at 1.
    destruct (generator_returns input_data st) as (g & s1 & Hg). rewrite Hg.
    unfold bindM at 1.
    destruct (evaluator_scores_zero (output_data g) s1)
      as (e & s2 & He & v & z & Hv & Hz & Hzero).
    rewrite He. unfold bindM at 1, lift at 1. rewrite Hv.
    unfold bindM at 1, lift at 1, track_best. cbn [snd].
    rewrite (QFacts.py_order_numbers OpGt v (PInt 0) z (inject_Z 0) Hz eq_refl).
    cbn [bind cmp_Q].
    assert (Hnot : Qlt_bool (inject_Z 0) z = false).
    { destruct (Qlt_bool (inject_Z 0) z) eqn:E; [|reflexivity].
      apply QFacts.Qlt_bool_iff in E. rewrite Hzero in E.
      exfalso. exact (Qlt_irrefl _ E). }
    rewrite Hnot.
    unfold bindM at 1, lift at 1.
    rewrite (QFacts.py_order_numbers OpGe v threshold z t Hz Ht).
    cbn [cmp_Q].
    assert (Hbelow : Qle_bool t z = false).
    { apply QFacts.Qle_bool_false. rewrite Hzero. exact Hpos. }
    rewrite Hbelow.
    match goal with
    | |- context [optimize _ n ?j _ _ _ _ _ _ ?its s2] =>
        destruct (IH j its s2) as (more & st' & Hrun & Hlen)
    end.
    rewrite Hrun. eexists (_ :: more), st'.
    split; [rewrite <- app_assoc; reflexivity|].
    cbn [List.length]. rewrite Hlen. reflexivity.
Qed.

End AllZero.




End PatternClaims.

(* ================================================================== *)
(** ** The node walk of the quality-gate orchestrator *)
(* ================================================================== *)

Module WalkClaims.
Import Py.
Import QualityGateBRE.
Import QualityGateOrchestrator.
Import Examples.

(** The engine neither reads nor writes [node_executions]. *)
Lemma evaluate_gate_on_node_executions (rt : runtime) (db : database)
    (l : list node_execution_row) (gate_id : string) (context : pyval)
    (execution_id : option string) :
  evaluate_gate_on rt (with_node_executions db l) gate_id context execution_id
  = (fst (evaluate_gate_on rt db gate_id context execution_id),
     with_node_executions
       (snd (evaluate_gate_on rt db gate_id context execution_id)) l).
Proof.
  unfold evaluate_gate_on.
  change (select_node (with_node_executions db l) gate_id)
    with (select_node db gate_id).
  change (select_rules (with_node_executions db l) gate_id)
    with (select_rules db gate_id).
  destruct (select_node db gate_id) as [gate|]; [|reflexivity].
  destruct (Node.config gate) as [cfg|]; [|reflexivity].
  destruct (select_rules db gate_id) as [|r0 rules]; [reflexivity|].
  destruct (gate_loop rt gate_id (Node.name gate) context (r0 :: rules)
              initial_state) as [killed|st]; [reflexivity|].
  destruct (decide cfg st) as [[d p] reason].
  destruct (given execution_id); reflexivity.
Qed.

Lemma update_nth_last {A : Type} (f : A -> A) (l : list A) (x : A) :
  update_nth (List.length l) f (l ++ [x])%list = (l ++ [f x])%list.
Proof.
  induction l as [|y l IH]; [reflexivity|].
  cbn [List.length app update_nth]. rewrite IH. reflexivity.
Qed.

Lemma select_node_id (db : database) (node_id : string) (node : Node.row) :
  select_node db node_id = Some node -> Node.node_id node = node_id.
Proof.
  unfold select_node. intros H. apply find_some in H.
  destruct H as [_ H]. apply String.eqb_eq in H. exact H.
Qed.



End WalkClaims.

(* ================================================================== *)
(** ** The examples of the spec, run on the embedding *)
(* ================================================================== *)

Module SpecExamples.
Import Py.
Import Examples.

Example length_of_list :
  QualityGateBRE._get_field_value rt0 (PStr "a.b.length")
    (PDict [("a", PDict [("b", PList [PInt 1; PInt 2; PInt 3])])])
  = Ok (PInt 3).
Proof. reflexivity. Qed.

Example length_of_absent :
  QualityGateBRE._get_field_value rt0 (PStr "a.b.length")
    (PDict [("a", PDict [])])
  = Ok (PInt 0).
Proof. reflexivity. Qed.

Example absent_path :
  QualityGateBRE._get_field_value rt0 (PStr "x.y") (PDict []) = Ok PNone.
Proof. reflexivity. Qed.

Example indexed_path :
  AgenticBRE._get_field_value (PStr "items[0].id")
    (PDict [("items", PList [PDict [("id", PInt 7)]])])
  = Ok (PInt 7).
Proof. reflexivity. Qed.

Example coerced_comparison :
  AgenticBRE.evaluate rt0
    (PDict [("field", PStr "user.age"); ("operator", PStr ">=");
            ("value", PInt 18)])
    (PDict [("user", PDict [("age", PStr "25")])])
  = Ok true.
Proof. reflexivity. Qed.

Example no_rules_is_go :
  exists res,
    QualityGateBRE.evaluate_gate_on rt0
      (tables [gate_node "gate1" QualityGateBRE.empty_config] [])
      "gate1" prd None
    = (Ok res, tables [gate_node "gate1" QualityGateBRE.empty_config] [])
    /\ QualityGateBRE.GateEvaluationResult.decision res = "GO"
    /\ QualityGateBRE.GateEvaluationResult.overall_score res = 100
    /\ QualityGateBRE.GateEvaluationResult.rule_results res = [].
Proof. eexists. split; [reflexivity|]. repeat split. Qed.

Example optimizer_stops_at_threshold :
  exists r,
    AgenticOrchestrator._execute_evaluator_optimizer (children_at ["G"; "E"])
      improves "exec_1" "opt" (PStr "in") three_iterations 0%nat
    = (Ok r, 2%nat)
    /\ dict_get "best_result" (match AgenticOrchestrator.output_data r with
                               | PDict d => d
                               | _ => []
                               end)
       = Some (PDict [("draft", PInt 1)])
    /\ dict_get "total_iterations" (match AgenticOrchestrator.output_data r with
                                    | PDict d => d
                                    | _ => []
                                    end)
       = Some (PInt 2).
Proof. eexists. split; [vm_compute; reflexivity|]. split; reflexivity. Qed.

End SpecExamples.

(* ================================================================== *)
(** ** Conditions: how the two evaluators compose *)
(* ================================================================== *)

Module ConditionFacts.
Import Py.
Import Examples.

Section QualityGate.
Import QualityGateBRE.
Context (rt : runtime) (context : pyval).

Lemma condition_all_of (l : list pyval) :
  _evaluate_condition rt context (all_of l)
  = all_lazy (_evaluate_condition rt context) l.
Proof. reflexivity. Qed.

Lemma condition_any_of (l : list pyval) :
  _evaluate_condition rt context (any_of l)
  = any_lazy (_evaluate_condition rt context) l.
Proof. reflexivity. Qed.

Lemma condition_none_of (c : pyval) :
  _evaluate_condition rt context (none_of c)
  = bind (_evaluate_condition rt context c) (fun r => Ok (negb r)).
Proof. reflexivity. Qed.

(** X1.  De Morgan's laws hold for the conditions that [all_of], [any_of]
    and [none_of] build, errors included: negating a conjunction gives what
    the disjunction of the negated children gives, and negating a disjunction
    what the conjunction of the negated children gives, whether a child
    evaluates to a boolean or raises. *)
Theorem none_of_distributes (l : list pyval) :
  _evaluate_condition rt context (none_of (all_of l))
  = _evaluate_condition rt context (any_of (map none_of l))
  /\ _evaluate_condition rt context (none_of (any_of l))
     = _evaluate_condition rt context (all_of (map none_of l)).
Proof.
  rewrite !condition_none_of, !condition_all_of, !condition_any_of.
  split.
  - induction l as [|c l IH]; [reflexivity|].
    cbn [all_lazy any_lazy map]. rewrite condition_none_of.
    destruct (_evaluate_condition rt context c) as [[|]|e]; cbn [bind negb];
      [exact IH | reflexivity | reflexivity].
  - induction l as [|c l IH]; [reflexivity|].
    cbn [all_lazy any_lazy map]. rewrite condition_none_of.
    destruct (_evaluate_condition rt context c) as [[|]|e]; cbn [bind negb];
      [reflexivity | exact IH | reflexivity].
Qed.

(** X2.  A conjunction is decided by its first child that does not
    evaluate to true, and a disjunction by its first child that does not
    evaluate to false: the result, a boolean or an exception, is that
    child's, and the children after it are not evaluated, so that nothing
    is asked of them. *)
Theorem first_decisive_child_decides (pre post : list pyval) (c : pyval) :
  (Forall (fun p => _evaluate_condition rt context p = Ok true) pre ->
   _evaluate_condition rt context c <> Ok true ->
   _evaluate_condition rt context (all_of (pre ++ c :: post))
   = _evaluate_condition rt context c)
  /\ (Forall (fun p => _evaluate_condition rt context p = Ok false) pre ->
      _evaluate_condition rt context c <> Ok false ->
      _evaluate_condition rt context (any_of (pre ++ c :: post))
      = _evaluate_condition rt context c).
Proof.
  rewrite condition_all_of, condition_any_of. split; intros Hpre Hc.
  - induction Hpre as [|p pre Hp _ IH]; cbn [app all_lazy].
    + destruct (_evaluate_condition rt context c) as [[|]|e]; cbn [bind];
        [congruence | reflexivity | reflexivity].
    + rewrite Hp. exact IH.
  - induction Hpre as [|p pre Hp _ IH]; cbn [app any_lazy].
    + destruct (_evaluate_condition rt context c) as [[|]|e]; cbn [bind];
        [reflexivity | congruence | reflexivity].
    + rewrite Hp. exact IH.
Qed.


Lemma length_append (s t : string) :
  String.length (s ++ t) = (String.length s + String.length t)%nat.
Proof. induction s as [|c s IH]; cbn; [reflexivity | rewrite IH; reflexivity]. Qed.

Lemma substring_prefix (s t : string) :
  String.substring 0 (String.length s) (s ++ t) = s.
Proof. induction s as [|c s IH]; cbn; [destruct t; reflexivity | rewrite IH; reflexivity]. Qed.

Lemma substring_suffix (s t : string) :
  String.substring (String.length s) (String.length t) (s ++ t) = t.
Proof.
  induction s as [|c s IH]; cbn; [|exact IH].
  induction t as [|c t IH]; cbn; [reflexivity | rewrite IH; reflexivity].
Qed.

Lemma endswith_append (s t : string) : endswith (s ++ t) t = true.
Proof.
  unfold endswith. rewrite length_append.
  replace (String.length s + String.length t - String.length t)%nat
    with (String.length s) by lia.
  rewrite substring_suffix, String.eqb_refl.
  apply andb_true_iff. split; [apply Nat.leb_le; lia | reflexivity].
Qed.


End QualityGate.

(** the conjunction with a child after the deciding one that no evaluator
    accepts *)
Lemma first_decisive_child_decides_witness :
  QualityGateBRE._evaluate_condition rt0 prd
    (QualityGateBRE.all_of
       ([field_is_not_null "title"] ++ field_is_not_null "owner" :: [malformed]))
  = Ok false.
Proof.
  rewrite (proj1 (first_decisive_child_decides rt0 prd
                    [field_is_not_null "title"] [malformed]
                    (field_is_not_null "owner"))).
  - reflexivity.
  - constructor; [reflexivity | constructor].
  - discriminate.
Defined.

Section Agentic.
Import AgenticBRE.
Context (rt : runtime) (context : pyval).

Lemma node_and (l : list pyval) :
  _evaluate_node rt context (PDict [("AND", PList l)])
  = bind (map_res (_evaluate_node rt context) l)
      (fun results => Ok (forallb (fun b => b) results)).
Proof. reflexivity. Qed.

Lemma node_or (l : list pyval) :
  _evaluate_node rt context (PDict [("OR", PList l)])
  = bind (map_res (_evaluate_node rt context) l)
      (fun results => Ok (existsb (fun b => b) results)).
Proof. reflexivity. Qed.

Lemma map_res_raises {A B : Type} (f : A -> res B) (pre post : list A) (c : A)
    (e : exn) :
  (forall p, In p pre -> exists b, f p = Ok b) ->
  f c = Raise e ->
  map_res f (pre ++ c :: post) = Raise e.
Proof.
  intros Hpre Hc. induction pre as [|p pre IH]; cbn [app map_res].
  - rewrite Hc. reflexivity.
  - destruct (Hpre p (or_introl eq_refl)) as [b Hb]. rewrite Hb. cbn [bind].
    rewrite IH; [reflexivity|]. intros q Hq. apply Hpre. right. exact Hq.
Qed.

(** X5.  The agentic evaluator evaluates every child of an AND or OR node
    before it combines the results: when a child raises and the children
    before it evaluate, to whatever booleans, the node raises that child's
    exception, also when an earlier child alone would decide the result. *)
Theorem every_child_is_evaluated (pre post : list pyval) (c : pyval) (e : exn) :
  (forall p, In p pre -> exists b, _evaluate_node rt context p = Ok b) ->
  _evaluate_node rt context c = Raise e ->
  _evaluate_node rt context (PDict [("AND", PList (pre ++ c :: post))]) = Raise e
  /\ _evaluate_node rt context (PDict [("OR", PList (pre ++ c :: post))]) = Raise e.
Proof.
  intros Hpre Hc. rewrite node_and, node_or.
  rewrite (map_res_raises _ pre post c e Hpre Hc). split; reflexivity.
Qed.

(** X6.  An IN node whose field name is not empty and the NOT IN node on
    the same field and values give opposite results and raise alike; when
    [values] is left out the field is looked up in the empty list, so that
    IN is false whenever the field resolves. *)
Theorem membership_nodes_are_opposite (field values : pyval) :
  truthy field = true ->
  _evaluate_node rt context (PDict [("NOT IN", field); ("values", values)])
  = bind (_evaluate_node rt context (PDict [("IN", field); ("values", values)]))
      (fun b => Ok (negb b))
  /\ _evaluate_node rt context (PDict [("IN", field)])
     = bind (_get_field_value field context) (fun _ => Ok false).
Proof.
  intros Hf. split.
  - cbn. rewrite Hf. cbn.
    destruct (_get_field_value field context) as [actual|e]; cbn; [|reflexivity].
    destruct (py_in actual values) as [b|e]; reflexivity.
  - cbn. rewrite Hf. cbn.
    destruct (_get_field_value field context) as [actual|e]; reflexivity.
Qed.

(** X7.  On a field that resolves to [None] the agentic CONTAINS searches
    the substring in the text [None] and MATCHES tests the pattern against
    the text [None], where the quality-gate MATCHES is false without the
    pattern being compiled. *)
Theorem absent_field_is_the_text_None (field : string) (sub pattern : string) :
  _get_field_value (PStr field) context = Ok PNone ->
  _evaluate_node rt context
    (PDict [("CONTAINS", PDict [("field", PStr field); ("value", PStr sub)])])
  = Ok (contains_sub sub "None")
  /\ _evaluate_node rt context
       (PDict [("MATCHES", PDict [("field", PStr field); ("pattern", PStr pattern)])])
     = try_except (py_re_match rt (PStr pattern) "None")
         (fun e => Raise (PatternMatchFailed e)).
Proof.
  intros Habs. split.
  - cbn -[contains_sub _get_field_value]. rewrite Habs. reflexivity.
  - cbn -[_get_field_value py_re_match]. rewrite Habs. reflexivity.
Qed.

End Agentic.

(** AND of a false child and a malformed one: the agentic evaluator raises *)
Lemma every_child_is_evaluated_witness :
  AgenticBRE._evaluate_node rt0 prd
    (PDict [("AND", PList ([QualityGateBRE.field_equals "owner" (PStr "x")]
                            ++ malformed :: []))])
  = Raise (RuleEvaluationError "Unknown expression node type: " malformed)
  /\ QualityGateBRE._evaluate_condition rt0 prd
       (QualityGateBRE.all_of [QualityGateBRE.field_equals "owner" (PStr "x");
                               malformed])
     = Ok false.
Proof.
  split; [|reflexivity].
  apply (every_child_is_evaluated rt0 prd
           [QualityGateBRE.field_equals "owner" (PStr "x")] [] malformed).
  - intros p [<-|[]]. exists false. reflexivity.
  - reflexivity.
Defined.

Lemma membership_nodes_are_opposite_witness :
  AgenticBRE._evaluate_node rt0 prd
    (PDict [("NOT IN", PStr "title"); ("values", PList [PStr "PRD"])])
  = Ok false.
Proof.
  rewrite (proj1 (membership_nodes_are_opposite rt0 prd (PStr "title")
                    (PList [PStr "PRD"]) eq_refl)).
  reflexivity.
Defined.

Lemma absent_field_is_the_text_None_witness :
  AgenticBRE._evaluate_node rt0 prd
    (PDict [("CONTAINS", PDict [("field", PStr "owner"); ("value", PStr "on")])])
  = Ok true.
Proof.
  rewrite (proj1 (absent_field_is_the_text_None rt0 prd "owner" "on" "x" eq_refl)).
  reflexivity.
Defined.

End ConditionFacts.

(* ================================================================== *)
(** ** The validator of the agentic engine *)
(* ================================================================== *)

Module ValidatorFacts.
Import Py.
Import AgenticBRE.
Import Notions.

(** Induction on a value with the hypothesis for every element of a list
    and every value of a dict. *)
Lemma pyval_nested_ind (P : pyval -> Prop) :
  P PNone -> (forall b, P (PBool b)) -> (forall z, P (PInt z)) ->
  (forall q, P (PFloat q)) -> (forall s, P (PStr s)) ->
  (forall l, Forall P l -> P (PList l)) ->
  (forall d, Forall (fun kv => P (snd kv)) d -> P (PDict d)) ->
  forall v, P v.
Proof.
  intros HNone HBool HInt HFloat HStr HList HDict.
  fix IH 1. intros [ | b | z | q | s | l | d ].
  - exact HNone.
  - apply HBool.
  - apply HInt.
  - apply HFloat.
  - apply HStr.
  - apply HList. induction l as [|x l IHl]; constructor; [apply IH | exact IHl].
  - apply HDict. induction d as [|[k v] d IHd]; constructor; [apply IH | exact IHd].
Qed.

Lemma dict_find_get {A : Type} (f : pyval -> A) (k : string)
    (d : list (string * pyval)) :
  dict_find f k d = option_map f (dict_get k d).
Proof.
  induction d as [|[k' v] d IH]; cbn; [reflexivity|].
  destruct (String.eqb k' k); [reflexivity | exact IH].
Qed.

Lemma dict_get_Forall (P : pyval -> Prop) (k : string) (v : pyval)
    (d : list (string * pyval)) :
  Forall (fun kv => P (snd kv)) d -> dict_get k d = Some v -> P v.
Proof.
  induction 1 as [|[k' v'] d Hv _ IH]; cbn; [discriminate|].
  destruct (String.eqb k' k); [|exact IH].
  intros [= <-]. exact Hv.
Qed.

Lemma for_each_ok (f : pyval -> res unit) (l : list pyval) :
  for_each f l = Ok tt <-> Forall (fun x => f x = Ok tt) l.
Proof.
  induction l as [|x l IH]; cbn [for_each].
  - split; [constructor | reflexivity].
  - split.
    + destruct (f x) as [[]|e] eqn:E; cbn [bind]; [|discriminate].
      intros H. constructor; [exact E | apply IH; exact H].
    + intros H. inversion H as [|? ? Hx Hl]; subst. rewrite Hx. cbn [bind].
      apply IH. exact Hl.
Qed.

Lemma comparison_op_is_no_null_check (op : string) (c : cmpop) :
  COMPARISON_OPS op = Some c ->
  String.eqb op "IS NULL" = false /\ String.eqb op "IS NOT NULL" = false.
Proof.
  unfold COMPARISON_OPS.
  repeat match goal with
         | |- context [String.eqb op ?s] =>
             lazymatch s with
             | "IS NULL" => fail
             | "IS NOT NULL" => fail
             | _ => destruct (String.eqb op s) eqn:?
             end
         end;
    try discriminate;
    match goal with
    | H : String.eqb op _ = true |- _ =>
        apply String.eqb_eq in H; subst op; intros _; split; reflexivity
    end.
Qed.

Lemma validate_node_dict (d : list (string * pyval)) :
  _validate_node (PDict d)
  = if dict_has "AND" d then
      match dict_get "AND" d with
      | Some children => validate_children _validate_node "AND" children
      | None => Raise (KeyError (PStr "AND"))
      end
    else if dict_has "OR" d then
      match dict_get "OR" d with
      | Some children => validate_children _validate_node "OR" children
      | None => Raise (KeyError (PStr "OR"))
      end
    else if dict_has "NOT" d then
      match dict_get "NOT" d with
      | Some c => _validate_node c
      | None => Raise (KeyError (PStr "NOT"))
      end
    else if dict_has "field" d then
      if negb (dict_has "operator" d) then
        Raise (ValueError "Comparison expression requires 'operator'" PNone)
      else
        op <- py_getitem (PDict d) "operator" ;;
        unknown <- unknown_operator op ;;
        if unknown then Raise (ValueError "Unknown operator: " op)
        else if negb (py_eq op (PStr "IS NULL") || py_eq op (PStr "IS NOT NULL"))
                && negb (dict_has "value" d)
        then Raise (ValueError "Comparison expression requires 'value'" PNone)
        else Ok tt
    else if existsb (fun key => dict_has key d) ["IN"; "NOT IN"; "MATCHES"; "CONTAINS"]
    then Ok tt
    else Raise (ValueError "Invalid expression node structure: " (PDict d)).
Proof.
  cbn [_validate_node]. unfold getitem_with. rewrite !dict_find_get.
  destruct (dict_get "AND" d), (dict_get "OR" d), (dict_get "NOT" d); reflexivity.
Qed.

Lemma dict_has_false (k : string) (d : list (string * pyval)) :
  dict_has k d = false <-> dict_get k d = None.
Proof. unfold dict_has. destruct (dict_get k d); split; congruence. Qed.

Lemma dict_has_true (k : string) (d : list (string * pyval)) :
  dict_has k d = true <-> exists v, dict_get k d = Some v.
Proof.
  unfold dict_has. destruct (dict_get k d) as [v|]; split;
    try congruence; [exists v; reflexivity | intros [v H]; discriminate].
Qed.

(** X8.  The validator accepts exactly the expressions of the grammar
    [well_formed]: an AND or OR over a list of accepted expressions, a NOT
    of an accepted expression, a leaf with [field] whose operator is a null
    check or one of the six comparisons together with a [value], and, when
    none of these keys is present, any dict with one of the keys IN, NOT IN,
    MATCHES and CONTAINS, of which nothing else is checked.  The keys are
    tried in this order, so that a dict with AND is judged as a conjunction
    whatever else it holds. *)
Theorem validator_accepts_the_grammar (node : pyval) :
  fst (validate_rule_syntax node) = true <-> well_formed node.
Proof.
  assert (Hsyntax : forall n,
            fst (validate_rule_syntax n) = true <-> _validate_node n = Ok tt).
  { intros n. unfold validate_rule_syntax.
    destruct (_validate_node n) as [[]|e]; cbn; split; congruence. }
  rewrite Hsyntax. clear Hsyntax.
  pose (Q := fun n =>
              (_validate_node n = Ok tt <-> well_formed n)
              /\ forall l, n = PList l ->
                   Forall (fun x => _validate_node x = Ok tt <-> well_formed x) l).
  enough (H : Q node) by exact (proj1 H).
  apply (pyval_nested_ind Q); clear node;
    [ | intros b | intros z | intros q | intros s | intros l IHl | intros d IHd ];
    try (split; [split; [discriminate | intros H; inversion H] | discriminate]).
  - split; [split; [discriminate | intros H; inversion H]|].
    intros l' [= <-]. eapply Forall_impl; [|exact IHl].
    intros x Hx. exact (proj1 Hx).
  - split; [|discriminate].
    assert (Hlist : forall k l,
              dict_get k d = Some (PList l) ->
              (for_each _validate_node l = Ok tt <-> Forall well_formed l)).
    { intros k l Hk.
      pose proof (dict_get_Forall Q k _ d IHd Hk) as [_ Hl].
      specialize (Hl l eq_refl). rewrite for_each_ok.
      split; intros H.
      - rewrite Forall_forall in *. intros x Hx. apply (Hl x Hx), H, Hx.
      - rewrite Forall_forall in *. intros x Hx. apply (Hl x Hx), H, Hx. }
    rewrite validate_node_dict. split.
    + (* accepted by the validator: in the grammar *)
      destruct (dict_has "AND" d) eqn:HA.
      { apply dict_has_true in HA. destruct HA as [c Hc]. rewrite Hc.
        destruct c; try discriminate. cbn [validate_children]. intros H.
        eapply wf_and; [exact Hc|]. apply (Hlist _ _ Hc), H. }
      apply dict_has_false in HA.
      destruct (dict_has "OR" d) eqn:HO.
      { apply dict_has_true in HO. destruct HO as [c Hc]. rewrite Hc.
        destruct c; try discriminate. cbn [validate_children]. intros H.
        eapply wf_or; [exact HA | exact Hc |]. apply (Hlist _ _ Hc), H. }
      apply dict_has_false in HO.
      destruct (dict_has "NOT" d) eqn:HN.
      { apply dict_has_true in HN. destruct HN as [c Hc]. rewrite Hc.
        intros H. eapply wf_not; [exact HA | exact HO | exact Hc |].
        apply (dict_get_Forall Q _ _ d IHd Hc), H. }
      apply dict_has_false in HN.
      destruct (dict_has "field" d) eqn:HF.
      { destruct (dict_has "operator" d) eqn:Hop; cbn [negb]; [|discriminate].
        apply dict_has_true in Hop. destruct Hop as [op Hop].
        cbn [py_getitem]. rewrite Hop. cbn [bind].
        destruct op as [ | b | z | q | o | l | d' ]; try discriminate.
        unfold unknown_operator. cbn [hashable negb py_eq].
        destruct (COMPARISON_OPS o) as [c|] eqn:Hc; cbn [bind].
        - destruct (comparison_op_is_no_null_check o c Hc) as [-> ->].
          cbn [orb negb andb].
          destruct (dict_has "value" d) eqn:Hv; cbn [negb]; [|discriminate].
          intros _. eapply wf_comparison; eassumption.
        - destruct (String.eqb o "IS NULL") eqn:E1; cbn [orb negb andb].
          + intros _. eapply wf_null_check; try eassumption.
            left. apply String.eqb_eq. exact E1.
          + destruct (String.eqb o "IS NOT NULL") eqn:E2; cbn [negb];
              [|discriminate].
            intros _. eapply wf_null_check; try eassumption.
            right. apply String.eqb_eq. exact E2. }
      apply dict_has_false in HF.
      destruct (existsb _ _) eqn:HE; [|discriminate].
      intros _. apply existsb_exists in HE. destruct HE as (key & Hin & Hkey).
      eapply wf_keyed_leaf; eassumption.
    + (* in the grammar: accepted by the validator *)
      intros H. inversion H as
        [ d0 l HA Hl | d0 l HA HO Hl | d0 c HA HO HN Hc
        | d0 op HA HO HN HF Hop Hnull | d0 op c HA HO HN HF Hop Hc Hv
        | d0 key HA HO HN HF Hin Hkey ]; subst d0.
      * rewrite (proj2 (dict_has_true "AND" d) (ex_intro _ _ HA)), HA.
        cbn [validate_children]. apply (Hlist _ _ HA), Hl.
      * rewrite (proj2 (dict_has_false "AND" d) HA).
        rewrite (proj2 (dict_has_true "OR" d) (ex_intro _ _ HO)), HO.
        cbn [validate_children]. apply (Hlist _ _ HO), Hl.
      * rewrite (proj2 (dict_has_false "AND" d) HA).
        rewrite (proj2 (dict_has_false "OR" d) HO).
        rewrite (proj2 (dict_has_true "NOT" d) (ex_intro _ _ HN)), HN.
        apply (dict_get_Forall Q _ _ d IHd HN), Hc.
      * rewrite (proj2 (dict_has_false "AND" d) HA).
        rewrite (proj2 (dict_has_false "OR" d) HO).
        rewrite (proj2 (dict_has_false "NOT" d) HN), HF.
        rewrite (proj2 (dict_has_true "operator" d) (ex_intro _ _ Hop)).
        cbn [negb py_getitem]. rewrite Hop. cbn [bind].
        destruct Hnull as [-> | ->]; reflexivity.
      * rewrite (proj2 (dict_has_false "AND" d) HA).
        rewrite (proj2 (dict_has_false "OR" d) HO).
        rewrite (proj2 (dict_has_false "NOT" d) HN), HF.
        rewrite (proj2 (dict_has_true "operator" d) (ex_intro _ _ Hop)).
        cbn [negb py_getitem]. rewrite Hop. cbn [bind].
        unfold unknown_operator. cbn [hashable negb py_eq]. rewrite Hc.
        cbn [bind]. rewrite Hv. cbn [negb]. rewrite andb_false_r. reflexivity.
      * rewrite (proj2 (dict_has_false "AND" d) HA).
        rewrite (proj2 (dict_has_false "OR" d) HO).
        rewrite (proj2 (dict_has_false "NOT" d) HN).
        rewrite (proj2 (dict_has_false "field" d) HF).
        assert (HE : existsb (fun key => dict_has key d)
                       ["IN"; "NOT IN"; "MATCHES"; "CONTAINS"] = true)
          by (apply existsb_exists; exists key; split; assumption).
        rewrite HE. reflexivity.
Qed.

End ValidatorFacts.

(* ================================================================== *)
(** ** Writing and reading fields of the context *)
(* ================================================================== *)

Module FieldFacts.
Import Py.
Import AgenticBRE.
Import Examples.

Lemma dict_get_set_same (k : string) (v : pyval) (d : list (string * pyval)) :
  dict_get k (dict_set k v d) = Some v.
Proof.
  induction d as [|[k' v'] d IH]; cbn.
  - rewrite String.eqb_refl. reflexivity.
  - destruct (String.eqb k' k) eqn:E; cbn.
    + rewrite String.eqb_refl. reflexivity.
    + rewrite E. exact IH.
Qed.

Lemma dict_get_set_other (k k' : string) (v : pyval) (d : list (string * pyval)) :
  k' <> k -> dict_get k' (dict_set k v d) = dict_get k' d.
Proof.
  intros Hk. induction d as [|[k0 v0] d IH]; cbn.
  - destruct (String.eqb k k') eqn:E; [|reflexivity].
    apply String.eqb_eq in E. congruence.
  - destruct (String.eqb k0 k) eqn:E; cbn.
    + apply String.eqb_eq in E. subst k0.
      destruct (String.eqb k k') eqn:E'; [|reflexivity].
      apply String.eqb_eq in E'. congruence.
    + rewrite IH. reflexivity.
Qed.

Lemma dict_set_unchanged (k : string) (v : pyval) (d : list (string * pyval)) :
  dict_get k d = Some v -> dict_set k v d = d.
Proof.
  induction d as [|[k' v'] d IH]; cbn; [discriminate|].
  destruct (String.eqb k' k) eqn:E.
  - intros [= ->]. apply String.eqb_eq in E. subst. reflexivity.
  - intros H. rewrite (IH H). reflexivity.
Qed.

Lemma dict_get_del_same (k : string) (d : list (string * pyval)) :
  dict_get k (dict_del k d) = None.
Proof.
  induction d as [|[k' v'] d IH]; cbn; [reflexivity|].
  destruct (String.eqb k' k) eqn:E; cbn; [exact IH | rewrite E; exact IH].
Qed.

Lemma dict_get_del_other (k k' : string) (d : list (string * pyval)) :
  k' <> k -> dict_get k' (dict_del k d) = dict_get k' d.
Proof.
  intros Hk. induction d as [|[k0 v0] d IH]; cbn; [reflexivity|].
  destruct (String.eqb k0 k) eqn:E; cbn.
  - apply String.eqb_eq in E. subst k0.
    destruct (String.eqb k k') eqn:E'; [|exact IH].
    apply String.eqb_eq in E'. congruence.
  - rewrite IH. reflexivity.
Qed.

Lemma split_on_not_nil (sep : ascii) (s : string) : split_on sep s <> [].
Proof.
  destruct s as [|c s]; cbn; [discriminate|].
  destruct (Ascii.eqb c sep); [discriminate|].
  destruct (split_on sep s); discriminate.
Qed.

(** no part of a path without brackets has one *)
Lemma split_on_without (sep c : ascii) (s : string) :
  contains_char c s = false ->
  Forall (fun part => contains_char c part = false) (split_on sep s).
Proof.
  induction s as [|c' s IH]; cbn [contains_char split_on]; intros H.
  - constructor; [reflexivity | constructor].
  - apply orb_false_iff in H. destruct H as [Hc Hs]. specialize (IH Hs).
    destruct (Ascii.eqb c' sep).
    + constructor; [reflexivity | exact IH].
    + destruct (split_on sep s) as [|p ps].
      * constructor; [cbn; rewrite Hc; reflexivity | constructor].
      * inversion IH as [|? ? Hp Hps]; subst.
        constructor; [cbn; rewrite Hc; exact Hp | exact Hps].
Qed.

Lemma set_parts_step (part next : string) (rest : list string)
    (value current : pyval) :
  set_parts (part :: next :: rest) value current
  = match py_in (PStr part) current with
    | Raise e => (Raise e, current)
    | Ok present =>
        match (if present then Ok current
               else py_setitem current part (PDict [])) with
        | Raise e => (Raise e, current)
        | Ok current1 =>
            match py_getitem current1 part with
            | Raise e => (Raise e, current1)
            | Ok child =>
                let '(r, child') := set_parts (next :: rest) value child in
                (r, write_back current1 part child')
            end
        end
    end.
Proof. reflexivity. Qed.

Lemma remove_parts_step (part next : string) (rest : list string)
    (current : pyval) :
  remove_parts (part :: next :: rest) current
  = match py_in (PStr part) current with
    | Raise e => (Raise e, current)
    | Ok false => (Ok tt, current)
    | Ok true =>
        match py_getitem current part with
        | Raise e => (Raise e, current)
        | Ok child =>
            let '(r, child') := remove_parts (next :: rest) child in
            (r, write_back current part child')
        end
    end.
Proof. reflexivity. Qed.

Section Setting.
Context (value : pyval).

Lemma set_parts_gives_dict (parts : list string) (current current' : pyval) :
  set_parts parts value current = (Ok tt, current') ->
  exists d, current' = PDict d.
Proof.
  destruct parts as [|part [|next rest]]; [discriminate| |].
  - cbn [set_parts]. destruct current; cbn; try discriminate.
    intros [= <-]. eexists. reflexivity.
  - rewrite set_parts_step.
    destruct (py_in (PStr part) current) as [present|e]; [|discriminate].
    destruct (if present then Ok current else py_setitem current part (PDict []))
      as [current1|e]; [|discriminate].
    destruct (py_getitem current1 part) as [child|e] eqn:Hget; [|discriminate].
    destruct (set_parts (next :: rest) value child) as [r child'].
    destruct current1; cbn in Hget; try discriminate.
    intros [= _ <-]. cbn. eexists. reflexivity.
Qed.

Lemma set_parts_empty (parts : list string) :
  parts <> [] -> exists current', set_parts parts value (PDict []) = (Ok tt, current').
Proof.
  induction parts as [|part [|next rest] IH]; intros Hne; [congruence| |].
  - eexists. reflexivity.
  - destruct IH as [child' Hchild]; [discriminate|].
    rewrite set_parts_step.
    cbn [py_in hashable dict_has dict_get py_setitem dict_set py_getitem].
    rewrite String.eqb_refl. rewrite Hchild. eexists. reflexivity.
Qed.

Lemma set_parts_then_walk (parts : list string) :
  Forall (fun part => contains_char "["%char part = false) parts ->
  forall current current',
    set_parts parts value current = (Ok tt, current') ->
    walk_parts parts current' = Ok value.
Proof.
  induction parts as [|part [|next rest] IH]; intros Hparts current current';
    [discriminate| |].
  - cbn [set_parts]. inversion Hparts as [|? ? Hpart _]; subst.
    destruct current; cbn; try discriminate. intros [= <-].
    rewrite Hpart, dict_get_set_same. destruct value; reflexivity.
  - inversion Hparts as [|? ? Hpart Hrest]; subst.
    rewrite set_parts_step.
    destruct (py_in (PStr part) current) as [present|e]; [|discriminate].
    destruct (if present then Ok current else py_setitem current part (PDict []))
      as [current1|e]; [|discriminate].
    destruct (py_getitem current1 part) as [child|e] eqn:Hget; [|discriminate].
    destruct (set_parts (next :: rest) value child) as [r child'] eqn:Hset.
    destruct current1; cbn in Hget; try discriminate.
    intros [= -> <-].
    destruct (set_parts_gives_dict _ _ _ Hset) as [d' ->].
    cbn [write_back walk_parts]. rewrite Hpart, dict_get_set_same.
    cbn [is_none]. exact (IH Hrest _ _ Hset).
Qed.

Lemma set_parts_failure (parts : list string) :
  forall current current' e,
    set_parts parts value current = (Raise e, current') -> current' = current.
Proof.
  induction parts as [|part [|next rest] IH]; intros current current' e.
  - intros [= _ <-]. reflexivity.
  - cbn [set_parts]. destruct (py_setitem current part value);
      [discriminate | intros [= _ <-]; reflexivity].
  - rewrite set_parts_step.
    destruct (py_in (PStr part) current) as [present|e0] eqn:Hin;
      [|intros [= _ <-]; reflexivity].
    destruct present.
    + destruct (py_getitem current part) as [child|e0] eqn:Hget;
        [|intros [= _ <-]; reflexivity].
      destruct (set_parts (next :: rest) value child) as [r child'] eqn:Hset.
      intros [= -> <-]. rewrite (IH _ _ _ Hset).
      destruct current; cbn in Hget; try discriminate.
      destruct (dict_get part d) eqn:Hd; [|discriminate].
      injection Hget as ->. cbn [write_back].
      rewrite (dict_set_unchanged _ _ _ Hd). reflexivity.
    + destruct (py_setitem current part (PDict [])) as [current1|e0] eqn:Hnew;
        [|intros [= _ <-]; reflexivity].
      destruct current; cbn in Hnew; try discriminate.
      injection Hnew as <-. cbn [py_getitem]. rewrite dict_get_set_same.
      destruct (set_parts_empty (next :: rest)) as [child' Hchild]; [discriminate|].
      rewrite Hchild. discriminate.
Qed.

End Setting.

(** X9.  A value written with [_set_field_value] under a path without
    brackets is what [_get_field_value] reads under that path afterwards,
    the dicts missing on the way having been created. *)
Theorem set_then_get (path : string) (value context context' : pyval) :
  contains_char "["%char path = false ->
  _set_field_value (PStr path) value context = (Ok tt, context') ->
  _get_field_value (PStr path) context' = Ok value.
Proof.
  intros Hpath Hset. cbn [_set_field_value _get_field_value] in *.
  exact (set_parts_then_walk value _ (split_on_without _ _ _ Hpath) _ _ Hset).
Qed.

Lemma set_then_get_witness :
  exists context',
    _set_field_value (PStr "review.score") (PInt 7) prd = (Ok tt, context')
    /\ _get_field_value (PStr "review.score") context' = Ok (PInt 7).
Proof.
  eexists. split; [reflexivity|].
  apply (set_then_get "review.score" (PInt 7) prd); reflexivity.
Defined.

(** X10.  [_set_field_value] changes the context only when it succeeds:
    when it raises, on a path that leads through a value that is not a
    dict, the context is as it was.  On the empty context it succeeds for
    every path. *)
Theorem failed_set_changes_nothing (field_path value context : pyval) :
  (forall e context',
     _set_field_value field_path value context = (Raise e, context') ->
     context' = context)
  /\ (forall path,
        exists context',
          _set_field_value (PStr path) value (PDict []) = (Ok tt, context')).
Proof.
  split.
  - intros e context'. destruct field_path; cbn [_set_field_value];
      try (intros [= _ <-]; reflexivity).
    apply set_parts_failure.
  - intros path. apply set_parts_empty, split_on_not_nil.
Qed.

Lemma remove_parts_then_walk (parts : list string) :
  Forall (fun part => contains_char "["%char part = false) parts ->
  forall current current',
    remove_parts parts current = (Ok tt, current') ->
    walk_parts parts current' = Ok PNone.
Proof.
  induction parts as [|part [|next rest] IH]; intros Hparts current current';
    [discriminate| |].
  - cbn [remove_parts]. inversion Hparts as [|? ? Hpart _]; subst.
    destruct (py_in (PStr part) current) as [[|]|e] eqn:Hin; [| |discriminate].
    + destruct current; cbn; try discriminate.
      destruct (dict_has part d); [|discriminate]. intros [= <-].
      cbn [walk_parts]. rewrite Hpart, dict_get_del_same. reflexivity.
    + intros [= <-]. cbn [walk_parts]. rewrite Hpart.
      destruct current; try reflexivity.
      cbn in Hin. unfold dict_has in Hin.
      destruct (dict_get part d); [discriminate | reflexivity].
  - inversion Hparts as [|? ? Hpart Hrest]; subst.
    rewrite remove_parts_step.
    destruct (py_in (PStr part) current) as [[|]|e] eqn:Hin; [| |discriminate].
    + destruct (py_getitem current part) as [child|e] eqn:Hget; [|discriminate].
      destruct (remove_parts (next :: rest) child) as [r child'] eqn:Hrem.
      destruct current; cbn in Hget; try discriminate.
      intros [= -> <-]. cbn [write_back walk_parts].
      rewrite Hpart, dict_get_set_same.
      destruct (is_none child'); [reflexivity|].
      exact (IH Hrest _ _ Hrem).
    + intros [= <-]. cbn [walk_parts]. rewrite Hpart.
      destruct current; try reflexivity.
      cbn in Hin. unfold dict_has in Hin.
      destruct (dict_get part d); [discriminate | reflexivity].
Qed.

Lemma remove_parts_failure (parts : list string) :
  forall current current' e,
    remove_parts parts current = (Raise e, current') -> current' = current.
Proof.
  induction parts as [|part [|next rest] IH]; intros current current' e.
  - intros [= _ <-]. reflexivity.
  - cbn [remove_parts].
    destruct (py_in (PStr part) current) as [[|]|e0];
      [|discriminate|intros [= _ <-]; reflexivity].
    destruct (py_delitem current part);
      [discriminate | intros [= _ <-]; reflexivity].
  - rewrite remove_parts_step.
    destruct (py_in (PStr part) current) as [[|]|e0];
      [|discriminate|intros [= _ <-]; reflexivity].
    destruct (py_getitem current part) as [child|e0] eqn:Hget;
      [|intros [= _ <-]; reflexivity].
    destruct (remove_parts (next :: rest) child) as [r child'] eqn:Hrem.
    intros [= -> <-]. rewrite (IH _ _ _ Hrem).
    destruct current; cbn in Hget; try discriminate.
    destruct (dict_get part d) eqn:Hd; [|discriminate].
    injection Hget as ->. cbn [write_back].
    rewrite (dict_set_unchanged _ _ _ Hd). reflexivity.
Qed.

(** X11.  After [_remove_field] has returned, [_get_field_value] reads
    [None] under the removed path (a path without brackets), whether the
    field was there or not; and when [_remove_field] raises, the context is
    as it was. *)
Theorem remove_then_get (path : string) (context : pyval) :
  contains_char "["%char path = false ->
  (forall context',
     _remove_field (PStr path) context = (Ok tt, context') ->
     _get_field_value (PStr path) context' = Ok PNone)
  /\ (forall e context',
        _remove_field (PStr path) context = (Raise e, context') ->
        context' = context).
Proof.
  intros Hpath. split.
  - intros context' Hrem. cbn [_remove_field _get_field_value] in *.
    exact (remove_parts_then_walk _ (split_on_without _ _ _ Hpath) _ _ Hrem).
  - intros e context'. apply remove_parts_failure.
Qed.

Lemma remove_then_get_witness :
  _remove_field (PStr "title") prd = (Ok tt, PDict [])
  /\ _get_field_value (PStr "title") (PDict []) = Ok PNone.
Proof.
  split; [reflexivity|].
  apply (proj1 (remove_then_get "title" prd eq_refl)). reflexivity.
Defined.

End FieldFacts.

(* ================================================================== *)
(** ** The quality gate: scores, decisions and what is written *)
(* ================================================================== *)

From Stdlib Require Import Lqa.

Module GateExtras.
Import Py.
Import QualityGateBRE.
Import Notions.
Import QFacts.
Import GateFacts.
Import Examples.

Section Loop.
Context (rt : runtime) (context : pyval) (gate_id gate_name : string).

(** What the loop returns from inside is a KILL with score 0. *)
Lemma gate_loop_inl (rules : list rule_row) :
  forall st res,
    gate_loop rt gate_id gate_name context rules st = inl res ->
    GateEvaluationResult.decision res = "KILL"
    /\ GateEvaluationResult.passed res = false
    /\ GateEvaluationResult.overall_score res = 0.
Proof.
  induction rules as [|rule rest IH]; intros st res; cbn [gate_loop];
    [discriminate|].
  destruct (RuleEvaluationResult.passed (evaluate_rule rt rule context)).
  - apply IH.
  - destruct (auto_kill_if_fail (metadata_of rule)); [|apply IH].
    intros [= <-]. repeat split.
Qed.

Lemma gate_loop_bounds (rules : list rule_row) :
  forall st st',
    (forall r, In r rules -> 0 <= weight_of (metadata_of r)) ->
    0 <= weighted_score st ->
    weighted_score st <= 100 * total_weight st ->
    gate_loop rt gate_id gate_name context rules st = inr st' ->
    0 <= weighted_score st' /\ weighted_score st' <= 100 * total_weight st'.
Proof.
  induction rules as [|rule rest IH]; intros st st' Hw H0 H100; cbn [gate_loop].
  - intros [= <-]. split; assumption.
  - assert (Hrule : 0 <= weight_of (metadata_of rule))
      by (apply Hw; left; reflexivity).
    assert (Hrest : forall r, In r rest -> 0 <= weight_of (metadata_of r))
      by (intros r Hr; apply Hw; right; exact Hr).
    rewrite evaluate_rule_score.
    destruct (RuleEvaluationResult.passed (evaluate_rule rt rule context)).
    + apply IH; [exact Hrest | |];
        cbn [weighted_score total_weight]; lra.
    + destruct (auto_kill_if_fail (metadata_of rule)); [discriminate|].
      apply IH; [exact Hrest | |];
        cbn [weighted_score total_weight]; lra.
Qed.

End Loop.

Lemma overall_score_of_bounds (st : loop_state) :
  0 <= weighted_score st ->
  weighted_score st <= 100 * total_weight st ->
  0 <= overall_score_of st /\ overall_score_of st <= 100.
Proof.
  intros H0 H100. unfold overall_score_of.
  destruct (Qlt_bool 0 (total_weight st)) eqn:E; [|split; lra].
  apply Qlt_bool_iff in E. split.
  - apply Qle_shift_div_l; [exact E | lra].
  - apply Qle_shift_div_r; [exact E | lra].
Qed.



Lemma gate_result_cases (rt : runtime) (db : database)
    (gate_id : string) (context : pyval) (execution_id : option string)
    (res : GateEvaluationResult.t) :
  fst (evaluate_gate_on rt db gate_id context execution_id) = Ok res ->
  In (GateEvaluationResult.decision res)
     ["GO"; "PASS"; "RECYCLE"; "HOLD"; "KILL"; "REJECT"; "PENDING_HUMAN_REVIEW"]
  /\ (GateEvaluationResult.passed res = true <->
      GateEvaluationResult.decision res = "GO"
      \/ GateEvaluationResult.decision res = "PASS").
Proof.
  unfold evaluate_gate_on.
  destruct (select_node db gate_id) as [gate|]; [|discriminate].
  destruct (Node.config gate) as [cfg|]; [|discriminate].
  destruct (select_rules db gate_id) as [|r0 rules].
  - intros [= <-]. cbn. split; [tauto|]. split; [auto | reflexivity].
  - destruct (gate_loop rt gate_id (Node.name gate) context (r0 :: rules)
                initial_state) as [killed|st] eqn:Hloop.
    + intros [= <-].
      destruct (gate_loop_inl _ _ _ _ _ _ _ Hloop) as (-> & -> & _).
      split; [cbn; tauto|].
      split; [discriminate | intros [H|H]; discriminate].
    + destruct (decide cfg st) as [[d p] reason] eqn:Hd. intros [= <-].
      cbn [GateEvaluationResult.decision GateEvaluationResult.passed].
      unfold decide in Hd.
      repeat match type of Hd with
             | context [if ?b then _ else _] => destruct b
             | context [match recommendations st with _ => _ end] =>
                 destruct (recommendations st)
             end;
        injection Hd as <- <- _;
        (split; [cbn; tauto|]);
        (split; [try discriminate; auto | try reflexivity;
                 intros [H|H]; discriminate]).
Qed.




Lemma evaluate_rule_id (rt : runtime) (context : pyval) (rule : rule_row) :
  RuleEvaluationResult.rule_id (result_of rt context rule) = rule_id rule.
Proof.
  unfold result_of, evaluate_rule.
  destruct (_evaluate_condition rt context (condition rule)) as [b|e]; simpl;
    [destruct (_extract_relevant_context rt (condition rule) context)|];
    reflexivity.
Qed.

Lemma passed_count (rt : runtime) (context : pyval) (rules : list rule_row) :
  List.length (filter RuleEvaluationResult.passed
                 (map (result_of rt context) rules))
  = List.length (filter (fun r => negb (fails rt context r)) rules).
Proof.
  induction rules as [|r rs IH]; [reflexivity|].
  cbn [map filter]. unfold fails at 1. rewrite negb_involutive.
  destruct (RuleEvaluationResult.passed (result_of rt context r));
    cbn [List.length]; rewrite IH; reflexivity.
Qed.

Lemma log_gate_evaluation_tables (db : database) (execution_id gate_id : string)
    (results : list RuleEvaluationResult.t) (decision : string) (score : Q)
    (reason : gate_reason) :
  let db' := _log_gate_evaluation db execution_id gate_id results decision
               score reason in
  nodes db' = nodes db /\ business_rules db' = business_rules db
  /\ node_executions db' = node_executions db
  /\ working_memory db' = working_memory db
  /\ executions db' = executions db.
Proof. repeat split. Qed.

(** X15.  [evaluate_gate] writes to the tables [gate_evaluations] and
    [audit_log] only, and only by adding rows at the end: the nodes, the
    rules, the node executions, the working memory and the executions are
    left as they are on every path, and without an execution id (none, or
    the empty text) no table changes at all. *)
Theorem gate_evaluation_only_appends_to_its_log (rt : runtime) (db : database)
    (gate_id : string) (context : pyval) (execution_id : option string) :
  let db' := snd (evaluate_gate_on rt db gate_id context execution_id) in
  nodes db' = nodes db /\ business_rules db' = business_rules db
  /\ node_executions db' = node_executions db
  /\ working_memory db' = working_memory db
  /\ executions db' = executions db
  /\ (exists rows, gate_evaluations db' = (gate_evaluations db ++ rows)%list)
  /\ (exists entries, audit_log db' = (audit_log db ++ entries)%list)
  /\ (given execution_id = None -> db' = db).
Proof.
  assert (Hsame : nodes db = nodes db /\ business_rules db = business_rules db
                  /\ node_executions db = node_executions db
                  /\ working_memory db = working_memory db
                  /\ executions db = executions db
                  /\ (exists rows,
                        gate_evaluations db = (gate_evaluations db ++ rows)%list)
                  /\ (exists entries, audit_log db = (audit_log db ++ entries)%list)
                  /\ (given execution_id = None -> db = db)).
  { repeat split; try (exists []; rewrite app_nil_r; reflexivity). }
  unfold evaluate_gate_on.
  destruct (select_node db gate_id) as [gate|]; [|exact Hsame].
  destruct (Node.config gate) as [cfg|]; [|exact Hsame].
  destruct (select_rules db gate_id) as [|r0 rules]; [exact Hsame|].
  destruct (gate_loop rt gate_id (Node.name gate) context (r0 :: rules)
              initial_state) as [killed|st]; [exact Hsame|].
  destruct (decide cfg st) as [[d p] reason].
  destruct (given execution_id) as [e|]; [|exact Hsame].
  cbn [snd]. repeat split; try discriminate.
  - eexists. reflexivity.
  - eexists. reflexivity.
Qed.



End GateExtras.

(* ================================================================== *)
(** ** The context snapshot of a rule *)
(* ================================================================== *)

Module SnapshotFacts.
Import Py.
Import QualityGateBRE.
Import Notions.
Import Examples.

Lemma extend_each_strings (f : pyval -> res (list pyval)) (l : list pyval) :
  Forall (fun c => exists fields, f c = Ok (map PStr fields)) l ->
  exists fields, extend_each f l = Ok (map PStr fields).
Proof.
  induction 1 as [|c l (fields & Hc) _ (rest & IH)]; cbn [extend_each].
  - exists []. reflexivity.
  - rewrite Hc, IH. cbn [bind]. exists (fields ++ rest)%list.
    rewrite map_app. reflexivity.
Qed.

(** The field paths of a built condition are texts, and collecting them
    raises nothing. *)
Lemma field_paths_of_built (condition : pyval) :
  built condition ->
  exists fields, _extract_field_paths condition = Ok (map PStr fields).
Proof.
  pose (Q := fun c =>
              (built c -> exists fields,
                  _extract_field_paths c = Ok (map PStr fields))
              /\ forall l, c = PList l ->
                   Forall (fun x => built x -> exists fields,
                               _extract_field_paths x = Ok (map PStr fields)) l).
  enough (H : Q condition) by exact (proj1 H).
  apply (ValidatorFacts.pyval_nested_ind Q); clear condition;
    [ | intros b | intros z | intros q | intros s | intros l IHl | intros d IHd ];
    try solve [split; [intros H; inversion H | discriminate]].
  - split; [intros H; inversion H|].
    intros l' [= <-]. eapply Forall_impl; [|exact IHl].
    intros x Hx. exact (proj1 Hx).
  - split; [|discriminate]. intros Hbuilt.
    assert (Hlist : forall k l,
              dict_get k d = Some (PList l) -> Forall built l ->
              exists fields,
                extend_each _extract_field_paths l = Ok (map PStr fields)).
    { intros k l Hk Hl. apply extend_each_strings.
      pose proof (ValidatorFacts.dict_get_Forall Q k _ d IHd Hk) as [_ HQ].
      specialize (HQ l eq_refl). rewrite Forall_forall in *.
      intros x Hx. apply (HQ x Hx), Hl, Hx. }
    inversion Hbuilt as [ f o v Hd | f o Hd | f p Hd | l Hl Hd | l Hl Hd
                        | c Hc Hd ]; subst d.
    + exists [f]. reflexivity.
    + exists [f]. reflexivity.
    + exists [f]. reflexivity.
    + destruct (Hlist "AND" l eq_refl Hl) as (fields & Hfields).
      exists fields. cbn. cbn in Hfields. rewrite Hfields. cbn.
      rewrite app_nil_r. reflexivity.
    + destruct (Hlist "OR" l eq_refl Hl) as (fields & Hfields).
      exists fields. cbn. cbn in Hfields. rewrite Hfields. cbn.
      rewrite app_nil_r. reflexivity.
    + pose proof (ValidatorFacts.dict_get_Forall Q "NOT" c _ IHd eq_refl)
        as [HQ _].
      destruct (HQ Hc) as (fields & Hfields).
      exists fields. cbn. cbn in Hfields. rewrite Hfields. cbn.
      rewrite app_nil_r. reflexivity.
Qed.

Lemma snapshot_of_strings (rt : runtime) (context : pyval) (fields : list string) :
  forall acc, exists snap, snapshot rt (map PStr fields) context acc = Ok snap.
Proof.
  induction fields as [|f rest IH]; intros acc; cbn [map snapshot].
  - exists acc. reflexivity.
  - cbn [_get_field_value bind]. apply IH.
Qed.



End SnapshotFacts.

(* ================================================================== *)
(** ** The walk of the quality-gate orchestrator *)
(* ================================================================== *)

Module WalkExtras.
Import Py.
Import QualityGateBRE.
Import QualityGateOrchestrator.
Import Notions.
Import Examples.

(** *** Working memory *)

Section Memory.
Context (execution_id : string).

Let step (acc : list (string * pyval)) (row : string * string * pyval) :=
  let '(memory_key, eid, value) := row in
  if String.eqb eid execution_id then dict_set memory_key value acc else acc.

Lemma get_other_key (key k' : string) (p : string * string * pyval -> bool)
    (rows : list (string * string * pyval)) :
  k' <> key ->
  (forall mk eid v, p (mk, eid, v) = false -> mk = key) ->
  forall acc1 acc2,
    dict_get k' acc1 = dict_get k' acc2 ->
    dict_get k' (fold_left step (filter p rows) acc1)
    = dict_get k' (fold_left step rows acc2).
Proof.
  intros Hk Hp. induction rows as [|[[mk eid] v] rows IH]; intros acc1 acc2 Hacc;
    cbn [filter fold_left]; [exact Hacc|].
  assert (Hstep : dict_get k' (step acc1 (mk, eid, v))
                  = dict_get k' (step acc2 (mk, eid, v))).
  { cbn [step]. destruct (String.eqb eid execution_id); [|exact Hacc].
    destruct (String.eqb mk k') eqn:E.
    - apply String.eqb_eq in E. subst mk.
      rewrite !FieldFacts.dict_get_set_same. reflexivity.
    - apply String.eqb_neq in E.
      rewrite !FieldFacts.dict_get_set_other by congruence. exact Hacc. }
  destruct (p (mk, eid, v)) eqn:Hrow.
  - cbn [fold_left]. apply IH. exact Hstep.
  - apply IH. rewrite Hacc. cbn [step].
    destruct (String.eqb eid execution_id); [|reflexivity].
    rewrite (Hp _ _ _ Hrow).
    rewrite FieldFacts.dict_get_set_other by congruence. reflexivity.
Qed.

Lemma get_other_execution (p : string * string * pyval -> bool)
    (rows : list (string * string * pyval)) :
  (forall mk eid v, p (mk, eid, v) = false -> String.eqb eid execution_id = false) ->
  forall acc,
    fold_left step (filter p rows) acc = fold_left step rows acc.
Proof.
  intros Hp. induction rows as [|[[mk eid] v] rows IH]; intros acc;
    cbn [filter fold_left]; [reflexivity|].
  destruct (p (mk, eid, v)) eqn:Hrow.
  - cbn [fold_left]. apply IH.
  - rewrite IH. cbn [step]. rewrite (Hp _ _ _ Hrow). reflexivity.
Qed.

End Memory.

Lemma memory_set_same (execution_id key : string) (value : pyval)
    (db : database) :
  dict_get key (_get_working_memory execution_id
                  (_set_working_memory execution_id key value db))
  = Some value.
Proof.
  unfold _get_working_memory, _set_working_memory.
  cbn [working_memory with_working_memory].
  rewrite fold_left_app. cbn [fold_left]. rewrite String.eqb_refl.
  apply FieldFacts.dict_get_set_same.
Qed.

Lemma memory_set_other_key (execution_id key k' : string) (value : pyval)
    (db : database) :
  k' <> key ->
  dict_get k' (_get_working_memory execution_id
                 (_set_working_memory execution_id key value db))
  = dict_get k' (_get_working_memory execution_id db).
Proof.
  intros Hk. unfold _get_working_memory, _set_working_memory.
  cbn [working_memory with_working_memory].
  rewrite fold_left_app. cbn [fold_left]. rewrite String.eqb_refl.
  rewrite FieldFacts.dict_get_set_other by congruence.
  apply (get_other_key execution_id key k'); [exact Hk | | reflexivity].
  intros mk eid v H. apply negb_false_iff, andb_true_iff in H.
  apply String.eqb_eq. exact (proj1 H).
Qed.

Lemma memory_set_other_execution (execution_id e' key : string) (value : pyval)
    (db : database) :
  e' <> execution_id ->
  _get_working_memory e' (_set_working_memory execution_id key value db)
  = _get_working_memory e' db.
Proof.
  intros He. unfold _get_working_memory, _set_working_memory.
  cbn [working_memory with_working_memory].
  rewrite fold_left_app. cbn [fold_left].
  assert (E : String.eqb execution_id e' = false)
    by (apply String.eqb_neq; congruence).
  rewrite E. apply (get_other_execution e').
  intros mk eid v H. apply negb_false_iff, andb_true_iff in H.
  destruct H as [_ H]. apply String.eqb_eq in H. subst eid. exact E.
Qed.


(** *** What a walk leaves in the tables *)

Lemma kept_refl (db : database) : kept db db.
Proof.
  repeat split; exists []; rewrite app_nil_r;
    [reflexivity | split; [reflexivity | constructor]].
Qed.

Lemma kept_trans (db1 db2 db3 : database) :
  kept db1 db2 -> kept db2 db3 -> kept db1 db3.
Proof.
  intros (Hn1 & Hb1 & He1 & (a1 & Ha1) & new1 & Hx1 & Hs1)
         (Hn2 & Hb2 & He2 & (a2 & Ha2) & new2 & Hx2 & Hs2).
  repeat split; try congruence.
  - exists (a1 ++ a2)%list. rewrite Ha2, Ha1, app_assoc. reflexivity.
  - exists (new1 ++ new2)%list. split.
    + rewrite Hx2, Hx1, app_assoc. reflexivity.
    + apply Forall_app. split; assumption.
Qed.

Lemma settles_ret {A : Type} (a : A) : settles (ret a).
Proof. intros db. apply kept_refl. Qed.

Lemma settles_raise {A : Type} (e : exn) : settles (@raise database A e).
Proof. intros db. apply kept_refl. Qed.

Lemma settles_gets {A : Type} (f : database -> A) : settles (gets f).
Proof. intros db. apply kept_refl. Qed.

Lemma settles_bind {A B : Type} (m : M database A) (k : A -> M database B) :
  settles m -> (forall a, settles (k a)) -> settles (bindM m k).
Proof.
  intros Hm Hk db. unfold bindM. specialize (Hm db).
  destruct (m db) as [[a|e] db1]; cbn [snd] in *; [|exact Hm].
  eapply kept_trans; [exact Hm | apply Hk].
Qed.

Lemma settles_try {A : Type} (m : M database A) (h : exn -> M database A) :
  settles m -> (forall e, settles (h e)) -> settles (try_with m h).
Proof.
  intros Hm Hh db. unfold try_with. specialize (Hm db).
  destruct (m db) as [[a|e] db1]; cbn [snd] in *; [exact Hm|].
  eapply kept_trans; [exact Hm | apply Hh].
Qed.

Lemma settles_modify (f : database -> database) :
  (forall db, kept db (f db)) -> settles (modify f).
Proof. intros Hf db. apply Hf. Qed.

Lemma kept_set_working_memory (execution_id key : string) (value : pyval)
    (db : database) :
  kept db (_set_working_memory execution_id key value db).
Proof.
  repeat split; exists []; rewrite app_nil_r;
    [reflexivity | split; [reflexivity | constructor]].
Qed.

Lemma kept_store_outputs (execution_id : string) (output_keys : list string)
    (output : list (string * pyval)) :
  forall db, kept db (store_outputs execution_id output_keys output db).
Proof.
  induction output_keys as [|key rest IH]; intros db; cbn [store_outputs];
    [apply kept_refl|].
  eapply kept_trans; [|apply IH].
  destruct (dict_get key output); [apply kept_set_working_memory | apply kept_refl].
Qed.

Lemma settles_evaluate_gate_on (rt : runtime) (gate_id : string)
    (context : pyval) (execution_id : option string) :
  settles (fun db => evaluate_gate_on rt db gate_id context execution_id).
Proof.
  intros db. unfold evaluate_gate_on.
  destruct (select_node db gate_id) as [gate|]; [|apply kept_refl].
  destruct (Node.config gate) as [cfg|]; [|apply kept_refl].
  destruct (select_rules db gate_id) as [|r0 rules]; [apply kept_refl|].
  destruct (gate_loop rt gate_id (Node.name gate) context (r0 :: rules)
              initial_state) as [killed|st]; [apply kept_refl|].
  destruct (decide cfg st) as [[d p] reason].
  destruct (given execution_id) as [e|]; [|apply kept_refl].
  cbn [snd]. repeat split.
  - eexists. reflexivity.
  - exists []. rewrite app_nil_r. split; [reflexivity | constructor].
Qed.

Section Handlers.
Context (rt : runtime).
Context (self_execute : string -> string -> M database pyval).
Hypothesis self_settles : forall node_id execution_id,
    settles (self_execute node_id execution_id).

Lemma settles_run_in_order (execution_id : string) (children : list Node.row) :
  forall result, settles (run_in_order self_execute execution_id children result).
Proof.
  induction children as [|child rest IH]; intros result; cbn [run_in_order].
  - apply settles_ret.
  - apply settles_bind; [apply self_settles | intros r; apply IH].
Qed.

Lemma settles_collect_in_order (execution_id : string) (children : list Node.row) :
  forall results,
    settles (collect_in_order self_execute execution_id children results).
Proof.
  induction children as [|child rest IH]; intros results; cbn [collect_in_order].
  - apply settles_ret.
  - apply settles_bind; [apply self_settles | intros r; apply IH].
Qed.

Lemma settles_handlers (node : Node.row) (execution_id : string)
    (config : node_config) :
  settles (_execute_root_node self_execute node execution_id config)
  /\ settles (_execute_agent_node self_execute node execution_id config)
  /\ settles (_execute_gate_node rt self_execute node execution_id config)
  /\ settles (_execute_control_flow_node self_execute node execution_id config).
Proof.
  split; [|split; [|split]].
  - unfold _execute_root_node. apply settles_bind; [apply settles_gets|].
    intros [|first rest]; [apply settles_ret | apply self_settles].
  - unfold _execute_agent_node. apply settles_bind; [apply settles_gets|].
    intros wm. apply settles_bind.
    { apply settles_modify. apply kept_store_outputs. }
    intros _. apply settles_bind; [apply settles_gets|].
    intros [|first rest]; [apply settles_ret | apply self_settles].
  - unfold _execute_gate_node. apply settles_bind; [apply settles_gets|].
    intros wm. apply settles_bind; [apply settles_evaluate_gate_on|].
    intros result.
    repeat match goal with
           | |- settles (if ?b then _ else _) => destruct b
           | |- settles (match ?x with _ => _ end) => destruct x
           | |- settles (bindM _ _) => apply settles_bind; [apply settles_gets|intros ?]
           | |- settles (ret _) => apply settles_ret
           | |- settles (raise _) => apply settles_raise
           | |- settles (self_execute _ _) => apply self_settles
           end.
  - unfold _execute_control_flow_node. apply settles_bind; [apply settles_gets|].
    intros children.
    destruct (String.eqb _ "prompt_chaining"); [apply settles_run_in_order|].
    destruct (String.eqb _ "parallelization").
    { apply settles_bind; [apply settles_collect_in_order|].
      intros results. apply settles_ret. }
    destruct (String.eqb _ "orchestrator_workers"); [|apply settles_raise].
    destruct children as [|first workers]; [apply settles_ret|].
    apply settles_bind; [apply self_settles|]. intros r.
    apply settles_bind; [apply settles_collect_in_order|]. intros rs.
    apply settles_ret.
Qed.

Lemma update_nth_middle {A : Type} (f : A -> A) (l new : list A) (x : A) :
  update_nth (List.length l) f (l ++ x :: new)%list = (l ++ f x :: new)%list.
Proof.
  induction l as [|y l IH]; [reflexivity|].
  cbn [List.length app update_nth]. rewrite IH. reflexivity.
Qed.

(** One call of the body of [_execute_node]: a node that is not found
    leaves the tables as they are; otherwise the call adds its own record,
    settled by its outcome, and after it the records of the calls below. *)
Lemma execute_node_body_records (node_id execution_id : string) (db : database) :
  let '(r, db') := execute_node_body rt self_execute node_id execution_id db in
  nodes db' = nodes db
  /\ business_rules db' = business_rules db
  /\ executions db' = executions db
  /\ (exists entries, audit_log db' = (audit_log db ++ entries)%list)
  /\ match select_node db node_id with
     | None =>
         r = Raise (ValueError "Node not found: " (PStr node_id)) /\ db' = db
     | Some _ =>
         exists below,
           node_executions db'
           = (node_executions db
                ++ record_of execution_id node_id r :: below)%list
           /\ Forall settled below
     end.
Proof.
  unfold execute_node_body. unfold bindM at 1. unfold gets at 1.
  destruct (select_node db node_id) as [node|];
    [|cbn; repeat split; exists []; rewrite app_nil_r; reflexivity].
  unfold bindM at 1. unfold insert_node_execution at 1.
  set (db1 := with_node_executions db _).
  set (n := List.length (node_executions db)).
  set (handler := if String.eqb (Node.node_type node) "root" then _ else _).
  assert (Hh : settles handler).
  { pose proof (settles_handlers node execution_id
                  (match Node.config node with
                   | Some c => c
                   | None => empty_config
                   end)) as (H1 & H2 & H3 & H4).
    subst handler.
    repeat match goal with
           | |- settles (if ?b then _ else _) => destruct b
           end; try assumption. apply settles_raise. }
  specialize (Hh db1). unfold try_with. unfold bindM at 1.
  destruct (handler db1) as [[output|e] db2]; cbn [snd] in Hh;
    destruct Hh as (Hn & Hb & He & Ha & below & Hx & Hs);
    cbn [bindM complete_node_execution fail_node_execution modify ret raise];
    unfold bindM, complete_node_execution, fail_node_execution, modify, ret, raise;
    cbn [nodes business_rules executions audit_log node_executions
         with_node_executions];
    (split; [exact Hn|]); (split; [exact Hb|]); (split; [exact He|]);
    (split; [exact Ha|]);
    exists below; (split; [|exact Hs]);
    rewrite Hx; subst db1 n;
    cbn [node_executions with_node_executions];
    rewrite <- app_assoc; cbn [app];
    rewrite update_nth_middle; reflexivity.
Qed.

Lemma settles_execute_node_body (node_id execution_id : string) :
  settles (execute_node_body rt self_execute node_id execution_id).
Proof.
  intros db. pose proof (execute_node_body_records node_id execution_id db) as H.
  destruct (execute_node_body rt self_execute node_id execution_id db)
    as [r db'].
  destruct H as (Hn & Hb & He & Ha & H). cbn [snd].
  split; [exact Hn|]. split; [exact Hb|]. split; [exact He|].
  split; [exact Ha|].
  destruct (select_node db node_id).
  - destruct H as (below & Hx & Hs). eexists. split; [exact Hx|].
    constructor; [|exact Hs].
    destruct r; [left | right]; reflexivity.
  - destruct H as [_ ->]. exists []. rewrite app_nil_r.
    split; [reflexivity | constructor].
Qed.

End Handlers.

Lemma settles_execute_node (rt : runtime) (depth : nat) :
  forall node_id execution_id,
    settles (_execute_node rt depth node_id execution_id).
Proof.
  induction depth as [|depth IH]; intros node_id execution_id;
    cbn [_execute_node].
  - apply settles_raise.
  - apply settles_execute_node_body. exact IH.
Qed.

(** X18.  A call of [_execute_node] leaves the nodes, the rules and the
    executions as they are, only adds to the audit log, and changes no node
    execution recorded before it.  On a node that does not exist it raises and records nothing;
    otherwise it adds one record of its own, completed with the output when
    the call returns and failed when it raises, followed by the records of
    the nodes executed below it, none of which is left running. *)
Theorem every_node_execution_is_settled (rt : runtime) (depth : nat)
    (node_id execution_id : string) (db : database) :
  let '(r, db') := _execute_node rt (S depth) node_id execution_id db in
  nodes db' = nodes db
  /\ business_rules db' = business_rules db
  /\ executions db' = executions db
  /\ (exists entries, audit_log db' = (audit_log db ++ entries)%list)
  /\ match select_node db node_id with
     | None =>
         r = Raise (ValueError "Node not found: " (PStr node_id)) /\ db' = db
     | Some _ =>
         exists below,
           node_executions db'
           = (node_executions db
                ++ record_of execution_id node_id r :: below)%list
           /\ Forall settled below
     end.
Proof.
  cbn [_execute_node].
  apply execute_node_body_records. apply settles_execute_node.
Qed.



(** *** A whole flow *)

Lemma update_fresh (execution_id : string) (f : execution_row -> execution_row)
    (l : list execution_row) (row : execution_row) :
  existsb (fun r => String.eqb (ex_execution_id r) execution_id) l = false ->
  ex_execution_id row = execution_id ->
  map (fun r => if String.eqb (ex_execution_id r) execution_id then f r else r)
      (l ++ [row])%list
  = (l ++ [f row])%list.
Proof.
  intros Hl Hrow. rewrite map_app. cbn [map].
  rewrite Hrow, String.eqb_refl. f_equal.
  induction l as [|r l IH]; [reflexivity|].
  cbn [existsb] in Hl. apply orb_false_iff in Hl. destruct Hl as [Hr Hl].
  cbn [map]. rewrite Hr, (IH Hl). reflexivity.
Qed.

Lemma init_working_memory_tables (execution_id : string)
    (d : list (string * pyval)) :
  forall db,
    let db' := fold_left (fun db kv =>
                            _set_working_memory execution_id (fst kv) (snd kv) db)
                         d db in
    nodes db' = nodes db /\ business_rules db' = business_rules db
    /\ executions db' = executions db /\ audit_log db' = audit_log db
    /\ node_executions db' = node_executions db.
Proof.
  induction d as [|[k v] d IH]; intros db; cbn [fold_left]; [repeat split|].
  exact (IH (_set_working_memory execution_id k v db)).
Qed.

(** X25.  [execute_flow] on an execution id that is not taken, with a dict
    as the initial context, adds one row to [executions] and leaves it
    settled: completed with the final working memory as its result when the
    call returns, which it does with that execution id, and failed with the
    error when it raises; the row is never left running.  The audit log
    gains an [execution_started] entry first and an [execution_completed] or
    [execution_failed] entry last, and the nodes and rules are as they were.
    A flow without a root node fails in this way. *)
Theorem execution_is_recorded (rt : runtime) (exn_text : exn -> string)
    (depth : nat) (now flow_id : string) (initial : list (string * pyval))
    (execution_id : option string) (db : database) :
  let eid := execution_id_of now execution_id in
  fresh eid db ->
  exists outcome db',
    execute_flow rt exn_text depth now flow_id (PDict initial) execution_id db
    = Some (outcome, db')
    /\ (forall id, outcome = Ok id -> id = eid)
    /\ executions db'
       = (executions db
            ++ [execution_record eid flow_id (PDict initial) outcome
                  (_get_working_memory eid db')])%list
    /\ (exists between,
          audit_log db'
          = (audit_log db
               ++ audit_entry eid "execution_started"
                    (PDict [("flow_id", PStr flow_id);
                            ("initial_context_keys",
                             PList (map PStr (dict_keys initial)))])
               :: between
               ++ [match outcome with
                   | Ok _ =>
                       audit_entry eid "execution_completed"
                         (PDict [("status", PStr "success")])
                   | Raise e =>
                       audit_entry eid "execution_failed"
                         (PDict [("error", PStr (exn_text e))])
                   end])%list)
    /\ nodes db' = nodes db
    /\ business_rules db' = business_rules db
    /\ (select_root flow_id db = None ->
        outcome = Raise (ValueError "No root node found for flow " (PStr flow_id))).
Proof.
  intros eid Hfresh. unfold fresh in Hfresh.
  unfold execute_flow. fold eid. rewrite Hfresh.
  unfold bindM at 1. unfold modify at 1.
  set (row := {| ex_execution_id := eid; ex_flow_id := flow_id;
                 ex_status := "running"; ex_input_context := PDict initial;
                 ex_output_result := None; ex_error_message := None |}).
  set (db1 := with_executions db (executions db ++ [row])%list).
  unfold bindM at 1. cbn [_init_working_memory]. unfold modify at 1.
  set (db2 := fold_left _ initial db1).
  destruct (init_working_memory_tables eid initial db1)
    as (Hn2 & Hb2 & He2 & Ha2 & Hx2). fold db2 in Hn2, Hb2, He2, Ha2, Hx2.
  unfold bindM at 1. unfold lift at 1.
  unfold bindM at 1. unfold _log_audit_event at 1. unfold modify at 1.
  set (started := {| al_execution_id := eid; al_event_type := "execution_started";
                     al_event_data := _; al_actor := "system" |}).
  set (db3 := with_audit_log db2 (audit_log db2 ++ [started])%list).
  assert (Hroot : select_root flow_id db3 = select_root flow_id db).
  { unfold select_root. cbn [nodes db3 with_audit_log]. rewrite Hn2.
    reflexivity. }
  (* what the handler leaves *)
  assert (Hfail : forall e db4,
             kept db3 db4 ->
             exists db',
               (_ <~ update_execution eid
                       (fun row =>
                          {| ex_execution_id := ex_execution_id row;
                             ex_flow_id := ex_flow_id row;
                             ex_status := "failed";
                             ex_input_context := ex_input_context row;
                             ex_output_result := ex_output_result row;
                             ex_error_message := Some e |}) ;;
                _ <~ _log_audit_event eid "execution_failed"
                       (PDict [("error", PStr (exn_text e))]) ;;
                raise e) db4
               = (@Raise string e, db')
               /\ executions db'
                  = (executions db
                       ++ [execution_record eid flow_id (PDict initial) (Raise e)
                             (_get_working_memory eid db')])%list
               /\ (exists between,
                     audit_log db'
                     = (audit_log db ++ started :: between
                          ++ [audit_entry eid "execution_failed"
                                (PDict [("error", PStr (exn_text e))])])%list)
               /\ nodes db' = nodes db
               /\ business_rules db' = business_rules db).
  { intros e db4 (Hn4 & Hb4 & He4 & (between & Ha4) & _).
    eexists. split; [reflexivity|].
    cbn [executions audit_log nodes business_rules with_executions
         with_audit_log].
    rewrite He4, Hn4, Hb4, Ha4.
    cbn [executions audit_log nodes business_rules db3 with_audit_log].
    rewrite He2, Hn2, Hb2, Ha2.
    cbn [executions audit_log nodes business_rules db1 with_executions].
    rewrite (update_fresh eid _ (executions db) row Hfresh eq_refl).
    split; [reflexivity|]. split; [|split; reflexivity].
    exists between. rewrite <- !app_assoc. reflexivity. }
  unfold try_with. unfold bindM at 1. unfold gets at 1. rewrite Hroot.
  destruct (select_root flow_id db) as [root_node|].
  2:{ destruct (Hfail (ValueError "No root node found for flow " (PStr flow_id))
                  db3 (kept_refl db3))
        as (db' & Hrun & Hex & Haud & Hn & Hb).
      unfold raise at 1. rewrite Hrun.
      eexists. exists db'. split; [reflexivity|].
      split; [discriminate|]. split; [exact Hex|]. split; [exact Haud|].
      split; [exact Hn|]. split; [exact Hb|]. reflexivity. }
  unfold bindM at 1.
  pose proof (settles_execute_node rt depth (Node.node_id root_node) eid db3)
    as Hkept.
  destruct (_execute_node rt depth (Node.node_id root_node) eid db3)
    as [[output|e] db4]; cbn [snd] in Hkept.
  2:{ destruct (Hfail e db4 Hkept) as (db' & Hrun & Hex & Haud & Hn & Hb).
      rewrite Hrun. eexists. exists db'. split; [reflexivity|].
      split; [discriminate|]. split; [exact Hex|]. split; [exact Haud|].
      split; [exact Hn|]. split; [exact Hb|]. discriminate. }
  destruct Hkept as (Hn4 & Hb4 & He4 & (between & Ha4) & _).
  eexists. eexists. split; [reflexivity|].
  split; [intros id [= <-]; reflexivity|].
  cbn [executions audit_log nodes business_rules with_executions
       with_audit_log].
  rewrite He4, Hn4, Hb4, Ha4.
  cbn [executions audit_log nodes business_rules db3 with_audit_log].
  rewrite He2, Hn2, Hb2, Ha2.
  cbn [executions audit_log nodes business_rules db1 with_executions].
  rewrite (update_fresh eid _ (executions db) row Hfresh eq_refl).
  split; [reflexivity|]. split; [|split; [reflexivity|split; [reflexivity|discriminate]]].
  exists between. rewrite <- !app_assoc. reflexivity.
Qed.

(** the gate under the root kills: the execution is recorded as failed *)
Lemma execution_is_recorded_witness :
  exists outcome db',
    execute_flow rt0 some_text 5 "20250101_000000" "flow"
      (PDict [("title", PStr "PRD")]) (Some "exec_1") db_flow_kill
    = Some (outcome, db')
    /\ map ex_status (executions db') = ["failed"]
    /\ map al_event_type (audit_log db')
       = ["execution_started"; "execution_failed"].
Proof.
  destruct (execution_is_recorded rt0 some_text 5 "20250101_000000" "flow"
              [("title", PStr "PRD")] (Some "exec_1") db_flow_kill eq_refl)
    as (outcome & db' & Hrun & _).
  exists outcome, db'. split; [exact Hrun|].
  vm_compute in Hrun. injection Hrun as <- <-. split; reflexivity.
Defined.

(** X26.  With an initial context that is not a dict, [execute_flow]
    raises from the initialisation of the working memory, which is outside
    its [try]: the row of the execution has been added and stays running,
    and the audit log has no entry for it. *)
Theorem unusable_context_leaves_execution_running (rt : runtime)
    (exn_text : exn -> string) (depth : nat) (now flow_id : string)
    (initial_context : pyval) (execution_id : option string) (db : database) :
  let eid := execution_id_of now execution_id in
  fresh eid db ->
  (forall d, initial_context <> PDict d) ->
  exists db',
    execute_flow rt exn_text depth now flow_id initial_context execution_id db
    = Some (Raise AttributeError, db')
    /\ executions db'
       = (executions db
            ++ [{| ex_execution_id := eid; ex_flow_id := flow_id;
                   ex_status := "running";
                   ex_input_context := initial_context;
                   ex_output_result := None;
                   ex_error_message := None |}])%list
    /\ audit_log db' = audit_log db
    /\ working_memory db' = working_memory db.
Proof.
  intros eid Hfresh Hnot. unfold fresh in Hfresh.
  unfold execute_flow. fold eid. rewrite Hfresh.
  destruct initial_context; try (eexists; repeat split; reflexivity).
  exfalso. apply (Hnot d). reflexivity.
Qed.

Lemma unusable_context_leaves_execution_running_witness :
  exists db',
    execute_flow rt0 some_text 5 "20250101_000000" "flow" PNone
      (Some "exec_1") db_flow_kill
    = Some (Raise AttributeError, db')
    /\ map ex_status (executions db') = ["running"].
Proof.
  destruct (unusable_context_leaves_execution_running rt0 some_text 5
              "20250101_000000" "flow" PNone (Some "exec_1") db_flow_kill
              eq_refl)
    as (db' & Hrun & Hex & _).
  - intros d. discriminate.
  - exists db'. split; [exact Hrun|]. rewrite Hex. reflexivity.
Defined.

(** *** Control flow and agents *)

Lemma collect_runs (self_execute : string -> string -> M database pyval)
    (execution_id : string) (children : list Node.row) :
  forall db vs db' results,
    runs self_execute execution_id children db vs db' ->
    collect_in_order self_execute execution_id children results db
    = (Ok (results ++ vs)%list, db').
Proof.
  induction children as [|child rest IH]; intros db vs db' results Hruns;
    inversion Hruns; subst.
  - cbn. rewrite app_nil_r. reflexivity.
  - cbn [collect_in_order]. unfold bindM.
    match goal with H : self_execute _ _ _ = _ |- _ => rewrite H end.
    erewrite IH by eassumption. rewrite <- app_assoc. reflexivity.
Qed.

Lemma collect_stops (self_execute : string -> string -> M database pyval)
    (execution_id : string) (pre post : list Node.row) (child : Node.row) :
  forall db vs db1 db2 e results,
    runs self_execute execution_id pre db vs db1 ->
    self_execute (Node.node_id child) execution_id db1 = (Raise e, db2) ->
    collect_in_order self_execute execution_id (pre ++ child :: post) results db
    = (Raise e, db2).
Proof.
  induction pre as [|c pre IH]; intros db vs db1 db2 e results Hruns Hchild;
    inversion Hruns; subst.
  - cbn [app collect_in_order]. unfold bindM. rewrite Hchild. reflexivity.
  - cbn [app collect_in_order]. unfold bindM.
    match goal with H : self_execute _ _ _ = (Ok _, _) |- _ => rewrite H end.
    eapply IH; eassumption.
Qed.

(** X27.  A parallelization node of the quality-gate orchestrator runs its
    children one after the other, each on the tables that the one before
    left.  When all return, the node returns their outputs in order under
    [parallel_results]; when one raises, the node raises the same and the
    children after it are not run. *)
Theorem parallelization_is_sequential
    (self_execute : string -> string -> M database pyval)
    (node : Node.row) (execution_id : string) (config : node_config)
    (db : database) :
  pattern config = Some "parallelization" ->
  let children := _get_child_nodes (Node.node_id node) db in
  let run := _execute_control_flow_node self_execute node execution_id config db in
  (forall vs db',
     runs self_execute execution_id children db vs db' ->
     run = (Ok (PDict [("parallel_results", PList vs)]), db'))
  /\ (forall pre child post vs db1 db2 e,
        children = (pre ++ child :: post)%list ->
        runs self_execute execution_id pre db vs db1 ->
        self_execute (Node.node_id child) execution_id db1 = (Raise e, db2) ->
        run = (Raise e, db2)).
Proof.
  intros Hpattern children run. subst run.
  unfold _execute_control_flow_node. rewrite Hpattern.
  cbn [String.eqb Ascii.eqb Bool.eqb]. unfold bindM at 1 3, gets.
  fold children. split.
  - intros vs db' Hruns. unfold bindM.
    rewrite (collect_runs self_execute execution_id children db vs db' []
               Hruns).
    reflexivity.
  - intros pre child post vs db1 db2 e Hchildren Hruns Hchild.
    rewrite Hchildren. unfold bindM.
    rewrite (collect_stops self_execute execution_id pre post child db vs db1
               db2 e [] Hruns Hchild).
    reflexivity.
Qed.

(** of the children [A; B; C] the second raises: the third is not run *)
Lemma parallelization_is_sequential_witness :
  _execute_control_flow_node (raises_on "B")
    (node "P" "control_flow" None (Some parallel_config)) "exec_1"
    parallel_config db_parallel
  = (Raise (ValueError "Node not found: " (PStr "B")), db_parallel).
Proof.
  apply (proj2 (parallelization_is_sequential (raises_on "B")
                  (node "P" "control_flow" None (Some parallel_config))
                  "exec_1" parallel_config db_parallel eq_refl)
           [node "A" "agent" (Some "P") None]
           (node "B" "agent" (Some "P") None)
           [node "C" "agent" (Some "P") None]
           [PStr "A"] db_parallel db_parallel).
  - reflexivity.
  - eapply runs_child; [reflexivity | constructor].
  - reflexivity.
Defined.

Lemma store_outputs_memory (execution_id : string)
    (output : list (string * pyval)) (output_keys : list string) :
  forall db key,
    dict_get key (_get_working_memory execution_id
                    (store_outputs execution_id output_keys output db))
    = match (if existsb (String.eqb key) output_keys
             then dict_get key output else None) with
      | Some v => Some v
      | None => dict_get key (_get_working_memory execution_id db)
      end.
Proof.
  induction output_keys as [|k rest IH]; intros db key;
    cbn [store_outputs existsb]; [reflexivity|].
  rewrite IH. destruct (String.eqb key k) eqn:E; cbn [orb].
  - apply String.eqb_eq in E. subst k.
    destruct (dict_get key output) as [v|] eqn:Hv.
    + rewrite memory_set_same. destruct (existsb _ rest); reflexivity.
    + destruct (existsb _ rest); reflexivity.
  - apply String.eqb_neq in E.
    destruct (dict_get k output) as [v|]; [|reflexivity].
    rewrite memory_set_other_key by exact E. reflexivity.
Qed.

Lemma store_outputs_other_execution (execution_id e' : string)
    (output : list (string * pyval)) (output_keys : list string) :
  e' <> execution_id ->
  forall db,
    _get_working_memory e' (store_outputs execution_id output_keys output db)
    = _get_working_memory e' db.
Proof.
  intros He. induction output_keys as [|k rest IH]; intros db;
    cbn [store_outputs]; [reflexivity|].
  rewrite IH. destruct (dict_get k output); [|reflexivity].
  apply memory_set_other_execution. exact He.
Qed.



End WalkExtras.

(* ================================================================== *)
(** ** The handlers of the agentic orchestrator *)
(* ================================================================== *)

Module AgenticWalkFacts.
Import Py.
Import AgenticOrchestrator.
Import Notions.
Import Examples.

Section Sequence.
Context {St : Type}.
Context (execute_node : string -> string -> pyval -> M St NodeExecutionResult).
Context (execution_id : string) (input_data : pyval).

Lemma run_children_calls (children : list Node.row) :
  forall st log results,
    exists calls o st',
      run_children (traced execute_node) execution_id children input_data
        results (st, log)
      = (o, (st', (log ++ calls)%list))
      /\ sequence_calls input_data children calls
      /\ match o with
         | Ok rs =>
             rs = (results ++ returned calls)%list
             /\ List.length calls = List.length children
             /\ List.length (returned calls) = List.length children
         | Raise e =>
             exists before node, calls = (before ++ [(node, input_data, Raise e)])%list
         end.
Proof.
  induction children as [|child rest IH]; intros st log results.
  - exists [], (Ok results), st. cbn. rewrite !app_nil_r.
    repeat split. constructor.
  - cbn [run_children]. unfold bindM at 1. unfold traced at 1. cbn [fst snd].
    destruct (execute_node execution_id (Node.node_id child) input_data st)
      as [[r|e] st1].
    + destruct (IH st1 (log ++ [(Node.node_id child, input_data, Ok r)])%list
                  (results ++ [r])%list)
        as (calls & o & st' & Hrun & Hcalls & Ho).
      rewrite Hrun.
      exists ((Node.node_id child, input_data, Ok r) :: calls), o, st'.
      split; [rewrite <- app_assoc; reflexivity|].
      split; [constructor; exact Hcalls|].
      destruct o as [rs|e].
      * destruct Ho as (-> & Hlen & Hret). cbn [returned List.length].
        rewrite <- app_assoc, Hlen, Hret. repeat split.
      * destruct Ho as (before & node & ->).
        exists ((Node.node_id child, input_data, Ok r) :: before), node.
        reflexivity.
    + exists [(Node.node_id child, input_data, Raise e)], (Raise e), st1.
      split; [reflexivity|]. split; [constructor|].
      exists [], (Node.node_id child). reflexivity.
Qed.

Lemma run_assignments_calls (workers : list Node.row) (assignments : list pyval) :
  forall st log results,
    exists calls o st',
      run_assignments (traced execute_node) execution_id workers assignments
        results (st, log)
      = (o, (st', (log ++ calls)%list))
      /\ assignment_calls workers assignments calls
      /\ match o with
         | Ok rs => rs = (results ++ returned calls)%list
         | Raise _ => True
         end.
Proof.
  induction assignments as [|assignment rest IH]; intros st log results.
  - exists [], (Ok results), st. cbn. rewrite !app_nil_r.
    repeat split. constructor.
  - cbn [run_assignments]. unfold bindM at 1. unfold lift at 1.
    destruct (py_getitem assignment "worker") as [worker_name|e] eqn:Hw.
    2:{ exists [], (Raise e), st. rewrite app_nil_r.
        split; [reflexivity|]. split; [|exact I].
        apply assignment_malformed. intros wn wi H. congruence. }
    unfold bindM at 1. unfold lift at 1.
    destruct (py_getitem assignment "input") as [worker_input|e] eqn:Hi.
    2:{ exists [], (Raise e), st. rewrite app_nil_r.
        split; [reflexivity|]. split; [|exact I].
        apply assignment_malformed. intros wn wi _ H. congruence. }
    fold (node_named workers worker_name).
    destruct (node_named workers worker_name) as [worker|] eqn:Hfind.
    + unfold bindM at 1. unfold traced at 1. cbn [fst snd].
      destruct (execute_node execution_id (Node.node_id worker) worker_input st)
        as [[r|e] st1].
      * destruct (IH st1 (log ++ [(Node.node_id worker, worker_input, Ok r)])%list
                    (results ++ [r])%list)
          as (calls & o & st' & Hrun & Hcalls & Ho).
        rewrite Hrun.
        exists ((Node.node_id worker, worker_input, Ok r) :: calls), o, st'.
        split; [rewrite <- app_assoc; reflexivity|].
        split; [eapply assignment_step; eassumption|].
        destruct o as [rs|e]; [|exact I].
        rewrite Ho. cbn [returned]. rewrite <- app_assoc. reflexivity.
      * exists [(Node.node_id worker, worker_input, Raise e)], (Raise e), st1.
        split; [reflexivity|]. split; [|exact I].
        eapply assignment_raise; eassumption.
    + destruct (IH st log results) as (calls & o & st' & Hrun & Hcalls & Ho).
      rewrite Hrun. exists calls, o, st'.
      split; [reflexivity|]. split; [|exact Ho].
      eapply assignment_unknown; eassumption.
Qed.

End Sequence.

(** X20.  [_execute_children] calls [execute_node] on the children in
    order, each with the input of the parent, and stops only at a call that
    raises, whose exception it passes on.  When no call raises, every child
    has been called, whatever status the ones before it came back with, and
    the parent is COMPLETED with all the results and their number. *)
Theorem children_run_in_sequence {St : Type}
    (get_child_nodes : string -> St -> list Node.row)
    (execute_node : string -> string -> pyval -> M St NodeExecutionResult)
    (execution_id parent_id : string) (input_data : pyval) (st : St) :
  let children := get_child_nodes parent_id st in
  exists calls o st',
    _execute_children (on_store get_child_nodes) (traced execute_node)
      execution_id parent_id input_data (st, [])
    = (o, (st', calls))
    /\ sequence_calls input_data children calls
    /\ match o with
       | Ok r =>
           List.length calls = List.length children
           /\ status r = COMPLETED
           /\ child_results r = Some (returned calls)
           /\ output_data r
              = PDict [("child_count",
                        PInt (Z.of_nat (List.length children)))]
       | Raise e =>
           exists before node,
             calls = (before ++ [(node, input_data, Raise e)])%list
       end.
Proof.
  intros children.
  destruct (run_children_calls execute_node execution_id input_data children
              st [] [])
    as (calls & o & st' & Hrun & Hcalls & Ho).
  unfold _execute_children, bindM, gets, on_store, ret. cbn [fst].
  fold children. rewrite Hrun. cbn [app].
  destruct o as [rs|e].
  - destruct Ho as (-> & Hlen & Hret). cbn [app].
    eexists. eexists. eexists. split; [reflexivity|].
    split; [exact Hcalls|]. cbn [status child_results output_data].
    rewrite Hret. repeat split. exact Hlen.
  - eexists. eexists. eexists. split; [reflexivity|].
    split; [exact Hcalls | exact Ho].
Qed.

(** of the children [A; B; C] the second raises: the third is not called *)
Lemma children_run_in_sequence_witness :
  exists st',
    _execute_children (on_store (children_of ["A"; "B"; "C"]))
      (traced (fails_at "B")) "exec_1" "root" (PStr "in") (tt, [])
    = (Raise (ValueError "No agents available for task execution" PNone), st')
    /\ List.length (snd st') = 2%nat.
Proof.
  destruct (children_run_in_sequence (children_of ["A"; "B"; "C"])
              (fails_at "B") "exec_1" "root" (PStr "in") tt)
    as (calls & o & st' & Hrun & _).
  vm_compute in Hrun. injection Hrun as <- <- <-.
  eexists. split; reflexivity.
Defined.

(** X21.  An orchestrator-workers node without children fails without
    calling anything.  Otherwise it calls its first child with the input of
    the node and then, for the task assignments that the output of that
    child lists, in their order, the worker among the other children that
    the assignment names, with the input of the assignment; an assignment
    that names no worker is passed over.  When nothing raises the node is
    COMPLETED with the results of all the calls made, whatever their
    statuses. *)
Theorem workers_run_as_assigned {St : Type}
    (get_child_nodes : string -> St -> list Node.row)
    (execute_node : string -> string -> pyval -> M St NodeExecutionResult)
    (execution_id node_id : string) (input_data : pyval) (st : St) :
  match get_child_nodes node_id st with
  | [] =>
      exists r,
        _execute_orchestrator_workers (on_store get_child_nodes)
          (traced execute_node) execution_id node_id input_data (st, [])
        = (Ok r, (st, []))
        /\ status r = FAILED
  | orchestrator :: workers =>
      exists first calls o st',
        _execute_orchestrator_workers (on_store get_child_nodes)
          (traced execute_node) execution_id node_id input_data (st, [])
        = (o, (st', (Node.node_id orchestrator, input_data, first) :: calls))
        /\ match first with
           | Raise e => calls = [] /\ o = Raise e
           | Ok orchestrator_result =>
               match py_get_default (output_data orchestrator_result)
                       "task_assignments" (PList []) with
               | Raise e => calls = [] /\ o = Raise e
               | Ok assigned =>
                   match py_iter assigned with
                   | Raise e => calls = [] /\ o = Raise e
                   | Ok task_assignments =>
                       assignment_calls workers task_assignments calls
                       /\ match o with
                          | Ok r =>
                              status r = COMPLETED
                              /\ child_results r
                                 = Some (orchestrator_result :: returned calls)
                              /\ output_data r
                                 = PDict [("orchestration",
                                           output_data orchestrator_result);
                                          ("worker_results",
                                           PList (map output_data
                                                    (returned calls)))]
                          | Raise _ => True
                          end
                   end
               end
           end
  end.
Proof.
  destruct (get_child_nodes node_id st) as [|orchestrator workers] eqn:Hc;
    unfold _execute_orchestrator_workers, bindM at 1, gets, on_store;
    cbn [fst]; rewrite Hc.
  - eexists. split; reflexivity.
  - unfold bindM at 1. unfold traced at 1. cbn [fst snd app].
    destruct (execute_node execution_id (Node.node_id orchestrator) input_data st)
      as [[r0|e] st1].
    2:{ exists (Raise e), [], (Raise e), st1. split; [reflexivity|].
        split; reflexivity. }
    unfold bindM at 1. unfold lift at 1.
    destruct (py_get_default (output_data r0) "task_assignments" (PList []))
      as [assigned|e] eqn:Hget.
    2:{ exists (Ok r0), [], (Raise e), st1. split; [reflexivity|].
        cbv beta iota. rewrite Hget. split; reflexivity. }
    unfold bindM at 1. unfold lift at 1.
    destruct (py_iter assigned) as [task_assignments|e] eqn:Hiter.
    2:{ exists (Ok r0), [], (Raise e), st1. split; [reflexivity|].
        cbv beta iota. rewrite Hget, Hiter. split; reflexivity. }
    destruct (run_assignments_calls execute_node execution_id workers
                task_assignments st1
                [(Node.node_id orchestrator, input_data, Ok r0)] [])
      as (calls & o & st' & Hrun & Hcalls & Ho).
    unfold bindM. rewrite Hrun.
    destruct o as [rs|e].
    + cbn [app] in Ho. subst rs.
      exists (Ok r0), calls. eexists. exists st'.
      split; [reflexivity|]. cbv beta iota. rewrite Hget, Hiter.
      split; [exact Hcalls|]. repeat split.
    + exists (Ok r0), calls, (Raise e), st'.
      split; [reflexivity|]. cbv beta iota. rewrite Hget, Hiter.
      split; [exact Hcalls | exact I].
Qed.

Section Rules.
Context {St : Type} (rt : runtime) (attached : bool).
Context (record_gate_evaluation
         : string -> string -> pyval -> AgenticBRE.RuleEvaluation -> St -> St).
Context (context : pyval) (execution_id : option string) (node_id : string).

Let log := recorded rt attached record_gate_evaluation execution_id
             (Some node_id) context.

Lemma evaluate_rule_dict (rule : list (string * pyval)) :
  AgenticBRE.evaluate_rule rt (PDict rule) context
  = Ok (evaluation_of rt context rule).
Proof. reflexivity. Qed.

Lemma recorded_app (rules1 rules2 : list (list (string * pyval))) (st : St) :
  log (rules1 ++ rules2)%list st = log rules2 (log rules1 st).
Proof.
  unfold log, recorded. destruct execution_id as [e|]; [|reflexivity].
  destruct (attached && _ && _); [|reflexivity].
  apply fold_left_app.
Qed.

Lemma evaluate_rule_on_run (rule : list (string * pyval)) (st : St) :
  AgenticBRE.evaluate_rule_on rt attached record_gate_evaluation (PDict rule)
    context execution_id (Some node_id) st
  = (Ok (evaluation_of rt context rule), log [rule] st).
Proof.
  unfold AgenticBRE.evaluate_rule_on, bindM at 1, lift.
  rewrite evaluate_rule_dict. unfold log, recorded.
  destruct execution_id as [e|].
  - destruct (attached && _ && _); reflexivity.
  - rewrite andb_false_r. reflexivity.
Qed.

Lemma evaluate_rules_run (rules : list (list (string * pyval))) :
  forall st all_passed evaluations,
    AgenticBRE.evaluate_rules rt attached record_gate_evaluation rules context
      execution_id node_id all_passed evaluations st
    = (Ok (all_passed && forallb (passes rt context) rules,
           (evaluations ++ map (evaluation_of rt context) rules)%list),
       log rules st).
Proof.
  induction rules as [|rule rest IH]; intros st all_passed evaluations.
  - cbn. rewrite andb_true_r, app_nil_r.
    unfold log, recorded. destruct execution_id; [|reflexivity].
    destruct (attached && _ && _); reflexivity.
  - cbn [AgenticBRE.evaluate_rules]. unfold bindM at 1.
    rewrite evaluate_rule_on_run, IH.
    change (rule :: rest) with ([rule] ++ rest)%list at 3.
    rewrite recorded_app. cbn [forallb map].
    rewrite <- app_assoc. cbn [app]. unfold passes at 2.
    destruct (AgenticBRE.is_pass (evaluation_of rt context rule));
      [rewrite andb_true_l | rewrite andb_false_r]; reflexivity.
Qed.

End Rules.

Lemma evaluate_gate_attached {St : Type} (rt : runtime)
    (get_rules_for_flow : string -> string -> St -> list (list (string * pyval)))
    (record_gate_evaluation
     : string -> string -> pyval -> AgenticBRE.RuleEvaluation -> St -> St)
    (flow_id node_id : string) (context : pyval)
    (execution_id : option string) (st : St) :
  AgenticBRE.evaluate_gate rt true get_rules_for_flow
    record_gate_evaluation flow_id node_id context execution_id st
  = (Ok (forallb (passes rt context) (get_rules_for_flow flow_id "gate" st),
         map (evaluation_of rt context) (get_rules_for_flow flow_id "gate" st)),
     recorded rt true record_gate_evaluation execution_id (Some node_id)
       context (get_rules_for_flow flow_id "gate" st) st).
Proof.
  unfold AgenticBRE.evaluate_gate. cbn [negb]. unfold bindM, gets.
  rewrite evaluate_rules_run. reflexivity.
Qed.

(** X22.  The agentic [evaluate_gate] raises when the engine has no
    database.  Otherwise it evaluates every gate rule of the flow, in the
    order of the query, also after a rule has failed or could not be
    evaluated, returns the evaluations in that order, and its verdict is
    true exactly when every one of them has the status PASS; the verdict
    does not depend on the node, which is only written to the log, and
    without an execution id nothing is recorded. *)
Theorem gate_evaluates_every_rule {St : Type} (rt : runtime) (attached : bool)
    (get_rules_for_flow : string -> string -> St -> list (list (string * pyval)))
    (record_gate_evaluation
     : string -> string -> pyval -> AgenticBRE.RuleEvaluation -> St -> St)
    (flow_id node_id : string) (context : pyval)
    (execution_id : option string) (st : St) :
  let rules := get_rules_for_flow flow_id "gate" st in
  let st' := recorded rt attached record_gate_evaluation execution_id
               (Some node_id) context rules st in
  AgenticBRE.evaluate_gate rt attached get_rules_for_flow
    record_gate_evaluation flow_id node_id context execution_id st
  = (if attached
     then (Ok (forallb (passes rt context) rules,
               map (evaluation_of rt context) rules), st')
     else (Raise (ValueError "Database required for gate evaluation" PNone), st))
  /\ (AgenticBRE.provided execution_id = false -> st' = st).
Proof.
  intros rules st'. split.
  - destruct attached; [apply evaluate_gate_attached | reflexivity].
  - intros Hno. subst st'. unfold recorded.
    destruct execution_id; [|reflexivity].
    rewrite Hno, andb_false_r. reflexivity.
Qed.

Section Routing.
Context {St : Type} (rt : runtime).
Context (get_child_nodes : string -> St -> list Node.row).
Context (execute_node : string -> string -> pyval -> M St NodeExecutionResult).
Context (attached : bool).
Context (get_rules_for_flow : string -> string -> St -> list (list (string * pyval))).
Context (record_gate_evaluation
         : string -> string -> pyval -> AgenticBRE.RuleEvaluation -> St -> St).
Context (execution_id node_id : string) (input_data : pyval).

Let log := recorded rt attached record_gate_evaluation (Some execution_id)
             (Some node_id) input_data.

Lemma select_route_none (rules : list (list (string * pyval))) :
  forall st,
    forallb (fun rule => negb (passes rt input_data rule)) rules = true ->
    select_route rt get_child_nodes attached record_gate_evaluation
      execution_id node_id rules input_data st
    = (Ok None, log rules st).
Proof.
  induction rules as [|rule rest IH]; intros st Hnone.
  - cbn. unfold log, recorded. destruct (attached && _ && _); reflexivity.
  - cbn [forallb] in Hnone. apply andb_true_iff in Hnone.
    destruct Hnone as [Hrule Hrest]. apply negb_true_iff in Hrule.
    cbn [select_route]. unfold bindM at 1. rewrite evaluate_rule_on_run.
    unfold passes in Hrule. rewrite Hrule. rewrite (IH _ Hrest).
    change (rule :: rest) with ([rule] ++ rest)%list.
    unfold log. rewrite recorded_app. reflexivity.
Qed.

Lemma select_route_first (pre post : list (list (string * pyval)))
    (rule : list (string * pyval)) (action child_name : pyval) :
  forall st,
    forallb (fun rule => negb (passes rt input_data rule)) pre = true ->
    passes rt input_data rule = true ->
    dict_get "action" rule = Some action ->
    py_get action "route_to" = Ok child_name ->
    select_route rt get_child_nodes attached record_gate_evaluation
      execution_id node_id (pre ++ rule :: post) input_data st
    = (Ok (node_named
             (get_child_nodes node_id (log (pre ++ [rule])%list st)) child_name),
       log (pre ++ [rule])%list st).
Proof.
  induction pre as [|other pre IH]; intros st Hpre Hrule Haction Hname.
  - cbn [app select_route]. unfold bindM at 1. rewrite evaluate_rule_on_run.
    unfold passes in Hrule. rewrite Hrule.
    unfold bindM, lift, gets. cbn [py_getitem]. rewrite Haction, Hname.
    reflexivity.
  - cbn [forallb] in Hpre. apply andb_true_iff in Hpre.
    destruct Hpre as [Hother Hpre]. apply negb_true_iff in Hother.
    cbn [app select_route]. unfold bindM at 1. rewrite evaluate_rule_on_run.
    unfold passes in Hother. rewrite Hother.
    rewrite (IH _ Hpre Hrule Haction Hname).
    change (other :: (pre ++ [rule]))%list with ([other] ++ (pre ++ [rule]))%list.
    unfold log. rewrite !recorded_app. reflexivity.
Qed.

End Routing.

(** X23.  A routing node evaluates the routing rules of its flow in the
    order of the query, up to the first that passes, and the rules after it
    are not evaluated.  The child with the name under [route_to] in the
    action of that rule is called with the input of the node, and the node
    is COMPLETED whatever comes back; when no child has that name, or no
    rule passes, the node is FAILED and no child is called. *)
Theorem first_passing_rule_routes {St : Type} (rt : runtime)
    (get_child_nodes : string -> St -> list Node.row)
    (execute_node : string -> string -> pyval -> M St NodeExecutionResult)
    (attached : bool)
    (get_rules_for_flow : string -> string -> St -> list (list (string * pyval)))
    (record_gate_evaluation
     : string -> string -> pyval -> AgenticBRE.RuleEvaluation -> St -> St)
    (get_flow_id : string -> St -> res string)
    (execution_id node_id flow_id : string) (input_data config : pyval)
    (st : St) :
  get_flow_id node_id st = Ok flow_id ->
  let rules := get_rules_for_flow flow_id "routing" st in
  let log := recorded rt attached record_gate_evaluation (Some execution_id)
               (Some node_id) input_data in
  let run := _execute_routing rt get_child_nodes execute_node attached
               get_rules_for_flow record_gate_evaluation get_flow_id
               execution_id node_id input_data config st in
  let failed :=
    {| node_id := node_id; status := FAILED; output_data := PDict [];
       error := Some "No routing rule matched"; child_results := None |} in
  (forallb (fun rule => negb (passes rt input_data rule)) rules = true ->
   run = (Ok failed, log rules st))
  /\ (forall pre rule post action child_name,
        rules = (pre ++ rule :: post)%list ->
        forallb (fun rule => negb (passes rt input_data rule)) pre = true ->
        passes rt input_data rule = true ->
        dict_get "action" rule = Some action ->
        py_get action "route_to" = Ok child_name ->
        let st1 := log (pre ++ [rule])%list st in
        match node_named (get_child_nodes node_id st1) child_name with
        | None => run = (Ok failed, st1)
        | Some child =>
            run
            = (let '(o, st2) :=
                 execute_node execution_id (Node.node_id child) input_data st1 in
               (match o with
                | Ok result =>
                    Ok {| node_id := node_id;
                          status := COMPLETED;
                          output_data :=
                            PDict [("routed_to", PStr (Node.name child));
                                   ("result", output_data result)];
                          error := None;
                          child_results := Some [result] |}
                | Raise e => Raise e
                end, st2))
        end).
Proof.
  intros Hflow rules log run failed.
  assert (Hrun : run
                 = (selected_child <~
                      select_route rt get_child_nodes attached
                        record_gate_evaluation execution_id node_id rules
                        input_data ;;
                    match selected_child with
                    | Some child =>
                        result <~ execute_node execution_id (Node.node_id child)
                                    input_data ;;
                        ret {| node_id := node_id;
                               status := COMPLETED;
                               output_data :=
                                 PDict [("routed_to", PStr (Node.name child));
                                        ("result", output_data result)];
                               error := None;
                               child_results := Some [result] |}
                    | None => ret failed
                    end) st).
  { subst run. unfold _execute_routing. unfold bindM at 1. rewrite Hflow.
    unfold bindM at 1. unfold gets at 1. reflexivity. }
  rewrite Hrun. clear Hrun. split.
  - intros Hnone. unfold bindM.
    rewrite (select_route_none rt get_child_nodes attached
               record_gate_evaluation execution_id node_id input_data rules st
               Hnone).
    reflexivity.
  - intros pre rule post action child_name Hrules Hpre Hrule Haction Hname.
    cbv zeta. set (st1 := log (pre ++ [rule])%list st).
    rewrite Hrules.
    pose proof (select_route_first rt get_child_nodes attached
                  record_gate_evaluation execution_id node_id input_data
                  pre post rule action child_name st Hpre Hrule Haction Hname)
      as Hroute.
    fold log in Hroute. fold st1 in Hroute.
    destruct (node_named (get_child_nodes node_id st1) child_name) as [child|];
      unfold bindM at 1; rewrite Hroute; [|reflexivity].
    unfold bindM.
    destruct (execute_node execution_id (Node.node_id child) input_data st1)
      as [[result|e] st2]; reflexivity.
Qed.

(** the first rule that passes names a child that does not exist: the
    node fails although the rule after it names the child [B] *)
Lemma first_passing_rule_routes_witness :
  _execute_routing rt0 (children_of ["A"; "B"]) completes false
    (rules_of routes) no_record (fun _ _ => Ok "flow")
    "exec_1" "router" prd (PDict []) tt
  = (Ok {| node_id := "router"; status := FAILED; output_data := PDict [];
           error := Some "No routing rule matched"; child_results := None |},
     tt).
Proof.
  exact (proj2 (first_passing_rule_routes rt0 (children_of ["A"; "B"]) completes
                  false (rules_of routes) no_record (fun _ _ => Ok "flow")
                  "exec_1" "router" "flow" prd (PDict []) tt eq_refl)
           [routing_rule "r1" (title_is "RFC") "A"]
           (routing_rule "r2" (title_is "PRD") "C")
           [routing_rule "r3" (title_is "PRD") "B"]
           (PDict [("route_to", PStr "C")]) (PStr "C")
           eq_refl eq_refl eq_refl eq_refl eq_refl).
Defined.

Lemma merge_memory_dict (working_memory : list (string * pyval)) :
  forall input,
    merge_memory working_memory (PDict input)
    = Ok (PDict (overlaid working_memory input)).
Proof.
  induction working_memory as [|[key value] rest IH]; intros input;
    [reflexivity|].
  cbn [merge_memory AgenticBRE.py_setitem bind]. rewrite IH. reflexivity.
Qed.



End AgenticWalkFacts.
